(** * Cookie-Care scanner: consent-state crawl, cross-visit aggregation,
      classification batching and report assembly

    A shallow embedding of the [/api/scan] handlers of the backend servers
    of this repository, and the properties of the design document checked
    against them.  Three server variants are embedded:

    - [Server1]: the server that tracks requests against a known-tracker
      list, keeps a FIFO frontier, catches a failed classifier batch and
      has a fallback report;
    - [Server2]: "server2.ts (Refactored for Cloud Deployment)", with a
      prioritised frontier, storage items and [pageUrls];
    - [Server3]: the streaming (server-sent events) variant, of which the
      cookie verdict and the same-site check are embedded.

    JavaScript values are modelled as follows.  A [Set] is a duplicate-free
    list in insertion order ([ListSet.set_add] appends an absent element,
    as [Set.prototype.add] does).  A [Map] with string keys is an
    association list in insertion order.  Strings are [string].  A thrown
    exception is the [Threw] outcome of a small error monad.  The browser,
    the URL parser, the clock and the text-generation service are
    parameters: the handlers only consume what they return. *)

From Stdlib Require Import String Ascii List ListSet ZArith QArith Qround Lia Bool Arith.
From Stdlib Require Import Permutation Sorted Lqa.
From Stdlib Require Import DecimalString.
Import ListNotations.

Close Scope Q_scope.
Open Scope list_scope.
Open Scope string_scope.

Set Implicit Arguments.

(* ================================================================= *)
(** * JavaScript containers and string primitives *)

Module Js.

(** ** [Map<string, V>] : association list in insertion order *)
Section MapOps.
Variable V : Type.

Definition Map := list (string * V).

Fixpoint has (k : string) (m : Map) : bool :=
  match m with
  | [] => false
  | (k', _) :: m' => if String.eqb k k' then true else has k m'
  end.

Fixpoint get (k : string) (m : Map) : option V :=
  match m with
  | [] => None
  | (k', v) :: m' => if String.eqb k k' then Some v else get k m'
  end.

(** [map.set(k, v)]: overwrite in place, or append a new key. *)
Fixpoint set (k : string) (v : V) (m : Map) : Map :=
  match m with
  | [] => [(k, v)]
  | (k', v') :: m' =>
      if String.eqb k k' then (k', v) :: m' else (k', v') :: set k v m'
  end.

(** [mutate k f m]: a method call that mutates the object stored under
    [k] (as in [map.get(k).states.add(s)]); the map itself is not
    re-keyed or re-ordered. *)
Fixpoint mutate (k : string) (f : V -> V) (m : Map) : Map :=
  match m with
  | [] => []
  | (k', v) :: m' =>
      if String.eqb k k' then (k', f v) :: m' else (k', v) :: mutate k f m'
  end.

(** [Array.from(map.values())] *)
Definition values (m : Map) : list V := List.map snd m.
End MapOps.

(** [new Map(entries)]: entries are set in order, so a later entry with
    an equal key replaces the value of an earlier one. *)
Definition ofEntries (V : Type) (es : list (string * V)) : Map V :=
  fold_left (fun m e => set (fst e) (snd e) m) es [].

(** ** String primitives *)

(** [s.startsWith(p)] *)
Definition startsWith (p s : string) : bool := String.prefix p s.

(** [s.endsWith(x)] *)
Definition endsWith (x s : string) : bool :=
  let n := String.length s in
  let m := String.length x in
  if Nat.leb m n then String.eqb (String.substring (n - m) m s) x else false.

(** [s.includes(x)] *)
Fixpoint includes (x s : string) : bool :=
  if String.prefix x s then true
  else match s with
       | EmptyString => false
       | String _ s' => includes x s'
       end.

(** [s.split(sep)] for a one-character separator. *)
Fixpoint splitAux (sep : ascii) (cur : string) (s : string) : list string :=
  match s with
  | EmptyString => [cur]
  | String c s' =>
      if Ascii.eqb c sep then cur :: splitAux sep EmptyString s'
      else splitAux sep (cur ++ String c EmptyString) s'
  end.

Definition split (sep : ascii) (s : string) : list string :=
  splitAux sep EmptyString s.

(** [parts.join(sep)] *)
Definition join (sep : string) (parts : list string) : string :=
  String.concat sep parts.

(** An [undefined] interpolated in a template literal. *)
Definition interp (o : option string) : string :=
  match o with Some s => s | None => "undefined" end.

(** [a || b] on strings: the empty string and [undefined] are falsy. *)
Definition orElse (o : option string) (dflt : string) : string :=
  match o with
  | Some EmptyString => dflt
  | Some s => s
  | None => dflt
  end.

(** ASCII part of [s.toLowerCase()]. *)
Definition lowerChar (c : ascii) : ascii :=
  let n := nat_of_ascii c in
  if andb (Nat.leb 65 n) (Nat.leb n 90) then ascii_of_nat (n + 32) else c.

Fixpoint toLowerCase (s : string) : string :=
  match s with
  | EmptyString => EmptyString
  | String c s' => String (lowerChar c) (toLowerCase s')
  end.

(** Decimal rendering of an integer, as in a template literal. *)
Definition showZ (z : Z) : string := NilZero.string_of_int (Z.to_int z).

(** [map.delete(k)] *)
Fixpoint delete (V : Type) (k : string) (m : Map V) : Map V :=
  match m with
  | [] => []
  | (k', v) :: m' => if String.eqb k k' then m' else (k', v) :: delete k m'
  end.

(** The ASCII part of the white space of [trim] and of [\s]: tab, line
    feed, vertical tab, form feed, carriage return and space. *)
Definition isSpace (c : ascii) : bool :=
  let n := nat_of_ascii c in
  (Nat.leb 9 n && Nat.leb n 13) || Nat.eqb n 32.

Fixpoint trimStart (s : string) : string :=
  match s with
  | EmptyString => EmptyString
  | String c s' => if isSpace c then trimStart s' else s
  end.

Fixpoint trimEnd (s : string) : string :=
  match s with
  | EmptyString => EmptyString
  | String c s' =>
      match trimEnd s' with
      | EmptyString => if isSpace c then EmptyString else String c EmptyString
      | t => String c t
      end
  end.

(** [s.trim()] *)
Definition trim (s : string) : string := trimEnd (trimStart s).

(** [s.indexOf(c)] for a one-character [c]; [None] is [-1]. *)
Fixpoint indexOf (c : ascii) (s : string) : option nat :=
  match s with
  | EmptyString => None
  | String c' s' => if Ascii.eqb c' c then Some 0 else option_map S (indexOf c s')
  end.

(** [s.lastIndexOf(c)] for a one-character [c]; [None] is [-1]. *)
Fixpoint lastIndexOf (c : ascii) (s : string) : option nat :=
  match s with
  | EmptyString => None
  | String c' s' =>
      match lastIndexOf c s' with
      | Some i => Some (S i)
      | None => if Ascii.eqb c' c then Some 0 else None
      end
  end.

(** [s.substring(a, b)]: the arguments are swapped when [a > b] and
    clamped to the length. *)
Definition substring (a b : nat) (s : string) : string :=
  String.substring (Nat.min a b) (Nat.max a b - Nat.min a b) s.

(** [s.replace(/\s+/g, '-')]: every maximal run of white space becomes
    one dash; [inRun] tells that the previous character was white space. *)
Fixpoint dashRuns (inRun : bool) (s : string) : string :=
  match s with
  | EmptyString => EmptyString
  | String c s' =>
      if isSpace c then
        if inRun then dashRuns true s' else String "-" (dashRuns true s')
      else String c (dashRuns false s')
  end.

End Js.

(* ================================================================= *)
(** * Data model *)

(** The three phases in which an observation is taken: the string tags
    ['pre-consent'], ['post-rejection'] and ['post-acceptance']. *)
Inductive ConsentState : Type :=
| PreConsent
| PostRejection
| PostAcceptance.

Definition stateTag (s : ConsentState) : string :=
  match s with
  | PreConsent => "pre-consent"
  | PostRejection => "post-rejection"
  | PostAcceptance => "post-acceptance"
  end.

Definition ConsentState_eq_dec (a b : ConsentState) : {a = b} + {a <> b}.
Proof. decide equality. Defined.


(** [ComplianceStatus] and [CookieCategory] are string enums; a report
    field is typed [ComplianceStatus | string] because it carries what the
    classifier answered. *)
Module ComplianceStatus.
Definition UNKNOWN := "Unknown".
End ComplianceStatus.

Module CookieCategory.
Definition ANALYTICS := "Analytics".
Definition MARKETING := "Marketing".
Definition FUNCTIONAL := "Functional".
Definition UNKNOWN := "Unknown".
End CookieCategory.

Inductive CookieParty : Type := First | Third.

(** The fields of a puppeteer cookie the handlers read.  [expires] is a
    number of seconds since the epoch, possibly fractional. *)
Record Cookie : Type := mkCookie {
  name : string;
  domain : string;
  path : string;
  expires : Q;
  session : bool;
  httpOnly : bool;
  secure : bool
}.

Record NetworkRequest : Type := mkRequest {
  url : string;
  hostname : string
}.

Record LocalStorageItem : Type := mkStorage {
  origin : string;
  key : string;
  value : string;
  pageUrl : string
}.

(** [`${name}|${domain}|${path}`] *)
Definition cookieKey (c : Cookie) : string :=
  name c ++ "|" ++ domain c ++ "|" ++ path c.

(** [`${item.origin}|${item.key}`] *)
Definition storageKey (s : LocalStorageItem) : string :=
  origin s ++ "|" ++ key s.

(* ================================================================= *)
(** * Exceptions and mutable state *)

(** The result of running a piece of code that may throw. *)
Inductive Outcome (A : Type) : Type :=
| Returned (a : A)
| Threw (msg : string).

Arguments Threw {A} msg.

(** A computation over a mutable store [S] that may throw.  The store is
    returned on both outcomes: what was mutated before a [throw] stays
    mutated inside the [catch] block. *)
Definition Eff (S A : Type) : Type := S -> Outcome A * S.

Module Eff.
Section Ops.
Variable S : Type.

Definition ret (A : Type) (a : A) : Eff S A := fun s => (Returned a, s).

Definition bind (A B : Type) (c : Eff S A) (k : A -> Eff S B) : Eff S B :=
  fun s =>
    match c s with
    | (Returned a, s') => k a s'
    | (Threw e, s') => (Threw e, s')
    end.

(** [await] of a call whose result the environment decides. *)
Definition await (A : Type) (o : Outcome A) : Eff S A := fun s => (o, s).

Definition modify (f : S -> S) : Eff S unit := fun s => (Returned tt, f s).

Definition read : Eff S S := fun s => (Returned s, s).

(** [try { c } catch (e) { h e }] *)
Definition tryCatch (A : Type) (c : Eff S A) (h : string -> Eff S A) : Eff S A :=
  fun s =>
    match c s with
    | (Returned a, s') => (Returned a, s')
    | (Threw e, s') => h e s'
    end.

(** [try { c } finally { f }]: [f] runs on both outcomes, and an
    exception of [f] replaces the outcome of [c]. *)
Definition tryFinally (A : Type) (c : Eff S A) (f : Eff S unit) : Eff S A :=
  fun s =>
    match c s with
    | (r, s') =>
        match f s' with
        | (Returned _, s'') => (r, s'')
        | (Threw e, s'') => (Threw e, s'')
        end
    end.

(** [promise.catch(() => dflt)] *)
Definition orDefault (A : Type) (o : Outcome A) (dflt : A) : A :=
  match o with Returned a => a | Threw _ => dflt end.
End Ops.

Arguments read {S}.
End Eff.

Notation "x <- c ;; k" := (Eff.bind c (fun x => k))
  (at level 61, c at next level, right associativity).
Notation "c ;;; k" := (Eff.bind c (fun _ => k))
  (at level 61, right associativity).

(* ================================================================= *)
(** * Presentation helpers shared by all variants *)

(** [new Date(x).getTime()]: the time value of a date is an integral
    number of milliseconds, the fraction of [x] being dropped. *)
Definition timeValue (ms : Q) : Z := Z.quot (Qnum ms) (Zpos (Qden ms)).

Definition Qltb (a b : Q) : bool := negb (Qle_bool b a).

(** [Math.round(x)] is [floor (x + 1/2)]. *)
Definition mathRound (x : Q) : Z := Qfloor (x + (1 # 2))%Q.

(** A number that has at most one decimal, given in tenths, rendered as
    JavaScript prints it: [15] is ["1.5"] and [20] is ["2"]. *)
Definition showTenths (t : Z) : string :=
  if Z.eqb (t mod 10) 0 then Js.showZ (t / 10)
  else Js.showZ (t / 10) ++ "." ++ Js.showZ (t mod 10).

(** [getHumanReadableExpiry], the same text in every variant.  [nowMs] is
    what [new Date()] reads during the call.  Numbers are exact rationals:
    the rounding of double-precision arithmetic is not modelled, and the
    time value is taken to lie in the range of [Date]. *)
Definition diffSeconds (nowMs : Z) (c : Cookie) : Q :=
  (inject_Z (timeValue (expires c * 1000)%Q - nowMs) / 1000)%Q.

Definition getHumanReadableExpiry (nowMs : Z) (c : Cookie) : string :=
  if session c || Qeq_bool (expires c) (-1 # 1) then "Session" else
  let diff := diffSeconds nowMs c in
  if Qltb diff 0 then "Expired" else
  if Qltb diff 3600 then Js.showZ (mathRound (diff / 60)%Q) ++ " minutes" else
  if Qltb diff 86400 then Js.showZ (mathRound (diff / 3600)%Q) ++ " hours" else
  if Qltb diff (86400 * 30) then Js.showZ (mathRound (diff / 86400)%Q) ++ " days" else
  if Qltb diff (86400 * 365) then
    Js.showZ (mathRound (diff / (86400 * 30))%Q) ++ " months" else
  (* parseFloat(x.toFixed(1)): the nearest multiple of 1/10, a tie going up *)
  let tenths := mathRound ((diff / (86400 * 365)) * 10)%Q in
  showTenths tenths ++ " year" ++ (if Z.ltb 10 tenths then "s" else EmptyString).

(** [hostname.replace(/^www\./, '')] *)
Definition stripWww (host : string) : string :=
  if Js.startsWith "www." host
  then String.substring 4 (String.length host - 4) host
  else host.

(** The party expression of the report assemblers:
    [domain = c.domain.startsWith('.') ? c.domain : `.${c.domain}`],
    [rootDomain = `.${scannedUrlHostname.replace(/^www\./, '')}`],
    [domain.endsWith(rootDomain) ? 'First' : 'Third']. *)
Definition cookieParty (scannedUrlHostname : string) (c : Cookie) : CookieParty :=
  let dom := if Js.startsWith "." (domain c) then domain c else "." ++ domain c in
  let rootDomain := "." ++ stripWww scannedUrlHostname in
  if Js.endsWith rootDomain dom then First else Third.

Definition exampleCookie (nm dom : string) (exp : Q) (sess : bool) : Cookie :=
  {| name := nm; domain := dom; path := "/"; expires := exp; session := sess;
     httpOnly := false; secure := false |}.

(* ================================================================= *)
(** * Array helpers shared by the handlers *)

(** [for (let i = 0; i < items.length; i += size)
      batches.push(items.slice(i, i + size))]; at most [fuel] slices. *)
Fixpoint slices (A : Type) (size fuel : nat) (items : list A) : list (list A) :=
  match fuel with
  | O => []
  | S fuel' =>
      match items with
      | [] => []
      | _ :: _ => firstn size items :: slices size fuel' (skipn size items)
      end
  end.

Definition batchesOf (A : Type) (size : nat) (items : list A) : list (list A) :=
  slices size (List.length items) items.

(** [items.map((x, i) => f(i, x))], counting from [i]. *)
Fixpoint mapi (A B : Type) (f : nat -> A -> B) (i : nat) (l : list A) : list B :=
  match l with
  | [] => []
  | x :: l' => f i x :: mapi f (S i) l'
  end.

(** [Math.max(1, Math.min(10, scanDepth || 1))], the same expression in
    servers 1 and 2.  [scanDepth] is the number of the request body, [None]
    when the field is absent; [0] is falsy. *)
Definition maxPagesToScan (scanDepth : option Q) : Q :=
  let depth := match scanDepth with
               | Some d => if Qeq_bool d 0 then 1%Q else d
               | None => 1%Q
               end in
  let least := if Qle_bool 10 depth then 10%Q else depth in
  if Qle_bool least 1 then 1%Q else least.

(** The number of pages the guard [visitedUrls.size < MAX_PAGES_TO_SCAN]
    lets the loop visit: a size is an integer, so the guard compares it
    with the bound rounded up. *)
Definition pageBudget (scanDepth : option Q) : nat :=
  Z.to_nat (Qceiling (maxPagesToScan scanDepth)).

(* ================================================================= *)
(** * Consent Action Driver, the same text in servers 1 and 2 *)

Module Consent.

(** What the page script reads of an element matched by the selectors:
    [textContent], [getAttribute('aria-label')] ([null] when absent) and
    [value] ([undefined] on an element that has none). *)
Record Element : Type := mkElement {
  textContent : string;
  ariaLabel : option string;
  inputValue : option string
}.

(** [(el.textContent || el.getAttribute('aria-label') || el.value || '')
      .trim().toLowerCase()] *)
Definition elText (el : Element) : string :=
  Js.toLowerCase
    (Js.trim
       (Js.orElse (Some (textContent el))
          (Js.orElse (ariaLabel el) (Js.orElse (inputValue el) EmptyString)))).

(** A frame of the page.  [evaluate t] is what the script run for the
    keyword [t] finds with [document.querySelectorAll(selectors)], or the
    error with which [frame.evaluate] rejects before the script has run;
    [afterClick el] is how the call ends once the script has clicked
    [el]: a click may destroy the execution context, and [frame.evaluate]
    then rejects although the click has happened. *)
Record Frame : Type := mkFrame {
  frameId : nat;
  isDetached : bool;
  evaluate : string -> Outcome (list Element);
  afterClick : Element -> Outcome unit
}.

(** Ghost: a click that happened, in which frame, on which element and
    for which keyword. *)
Record Click : Type := mkClick {
  inFrame : nat;
  onElement : Element;
  forKeyword : string
}.

Record Page : Type := mkPage {
  mainFrame : Frame;
  frames : list Frame
}.

Inductive Action : Type := accept | reject.

(** [elText.includes(t)] *)
Definition matches (t : string) (el : Element) : bool := Js.includes t (elText el).

(** The body of the [try] for one keyword; the [catch] only logs. *)
Definition tryKeyword (frame : Frame) (t : string) : Eff (list Click) bool :=
  Eff.tryCatch
    (elements <- Eff.await (evaluate frame t) ;;
     match List.find (matches t) elements with
     | Some target =>
         Eff.modify (fun clicks =>
           (clicks ++ [{| inFrame := frameId frame; onElement := target;
                          forKeyword := t |}])%list) ;;;
         Eff.await (afterClick frame target) ;;;
         Eff.ret true
     | None => Eff.ret false
     end)
    (fun _ => Eff.ret false).

Fixpoint findAndClickButton (frame : Frame) (keywords : list string)
    : Eff (list Click) bool :=
  match keywords with
  | [] => Eff.ret false
  | t :: rest =>
      clicked <- tryKeyword frame t ;;
      if clicked then Eff.ret true else findAndClickButton frame rest
  end.

Definition acceptKeywords : list string :=
  [ "accept all"; "allow all"; "agree to all"; "accept cookies"; "agree";
    "accept"; "allow"; "i agree"; "ok"; "got it"; "continue" ].

Definition rejectKeywords : list string :=
  [ "reject all"; "deny all"; "decline all"; "reject cookies"; "disagree";
    "reject"; "deny"; "decline"; "necessary only" ].

Definition keywordsOf (action : Action) : list string :=
  match action with accept => acceptKeywords | reject => rejectKeywords end.

(** [for (const frame of page.frames())
      if (!frame.isDetached() && frame !== page.mainFrame()
          && await findAndClickButton(frame, keywords)) return true;] *)
Fixpoint otherFrames (main : Frame) (keywords : list string) (fs : list Frame)
    : Eff (list Click) bool :=
  match fs with
  | [] => Eff.ret false
  | frame :: rest =>
      if negb (isDetached frame) && negb (Nat.eqb (frameId frame) (frameId main))
      then
        clicked <- findAndClickButton frame keywords ;;
        if clicked then Eff.ret true else otherFrames main keywords rest
      else otherFrames main keywords rest
  end.

Definition handleConsent (page : Page) (action : Action) : Eff (list Click) bool :=
  let keywords := keywordsOf action in
  clicked <- findAndClickButton (mainFrame page) keywords ;;
  if clicked then Eff.ret true
  else otherFrames (mainFrame page) keywords (frames page).

End Consent.

(* ================================================================= *)
(** * Server 1: known-tracker list, FIFO frontier, batch containment *)

Module Server1.

Definition knownTrackerDomains : list string :=
  [ "google-analytics.com"; "googletagmanager.com"; "analytics.google.com";
    "doubleclick.net"; "googleadservices.com"; "googlesyndication.com";
    "connect.facebook.net"; "facebook.com/tr"; "c.clarity.ms"; "clarity.ms";
    "hotjar.com"; "hotjar.io"; "hjid.hotjar.com"; "hubspot.com";
    "hs-analytics.net"; "track.hubspot.com"; "linkedin.com/px";
    "ads.linkedin.com"; "twitter.com/i/ads"; "ads-twitter.com"; "bing.com/ads";
    "semrush.com"; "optimizely.com"; "vwo.com"; "crazyegg.com"; "taboola.com";
    "outbrain.com"; "criteo.com"; "addthis.com"; "sharethis.com"; "tiqcdn.com" ].

(** ** Page Observation Collector *)

Record Collected : Type := mkCollected {
  cookies : list Cookie;
  trackers : set string
}.

(** What the page does during one call of [collectPageData]: the URLs of
    the requests it issues while the listener is attached, and the
    outcome of each awaited browser call. *)
Record ReloadScript : Type := mkReload {
  duringReload : list string;
  reloadResult : Outcome unit;
  duringSettle : list string;
  cookiesResult : Outcome (list Cookie);
  cookiesRetry : Outcome (list Cookie)
}.

(** The [request] listener: [trackers] is the store it mutates. *)
Definition requestListener (trackers : set string) (reqUrl : string) : set string :=
  match List.find (fun d => Js.includes d reqUrl) knownTrackerDomains with
  | Some trackerDomain => set_add string_dec (trackerDomain ++ "|" ++ reqUrl) trackers
  | None => trackers
  end.

(** Requests that fire while an [await] is pending. *)
Definition fire (reqs : list string) : Eff (set string) unit :=
  Eff.modify (fun trackers => fold_left requestListener reqs trackers).

Definition collectPageData (pg : ReloadScript) : Eff (set string) Collected :=
  Eff.tryCatch
    (fire (duringReload pg) ;;;
     Eff.await (reloadResult pg) ;;;
     fire (duringSettle pg) ;;;
     cs <- Eff.await (cookiesResult pg) ;;
     tr <- Eff.read ;;
     Eff.ret {| cookies := cs; trackers := tr |})
    (fun _ =>
       (* Return partial data instead of failing completely *)
       tr <- Eff.read ;;
       Eff.ret {| cookies := Eff.orDefault (cookiesRetry pg) []; trackers := tr |}).

(** One call: [trackers] starts as [new Set()]. *)
Definition runCollect (pg : ReloadScript) : Outcome Collected :=
  fst (collectPageData pg []).

(** ** Cross-visit aggregation *)

(** The object stored per key: [{ states: new Set(), data: item }]. *)
Record Entry (A : Type) : Type := mkEntry {
  states : set ConsentState;
  data : A
}.

Definition addState (A : Type) (st : ConsentState) (e : Entry A) : Entry A :=
  {| states := set_add ConsentState_eq_dec st (states e); data := data e |}.

(** [`${item.split('|')[0]}|${item.split('|')[1]}`] *)
Definition trackerKey (item : string) : string :=
  Js.interp (nth_error (Js.split "|" item) 0) ++ "|" ++
  Js.interp (nth_error (Js.split "|" item) 1).

(** [processItems(map, items, state, isCookie)].  The flag [isCookie]
    only selects the key expression; every call site passes it together
    with items of the matching kind, so the embedding takes the selected
    expression [keyOf] ([cookieKey] or [trackerKey]). *)
Definition processItems (A : Type) (keyOf : A -> string)
    (map : Js.Map (Entry A)) (items : list A) (state : ConsentState)
    : Js.Map (Entry A) :=
  fold_left
    (fun map item =>
       let k := keyOf item in
       let map := if Js.has k map then map
                  else Js.set k {| states := []; data := item |} map in
       Js.mutate k (addState state) map)
    items map.

(** ** Consent-state crawl *)

Record Crawl : Type := mkCrawl {
  urlsToVisit : list string;
  visitedUrls : set string;
  allCookieMap : Js.Map (Entry Cookie);
  allTrackerMap : Js.Map (Entry string);
  screenshotBase64 : string;
  consentBannerFound : bool;
  (** Ghost: the argument of every [page.goto] so far, oldest first, with
      whether the navigation resolved. *)
  gotoLog : list (string * bool)
}.

(** What the browser does for one [page.goto] and the calls that follow
    on that page. *)
Record PageRun : Type := mkRun {
  gotoResult : Outcome unit;
  screenshotResult : Outcome string;
  preConsent : ReloadScript;
  rejectClicked : bool;
  postReject : ReloadScript;
  secondReload : Outcome unit;
  acceptClicked : bool;
  postAccept : ReloadScript;
  subsequent : ReloadScript;
  linksResult : Outcome (list string)
}.

Definition observe (pg : ReloadScript) (state : ConsentState) : Eff Crawl unit :=
  d <- Eff.await (runCollect pg) ;;
  Eff.modify (fun s =>
    {| urlsToVisit := urlsToVisit s; visitedUrls := visitedUrls s;
       allCookieMap := processItems cookieKey (allCookieMap s) (cookies d) state;
       allTrackerMap := processItems trackerKey (allTrackerMap s) (trackers d) state;
       screenshotBase64 := screenshotBase64 s;
       consentBannerFound := consentBannerFound s;
       gotoLog := gotoLog s |}).

Definition setVisited (u : string) (s : Crawl) : Crawl :=
  {| urlsToVisit := urlsToVisit s;
     visitedUrls := set_add string_dec u (visitedUrls s);
     allCookieMap := allCookieMap s; allTrackerMap := allTrackerMap s;
     screenshotBase64 := screenshotBase64 s;
     consentBannerFound := consentBannerFound s; gotoLog := gotoLog s |}.

Definition setScreenshot (shot : string) (s : Crawl) : Crawl :=
  {| urlsToVisit := urlsToVisit s; visitedUrls := visitedUrls s;
     allCookieMap := allCookieMap s; allTrackerMap := allTrackerMap s;
     screenshotBase64 := shot;
     consentBannerFound := consentBannerFound s; gotoLog := gotoLog s |}.

Definition setBanner (b : bool) (s : Crawl) : Crawl :=
  {| urlsToVisit := urlsToVisit s; visitedUrls := visitedUrls s;
     allCookieMap := allCookieMap s; allTrackerMap := allTrackerMap s;
     screenshotBase64 := screenshotBase64 s;
     consentBannerFound := b; gotoLog := gotoLog s |}.

Definition setQueue (q : list string) (s : Crawl) : Crawl :=
  {| urlsToVisit := q; visitedUrls := visitedUrls s;
     allCookieMap := allCookieMap s; allTrackerMap := allTrackerMap s;
     screenshotBase64 := screenshotBase64 s;
     consentBannerFound := consentBannerFound s; gotoLog := gotoLog s |}.

Definition logGoto (u : string) (ok : bool) (s : Crawl) : Crawl :=
  {| urlsToVisit := urlsToVisit s; visitedUrls := visitedUrls s;
     allCookieMap := allCookieMap s; allTrackerMap := allTrackerMap s;
     screenshotBase64 := screenshotBase64 s;
     consentBannerFound := consentBannerFound s;
     gotoLog := gotoLog s ++ [(u, ok)] |}.

(** [internalLinks.forEach(link => { if (!visitedUrls.has(link) &&
    !urlsToVisit.includes(link)) urlsToVisit.push(link); })] *)
Definition pushLinks (links : list string) (s : Crawl) : Crawl :=
  fold_left
    (fun s link =>
       if negb (set_mem string_dec link (visitedUrls s))
          && negb (existsb (String.eqb link) (urlsToVisit s))
       then setQueue (urlsToVisit s ++ [link]) s
       else s)
    links s.

Definition isOk (A : Type) (o : Outcome A) : bool :=
  match o with Returned _ => true | Threw _ => false end.

Section Loop.
(** [new URL(u).hostname], [None] when the constructor throws. *)
Variable hostnameOf : string -> option string.
(** The browser: what happens on the [n]-th [page.goto], to [u]. *)
Variable browse : nat -> string -> PageRun.
Variable MAX_PAGES_TO_SCAN : nat.
Variable rootHostname : string.

(** The body of the inner [try] of the loop, for [currentUrl]. *)
Definition visitPage (run : PageRun) (currentUrl : string) : Eff Crawl unit :=
  Eff.modify (logGoto currentUrl (isOk (gotoResult run))) ;;;
  Eff.await (gotoResult run) ;;;
  Eff.modify (setVisited currentUrl) ;;;
  s <- Eff.read ;;
  (if Nat.eqb (List.length (visitedUrls s)) 1 then
     shot <- Eff.await (screenshotResult run) ;;
     Eff.modify (setScreenshot shot) ;;;
     observe (preConsent run) PreConsent ;;;
     Eff.modify (setBanner (rejectClicked run)) ;;;
     observe (postReject run) PostRejection ;;;
     Eff.await (secondReload run) ;;;
     observe (postAccept run) PostAcceptance
   else
     observe (subsequent run) PostAcceptance) ;;;
  links <- Eff.await (linksResult run) ;;
  Eff.modify (pushLinks links).

(** One iteration of [while (visitedUrls.size < MAX_PAGES_TO_SCAN &&
    urlsToVisit.length > 0)]; [None] when the condition is false. *)
Definition step (s : Crawl) : option Crawl :=
  if Nat.ltb (List.length (visitedUrls s)) MAX_PAGES_TO_SCAN then
    match urlsToVisit s with
    | [] => None
    | currentUrl :: rest =>
        let s := setQueue rest s in
        if String.eqb currentUrl EmptyString
           || set_mem string_dec currentUrl (visitedUrls s)
        then Some s
        else
          match hostnameOf currentUrl with
          | None => Some s
          | Some h =>
              if negb (String.eqb h rootHostname) then Some s
              else
                let run := browse (List.length (gotoLog s)) currentUrl in
                Some (snd (Eff.tryCatch (visitPage run currentUrl)
                             (fun _ => Eff.ret tt) s))
          end
    end
  else None.

Fixpoint crawl (fuel : nat) (s : Crawl) : Crawl :=
  match fuel with
  | O => s
  | S fuel' => match step s with
               | None => s
               | Some s' => crawl fuel' s'
               end
  end.

Definition start (url_ : string) : Crawl :=
  {| urlsToVisit := [url_]; visitedUrls := [];
     allCookieMap := []; allTrackerMap := [];
     screenshotBase64 := EmptyString; consentBannerFound := false;
     gotoLog := [] |}.
End Loop.

(** ** Classification in bounded batches *)

Inductive ItemToAnalyze : Type :=
| CookieItem (e : Entry Cookie)
| TrackerItem (e : Entry string).

Definition allItemsToAnalyze (s : Crawl) : list ItemToAnalyze :=
  (List.map CookieItem (Js.values (allCookieMap s)) ++
   List.map TrackerItem (Js.values (allTrackerMap s)))%list.

Definition BATCH_SIZE : nat := 40.

(** An element of [itemsForBatchAnalysis]. *)
Record PromptItem : Type := mkPrompt {
  p_type : string;
  p_key : string;
  p_name : option string;
  p_provider : string;
  p_states : list string
}.

Definition promptItem (item : ItemToAnalyze) : PromptItem :=
  match item with
  | CookieItem e =>
      {| p_type := "cookie"; p_key := cookieKey (data e);
         p_name := Some (name (data e)); p_provider := domain (data e);
         p_states := List.map stateTag (states e) |}
  | TrackerItem e =>
      {| p_type := "tracker"; p_key := data e; p_name := None;
         p_provider := List.hd EmptyString (Js.split "|" (data e));
         p_states := List.map stateTag (states e) |}
  end.

(** An element of the array the classifier answers.  The schema asks
    for four strings; a field that is absent is [None]. *)
Record Analysis : Type := mkAnalysis {
  a_key : string;
  a_category : option string;
  a_purpose : option string;
  a_complianceStatus : option string
}.

Record ComplianceInfo : Type := mkInfo {
  riskLevel : string;
  assessment : string
}.

Record Compliance : Type := mkCompliance {
  gdpr : ComplianceInfo;
  ccpa : ComplianceInfo
}.

Record ViolationSummary : Type := mkSummary {
  preConsentViolations : nat;
  postRejectionViolations : nat;
  totalMarketing : nat;
  totalAnalytics : nat;
  totalItems : nat
}.

Record CookieInfo : Type := mkCookieInfo {
  ci_key : string;
  ci_name : string;
  ci_provider : string;
  ci_expiry : string;
  ci_party : CookieParty;
  ci_isHttpOnly : bool;
  ci_isSecure : bool;
  ci_complianceStatus : string;
  ci_category : string;
  ci_purpose : string
}.

Record TrackerInfo : Type := mkTrackerInfo {
  ti_key : string;
  ti_url : option string;
  ti_provider : string;
  ti_category : string;
  ti_complianceStatus : string
}.

Record ScanResultData : Type := mkResult {
  r_cookies : list CookieInfo;
  r_trackers : list TrackerInfo;
  r_screenshotBase64 : string;
  r_compliance : Compliance;
  r_consentBannerDetected : bool;
  r_pagesScannedCount : nat
}.

(** What the handler sends: [res.json(report)] or
    [res.status(code).json({ error })]. *)
Inductive Response : Type :=
| Json (report : ScanResultData)
| Failed (code : nat) (error : string).

Definition countIf (A : Type) (p : A -> bool) (l : list A) : nat :=
  List.length (List.filter p l).

Definition optEqb (o : option string) (s : string) : bool :=
  match o with Some x => String.eqb x s | None => false end.

(** The cleaning of the answer inside [analyzeBatch]: the text from the
    first ['['] to the last [']'] of the trimmed answer. *)
Definition jsonPart (resultText : string) : Outcome string :=
  let resultText := Js.trim resultText in
  match Js.indexOf "[" resultText, Js.lastIndexOf "]" resultText with
  | Some firstBracket, Some lastBracket =>
      if Nat.leb lastBracket firstBracket
      then Threw "No valid JSON array found in AI response"
      else Returned (Js.substring firstBracket (lastBracket + 1) resultText)
  | _, _ => Threw "No valid JSON array found in AI response"
  end.

Section Attempt.
(** [ai.models.generateContent(...)] and the [text] of its result,
    [None] when it is [undefined]; and [JSON.parse], [None] when the
    parsed value is not an array. *)
Variable generate : nat -> nat -> list PromptItem -> Outcome (option string).
Variable parse : string -> Outcome (option (list Analysis)).

(** The body of the [try] of one attempt. *)
Definition attemptOnce (batchNum attempt : nat) (items : list PromptItem)
    : Outcome (list Analysis) :=
  match generate batchNum attempt items with
  | Threw e => Threw e
  | Returned None | Returned (Some EmptyString) =>
      Threw ("Gemini API returned an empty response for analysis batch #"
             ++ Js.showZ (Z.of_nat batchNum + 1) ++ ".")
  | Returned (Some resultText) =>
      match jsonPart resultText with
      | Threw e => Threw e
      | Returned part =>
          match parse part with
          | Threw e => Threw e
          | Returned None => Threw "Response is not an array"
          | Returned (Some parsedResult) => Returned parsedResult
          end
      end
  end.
End Attempt.

Section Analysis.
(** One attempt at a batch: the request to the text-generation service,
    the extraction of the array between the first ['['] and the last
    [']'] and [JSON.parse]; [Threw] when any of these throws. *)
Variable classify : nat -> nat -> list PromptItem -> Outcome (list Analysis).
(** The final risk-assessment request and the parsing of its answer. *)
Variable assess : ViolationSummary -> Outcome Compliance.
(** [new Date()] as read while the [i]-th cookie of the report is built. *)
Variable now : nat -> Z.

(** The retry loop [for (attempt = 0; attempt <= maxRetries; attempt++)],
    with [remaining = maxRetries - attempt]. *)
Fixpoint attempts (items : list PromptItem) (batchNum remaining attempt : nat)
    : Outcome (list Analysis) :=
  match classify batchNum attempt items with
  | Returned r => Returned r
  | Threw e =>
      match remaining with
      | O => Threw e
      | S remaining' => attempts items batchNum remaining' (S attempt)
      end
  end.

Definition analyzeBatch (batch : list ItemToAnalyze) (batchNum : nat)
    : Outcome (list Analysis) :=
  attempts (List.map promptItem batch) batchNum 2 0.

(** The batch loop: a batch that still fails is logged and skipped,
    [continue]. *)
Fixpoint analyzeAll (index : nat) (batches : list (list ItemToAnalyze))
    (aggregatedAnalysis : list Analysis) : list Analysis :=
  match batches with
  | [] => aggregatedAnalysis
  | batch :: rest =>
      match analyzeBatch batch index with
      | Returned batchAnalysis =>
          analyzeAll (S index) rest (aggregatedAnalysis ++ batchAnalysis)%list
      | Threw _ => analyzeAll (S index) rest aggregatedAnalysis
      end
  end.

Definition fallbackCookie (i : nat) (c : Entry Cookie) : CookieInfo :=
  {| ci_key := cookieKey (data c);
     ci_name := name (data c);
     ci_provider := domain (data c);
     ci_expiry := getHumanReadableExpiry (now i) (data c);
     ci_party := if Js.startsWith "." (domain (data c)) then Third else First;
     ci_isHttpOnly := httpOnly (data c);
     ci_isSecure := secure (data c);
     ci_complianceStatus := "Unknown";
     ci_category := "Unknown";
     ci_purpose := "Analysis failed - manual review required" |}.

Definition fallbackTracker (t : Entry string) : TrackerInfo :=
  {| ti_key := data t;
     ti_url := nth_error (Js.split "|" (data t)) 1;
     ti_provider := List.hd EmptyString (Js.split "|" (data t));
     ti_category := "Unknown";
     ti_complianceStatus := "Unknown" |}.

Definition analysisMap (aggregatedAnalysis : list Analysis) : Js.Map Analysis :=
  Js.ofEntries (List.map (fun item => (a_key item, item)) aggregatedAnalysis).

Definition field (analyzed : option Analysis) (f : Analysis -> option string)
    : option string :=
  match analyzed with Some a => f a | None => None end.

Definition enrichedCookie (analysis : Js.Map Analysis)
    (scannedUrlHostname : string) (i : nat) (c : Entry Cookie) : CookieInfo :=
  let k := cookieKey (data c) in
  let analyzed := Js.get k analysis in
  {| ci_key := k;
     ci_name := name (data c);
     ci_provider := domain (data c);
     ci_expiry := getHumanReadableExpiry (now i) (data c);
     ci_party := cookieParty scannedUrlHostname (data c);
     ci_isHttpOnly := httpOnly (data c);
     ci_isSecure := secure (data c);
     ci_complianceStatus :=
       Js.orElse (field analyzed a_complianceStatus) ComplianceStatus.UNKNOWN;
     ci_category := Js.orElse (field analyzed a_category) CookieCategory.UNKNOWN;
     ci_purpose := Js.orElse (field analyzed a_purpose) "No purpose determined." |}.

Definition enrichedTracker (analysis : Js.Map Analysis) (t : Entry string)
    : TrackerInfo :=
  let analyzed := Js.get (data t) analysis in
  {| ti_key := data t;
     ti_url := nth_error (Js.split "|" (data t)) 1;
     ti_provider := List.hd EmptyString (Js.split "|" (data t));
     ti_category := Js.orElse (field analyzed a_category) CookieCategory.UNKNOWN;
     ti_complianceStatus :=
       Js.orElse (field analyzed a_complianceStatus) ComplianceStatus.UNKNOWN |}.

Definition finalEnrichedCookies (analysis : Js.Map Analysis)
    (scannedUrlHostname : string) (s : Crawl) : list CookieInfo :=
  mapi (enrichedCookie analysis scannedUrlHostname) 0 (Js.values (allCookieMap s)).

Definition finalEnrichedTrackers (analysis : Js.Map Analysis) (s : Crawl)
    : list TrackerInfo :=
  List.map (enrichedTracker analysis) (Js.values (allTrackerMap s)).

Definition violationSummary (aggregatedAnalysis : list Analysis) (total : nat)
    : ViolationSummary :=
  {| preConsentViolations :=
       countIf (fun a => optEqb (a_complianceStatus a) "Pre-Consent Violation")
               aggregatedAnalysis;
     postRejectionViolations :=
       countIf (fun a => optEqb (a_complianceStatus a) "Post-Rejection Violation")
               aggregatedAnalysis;
     totalMarketing :=
       countIf (fun a => optEqb (a_category a) CookieCategory.MARKETING)
               aggregatedAnalysis;
     totalAnalytics :=
       countIf (fun a => optEqb (a_category a) CookieCategory.ANALYTICS)
               aggregatedAnalysis;
     totalItems := total |}.

Definition lowInfo : ComplianceInfo :=
  {| riskLevel := "Low"; assessment := "No cookies or trackers were detected." |}.

Definition mediumInfo : ComplianceInfo :=
  {| riskLevel := "Medium";
     assessment := "AI analysis failed - manual privacy review recommended." |}.

(** The outer [catch] of the handler. *)
Definition scanFailed (url_ message : string) : Response :=
  if Js.includes "JSON" message then
    Failed 500 ("An AI analysis step failed due to invalid data format. "
                ++ "This can happen with complex sites. Please try again. Details: "
                ++ message)
  else Failed 500 ("Failed to scan " ++ url_ ++ ". " ++ message).

(** The handler from the end of the crawl loop on. *)
Definition report (url_ scannedUrlHostname : string) (s : Crawl) : Response :=
  let items := allItemsToAnalyze s in
  match items with
  | [] =>
      Json {| r_cookies := []; r_trackers := [];
              r_screenshotBase64 := screenshotBase64 s;
              r_compliance := {| gdpr := lowInfo; ccpa := lowInfo |};
              r_consentBannerDetected := consentBannerFound s;
              r_pagesScannedCount := List.length (visitedUrls s) |}
  | _ :: _ =>
      let batches := batchesOf BATCH_SIZE items in
      let aggregatedAnalysis := analyzeAll 0 batches [] in
      match aggregatedAnalysis with
      | [] =>
          (* All AI batches failed, providing basic analysis *)
          Json {| r_cookies := mapi fallbackCookie 0 (Js.values (allCookieMap s));
                  r_trackers := List.map fallbackTracker (Js.values (allTrackerMap s));
                  r_screenshotBase64 := screenshotBase64 s;
                  r_compliance := {| gdpr := mediumInfo; ccpa := mediumInfo |};
                  r_consentBannerDetected := consentBannerFound s;
                  r_pagesScannedCount := List.length (visitedUrls s) |}
      | _ :: _ =>
          match assess (violationSummary aggregatedAnalysis (List.length items)) with
          | Threw message => scanFailed url_ message
          | Returned complianceAnalysis =>
              let analysis := analysisMap aggregatedAnalysis in
              Json {| r_cookies := finalEnrichedCookies analysis scannedUrlHostname s;
                      r_trackers := finalEnrichedTrackers analysis s;
                      r_screenshotBase64 := screenshotBase64 s;
                      r_compliance := complianceAnalysis;
                      r_consentBannerDetected := consentBannerFound s;
                      r_pagesScannedCount := List.length (visitedUrls s) |}
          end
      end
  end.
End Analysis.

(** ** The handler of [POST /api/scan] *)

(** Ghost: what happened to the browser process. *)
Inductive BrowserEvent : Type := Launched | Closed.

Definition isLaunched (e : BrowserEvent) : bool :=
  match e with Launched => true | Closed => false end.

Section Handler.
Variable hostnameOf : string -> option string.
Variable browse : nat -> string -> PageRun.
Variable classify : nat -> nat -> list PromptItem -> Outcome (list Analysis).
Variable assess : ViolationSummary -> Outcome Compliance.
Variable now : nat -> Z.
(** [puppeteer.launch(...)], and the three calls [newPage], [setUserAgent]
    and [setViewport] that follow it. *)
Variable launchResult : Outcome unit.
Variable pageResult : Outcome unit.
(** The message of the [TypeError] of [new URL(url)]. *)
Variable invalidUrl : string.

(** The [try] block.  The loop runs for at most [fuel] iterations. *)
Definition scanBody (fuel : nat) (url_ : string) (scanDepth : option Q)
    : Eff (list BrowserEvent) Response :=
  Eff.await launchResult ;;;
  Eff.modify (fun events => (events ++ [Launched])%list) ;;;
  Eff.await pageResult ;;;
  rootHostname <- Eff.await (match hostnameOf url_ with
                             | Some h => Returned h
                             | None => Threw invalidUrl
                             end) ;;
  Eff.ret (report classify assess now url_ rootHostname
             (crawl hostnameOf browse (pageBudget scanDepth) rootHostname fuel
                    (start url_))).

(** [finally { if (browser) await browser.close(); }] *)
Definition closeBrowser : Eff (list BrowserEvent) unit :=
  events <- Eff.read ;;
  if existsb isLaunched events
  then Eff.modify (fun events => (events ++ [Closed])%list)
  else Eff.ret tt.

Definition scan (fuel : nat) (url_ : option string) (scanDepth : option Q)
    : Eff (list BrowserEvent) Response :=
  match url_ with
  | None | Some EmptyString => Eff.ret (Failed 400 "URL is required")
  | Some u =>
      Eff.tryFinally
        (Eff.tryCatch (scanBody fuel u scanDepth)
                      (fun message => Eff.ret (scanFailed u message)))
        closeBrowser
  end.
End Handler.

End Server1.

(* ================================================================= *)
(** * The template library of server 1 *)

Module Templates.

Record ContractTemplate : Type := mkTemplate {
  id : string;
  name : string;
  content : string
}.

(** What a handler sends: [res.json(list)], [res.status(201).json(t)],
    [res.status(204).send()] or [res.status(code).json({ error })]. *)
Inductive Reply : Type :=
| Listed (templates : list ContractTemplate)
| Created (template : ContractTemplate)
| Deleted
| Failed (code : nat) (error : string).

(** [GET /api/templates] *)
Definition getTemplates (templateLibrary : Js.Map ContractTemplate) : Reply :=
  Listed (Js.values templateLibrary).

(** [POST /api/templates]; [dateNow] is what [Date.now()] reads.  A field
    that is absent from the body is [None]. *)
Definition postTemplate (dateNow : Z) (name_ content_ : option string)
    (templateLibrary : Js.Map ContractTemplate)
    : Reply * Js.Map ContractTemplate :=
  match name_, content_ with
  | Some (String a n), Some (String b c) =>
      let id_ := Js.showZ dateNow ++ "-" ++ Js.dashRuns false (String a n) in
      let newTemplate := {| id := id_; name := String a n; content := String b c |} in
      (Created newTemplate, Js.set id_ newTemplate templateLibrary)
  | _, _ => (Failed 400 "Template name and content are required.", templateLibrary)
  end.

(** [DELETE /api/templates/:id] *)
Definition deleteTemplate (id_ : string) (templateLibrary : Js.Map ContractTemplate)
    : Reply * Js.Map ContractTemplate :=
  if Js.has id_ templateLibrary then (Deleted, Js.delete id_ templateLibrary)
  else (Failed 404 ("Template with id " ++ id_ ++ " not found."), templateLibrary).

Inductive Request : Type :=
| GetTemplates
| PostTemplate (dateNow : Z) (name_ content_ : option string)
| DeleteTemplate (id_ : string).

Definition handle (r : Request) (templateLibrary : Js.Map ContractTemplate)
    : Reply * Js.Map ContractTemplate :=
  match r with
  | GetTemplates => (getTemplates templateLibrary, templateLibrary)
  | PostTemplate dateNow name_ content_ =>
      postTemplate dateNow name_ content_ templateLibrary
  | DeleteTemplate id_ => deleteTemplate id_ templateLibrary
  end.

(** The library after a sequence of requests, handled one after the other. *)
Definition serve (rs : list Request) (templateLibrary : Js.Map ContractTemplate)
    : Js.Map ContractTemplate :=
  fold_left (fun lib r => snd (handle r lib)) rs templateLibrary.

End Templates.

(* ================================================================= *)
(** * Server 2: prioritised frontier, storage items, pages found *)

Module Server2.

Definition knownTrackerDomains : list string :=
  [ "google-analytics.com"; "analytics.google.com"; "googletagmanager.com";
    "matomo.org"; "piwik.pro"; "matomo.cloud"; "c.clarity.ms"; "clarity.ms";
    "hotjar.com"; "hotjar.io"; "hjid.hotjar.com"; "static.hotjar.com";
    "hubspot.com"; "hs-analytics.net"; "track.hubspot.com";
    "js.hs-analytics.net"; "mixpanel.com"; "api.mixpanel.com"; "segment.com";
    "api.segment.io"; "cdn.segment.com"; "amplitude.com"; "api.amplitude.com";
    "fullstory.com"; "rs.fullstory.com"; "logrocket.com"; "cdn.logrocket.com";
    "vwo.com"; "dev.visualwebsiteoptimizer.com"; "optimizely.com";
    "log.optimizely.com"; "crazyegg.com"; "script.crazyegg.com"; "semrush.com";
    "mouseflow.com"; "heap.io"; "heapanalytics.com"; "pendo.io"; "cdn.pendo.io";
    "doubleclick.net"; "googleadservices.com"; "googlesyndication.com";
    "ad.doubleclick.net"; "connect.facebook.net"; "facebook.com/tr";
    "facebook.net"; "linkedin.com/px"; "ads.linkedin.com"; "px.ads.linkedin.com";
    "twitter.com/i/ads"; "ads-twitter.com"; "t.co"; "bing.com/ads";
    "bat.bing.com"; "pinterest.com/ads"; "ct.pinterest.com"; "snap.com/tr";
    "sc-static.net"; "tiktok.com/pixel"; "analytics.tiktok.com"; "ads.yahoo.com";
    "analytics.yahoo.com"; "yandex.ru/metrika"; "mc.yandex.ru"; "adroll.com";
    "s.adroll.com"; "criteo.com"; "static.criteo.net"; "taboola.com";
    "trc.taboola.com"; "outbrain.com"; "widgets.outbrain.com"; "quantserve.com";
    "edge.quantserve.com"; "scorecardresearch.com"; "b.scorecardresearch.com";
    "adform.net"; "track.adform.net"; "appnexus.com"; "ib.adnxs.com";
    "rubiconproject.com"; "fastlane.rubiconproject.com"; "intercom.io";
    "widget.intercom.io"; "drift.com"; "js.driftt.com"; "addthis.com";
    "s7.addthis.com"; "sharethis.com"; "w.sharethis.com"; "tiqcdn.com" ].

(** ** Page Observation Collector *)

Record GoogleConsentV2Status : Type := mkGcm {
  detected : bool;
  status : string
}.

Record Collected : Type := mkCollected {
  cookies : list Cookie;
  networkRequests : list NetworkRequest;
  localStorageItems : list LocalStorageItem;
  googleConsentV2 : GoogleConsentV2Status
}.

(** The parts of [new URL(x)] the listener reads. *)
Record ParsedUrl : Type := mkUrl {
  u_hostname : string;
  u_protocol : string
}.

(** What the page does during one call of [collectPageData]. *)
Record ReloadScript : Type := mkReload {
  createSession : Outcome unit;
  enableNetwork : Outcome unit;
  duringReload : list string;
  reloadResult : Outcome unit;
  duringSettle : list string;
  cdpCookies : Outcome (list Cookie);
  pageCookies : Outcome (list Cookie);
  detachResult : Outcome unit;
  evaluateResult : Outcome (list LocalStorageItem * GoogleConsentV2Status)
}.

Section Collector.
(** [new URL(x)], [None] when the constructor throws. *)
Variable parseUrl : string -> option ParsedUrl.

(** The [request] listener: [networkRequests] is the array it pushes to. *)
Definition requestListener (rootHostname : string)
    (reqs : list NetworkRequest) (reqUrl : string) : list NetworkRequest :=
  match parseUrl reqUrl with
  | Some u =>
      if negb (String.eqb (u_hostname u) rootHostname)
         && (String.eqb (u_protocol u) "http:" || String.eqb (u_protocol u) "https:")
      then (reqs ++ [{| url := reqUrl; hostname := u_hostname u |}])%list
      else reqs
  | None => reqs
  end.

Definition fire (rootHostname : string) (reqs : list string)
    : Eff (list NetworkRequest) unit :=
  Eff.modify (fun captured => fold_left (requestListener rootHostname) reqs captured).

Definition collectPageData (pg : ReloadScript) (rootHostname : string)
    : Eff (list NetworkRequest) Collected :=
  (* cdpSession is assigned as soon as createCDPSession resolves; an
     exception of the first try block is only logged *)
  let cdpSession := match createSession pg with
                    | Returned _ => true
                    | Threw _ => false
                    end in
  Eff.tryCatch
    (fire rootHostname (duringReload pg) ;;;
     Eff.await (reloadResult pg) ;;;
     fire rootHostname (duringSettle pg) ;;;
     cs <- (if cdpSession then
              Eff.tryFinally
                (Eff.tryCatch (Eff.await (cdpCookies pg))
                   (fun _ => Eff.ret (Eff.orDefault (pageCookies pg) [])))
                (Eff.await (detachResult pg))
            else Eff.ret (Eff.orDefault (pageCookies pg) [])) ;;
     ev <- Eff.await (evaluateResult pg) ;;
     reqs <- Eff.read ;;
     Eff.ret {| cookies := cs; networkRequests := reqs;
                localStorageItems := fst ev; googleConsentV2 := snd ev |})
    (fun _ =>
       Eff.ret {| cookies := []; networkRequests := []; localStorageItems := [];
                  googleConsentV2 := {| detected := false; status := "Error" |} |}).

(** One call: [networkRequests] starts as [[]]. *)
Definition runCollect (pg : ReloadScript) (rootHostname : string)
    : Outcome Collected :=
  fst (collectPageData pg rootHostname []).

(** The requests the listener has captured when the call ends. *)
Definition captured (pg : ReloadScript) (rootHostname : string)
    : list NetworkRequest :=
  snd (collectPageData pg rootHostname []).
End Collector.

(** ** Cross-visit aggregation *)

(** [{ states: new Set(), data: item, pageUrls: new Set() }] *)
Record Entry (A : Type) : Type := mkEntry {
  states : set ConsentState;
  data : A;
  pageUrls : set string
}.

Definition addState (A : Type) (st : ConsentState) (e : Entry A) : Entry A :=
  {| states := set_add ConsentState_eq_dec st (states e);
     data := data e; pageUrls := pageUrls e |}.

Definition addPage (A : Type) (pg : string) (e : Entry A) : Entry A :=
  {| states := states e; data := data e;
     pageUrls := set_add string_dec pg (pageUrls e) |}.

(** [processItems(map, items, state, isCookie, pageUrl)].  The flag
    [isCookie] only selects the key expression, [cookieKey] or [item.url];
    each call site passes it with items of the matching kind, so the
    embedding takes the selected expression [keyOf]. *)
Definition processItems (A : Type) (keyOf : A -> string)
    (map : Js.Map (Entry A)) (items : list A) (state : ConsentState)
    (pageUrl_ : string) : Js.Map (Entry A) :=
  fold_left
    (fun map item =>
       let k := keyOf item in
       let map := if Js.has k map then map
                  else Js.set k {| states := []; data := item; pageUrls := [] |} map in
       let map := Js.mutate k (addState state) map in
       Js.mutate k (addPage pageUrl_) map)
    items map.

(** [processLocalStorage(items, state, pageUrl)] has the body of
    [processItems] on [allLocalStorageMap], with the key
    [`${item.origin}|${item.key}`]. *)
Definition processLocalStorage (allLocalStorageMap : Js.Map (Entry LocalStorageItem))
    (items : list LocalStorageItem) (state : ConsentState) (pageUrl_ : string)
    : Js.Map (Entry LocalStorageItem) :=
  fold_left
    (fun map item =>
       let k := storageKey item in
       let map := if Js.has k map then map
                  else Js.set k {| states := []; data := item; pageUrls := [] |} map in
       let map := Js.mutate k (addState state) map in
       Js.mutate k (addPage pageUrl_) map)
    items allLocalStorageMap.

(** ** Consent-state crawl *)

Record QueueItem : Type := mkItem {
  q_url : string;
  priority : nat
}.

Record Link : Type := mkLink {
  href : string;
  text : string
}.

Record Crawl : Type := mkCrawl {
  urlsToVisit : list QueueItem;
  visitedUrls : set string;
  allCookieMap : Js.Map (Entry Cookie);
  allNetworkRequestMap : Js.Map (Entry NetworkRequest);
  allLocalStorageMap : Js.Map (Entry LocalStorageItem);
  screenshotBase64 : string;
  consentBannerFound : bool;
  googleConsentV2Status : GoogleConsentV2Status;
  (** Ghost: the argument of every [page.goto] so far, oldest first, with
      whether the navigation resolved. *)
  gotoLog : list (string * bool)
}.

Record PageRun : Type := mkRun {
  gotoResult : Outcome unit;
  screenshotResult : Outcome string;
  preConsent : ReloadScript;
  rejectClicked : bool;
  postReject : ReloadScript;
  secondReload : Outcome unit;
  acceptClicked : bool;
  postAccept : ReloadScript;
  subsequent : ReloadScript;
  linksResult : Outcome (list Link)
}.

Definition setQueue (q : list QueueItem) (s : Crawl) : Crawl :=
  {| urlsToVisit := q; visitedUrls := visitedUrls s;
     allCookieMap := allCookieMap s;
     allNetworkRequestMap := allNetworkRequestMap s;
     allLocalStorageMap := allLocalStorageMap s;
     screenshotBase64 := screenshotBase64 s;
     consentBannerFound := consentBannerFound s;
     googleConsentV2Status := googleConsentV2Status s; gotoLog := gotoLog s |}.

Definition setVisited (u : string) (s : Crawl) : Crawl :=
  {| urlsToVisit := urlsToVisit s;
     visitedUrls := set_add string_dec u (visitedUrls s);
     allCookieMap := allCookieMap s;
     allNetworkRequestMap := allNetworkRequestMap s;
     allLocalStorageMap := allLocalStorageMap s;
     screenshotBase64 := screenshotBase64 s;
     consentBannerFound := consentBannerFound s;
     googleConsentV2Status := googleConsentV2Status s; gotoLog := gotoLog s |}.

Definition setScreenshot (shot : string) (s : Crawl) : Crawl :=
  {| urlsToVisit := urlsToVisit s; visitedUrls := visitedUrls s;
     allCookieMap := allCookieMap s;
     allNetworkRequestMap := allNetworkRequestMap s;
     allLocalStorageMap := allLocalStorageMap s;
     screenshotBase64 := shot;
     consentBannerFound := consentBannerFound s;
     googleConsentV2Status := googleConsentV2Status s; gotoLog := gotoLog s |}.

Definition setBanner (b : bool) (s : Crawl) : Crawl :=
  {| urlsToVisit := urlsToVisit s; visitedUrls := visitedUrls s;
     allCookieMap := allCookieMap s;
     allNetworkRequestMap := allNetworkRequestMap s;
     allLocalStorageMap := allLocalStorageMap s;
     screenshotBase64 := screenshotBase64 s;
     consentBannerFound := b;
     googleConsentV2Status := googleConsentV2Status s; gotoLog := gotoLog s |}.

Definition setGcm (g : GoogleConsentV2Status) (s : Crawl) : Crawl :=
  {| urlsToVisit := urlsToVisit s; visitedUrls := visitedUrls s;
     allCookieMap := allCookieMap s;
     allNetworkRequestMap := allNetworkRequestMap s;
     allLocalStorageMap := allLocalStorageMap s;
     screenshotBase64 := screenshotBase64 s;
     consentBannerFound := consentBannerFound s;
     googleConsentV2Status := g; gotoLog := gotoLog s |}.

Definition logGoto (u : string) (ok : bool) (s : Crawl) : Crawl :=
  {| urlsToVisit := urlsToVisit s; visitedUrls := visitedUrls s;
     allCookieMap := allCookieMap s;
     allNetworkRequestMap := allNetworkRequestMap s;
     allLocalStorageMap := allLocalStorageMap s;
     screenshotBase64 := screenshotBase64 s;
     consentBannerFound := consentBannerFound s;
     googleConsentV2Status := googleConsentV2Status s;
     gotoLog := (gotoLog s ++ [(u, ok)])%list |}.

(** The three merges that follow a call of [collectPageData]. *)
Definition merge (d : Collected) (state : ConsentState) (currentUrl : string)
    (s : Crawl) : Crawl :=
  {| urlsToVisit := urlsToVisit s; visitedUrls := visitedUrls s;
     allCookieMap :=
       processItems cookieKey (allCookieMap s) (cookies d) state currentUrl;
     allNetworkRequestMap :=
       processItems url (allNetworkRequestMap s) (networkRequests d) state currentUrl;
     allLocalStorageMap :=
       processLocalStorage (allLocalStorageMap s) (localStorageItems d) state currentUrl;
     screenshotBase64 := screenshotBase64 s;
     consentBannerFound := consentBannerFound s;
     googleConsentV2Status := googleConsentV2Status s; gotoLog := gotoLog s |}.

(** [urlsToVisit.sort((a, b) => a.priority - b.priority)]: the sort of an
    array is stable, entries with equal priority keep their order. *)
Fixpoint insertItem (x : QueueItem) (l : list QueueItem) : list QueueItem :=
  match l with
  | [] => [x]
  | y :: l' =>
      if Nat.leb (priority x) (priority y) then x :: y :: l'
      else y :: insertItem x l'
  end.

Definition sortByPriority (l : list QueueItem) : list QueueItem :=
  fold_right insertItem [] l.

Definition priorityKeywords : list string :=
  [ "privacy"; "policy"; "terms"; "conditions"; "cookie"; "contact"; "about";
    "legal"; "login"; "pricing"; "dpa"; "security" ].

Definition pushLinks (links : list Link) (s : Crawl) : Crawl :=
  fold_left
    (fun s link =>
       if negb (set_mem string_dec (href link) (visitedUrls s))
          && negb (existsb (fun item => String.eqb (q_url item) (href link))
                           (urlsToVisit s))
       then
         let linkTextAndHref := Js.toLowerCase (text link ++ " " ++ href link) in
         let prio := if existsb (fun keyword => Js.includes keyword linkTextAndHref)
                                priorityKeywords
                     then 1 else 2 in
         setQueue (urlsToVisit s ++ [{| q_url := href link; priority := prio |}])%list s
       else s)
    links s.

Definition isOk (A : Type) (o : Outcome A) : bool :=
  match o with Returned _ => true | Threw _ => false end.

Section Loop.
Variable parseUrl : string -> option ParsedUrl.
(** The browser: what happens on the [n]-th [page.goto], to [u]. *)
Variable browse : nat -> string -> PageRun.
Variable MAX_PAGES_TO_SCAN : nat.
Variable rootHostname : string.

Definition observe (pg : ReloadScript) (state : ConsentState)
    (currentUrl : string) : Eff Crawl Collected :=
  d <- Eff.await (runCollect parseUrl pg rootHostname) ;;
  Eff.modify (merge d state currentUrl) ;;;
  Eff.ret d.

Definition visitPage (run : PageRun) (currentUrl : string) : Eff Crawl unit :=
  Eff.modify (logGoto currentUrl (isOk (gotoResult run))) ;;;
  Eff.await (gotoResult run) ;;;
  Eff.modify (setVisited currentUrl) ;;;
  s <- Eff.read ;;
  (if Nat.eqb (List.length (visitedUrls s)) 1 then
     shot <- Eff.await (screenshotResult run) ;;
     Eff.modify (setScreenshot shot) ;;;
     pre <- observe (preConsent run) PreConsent currentUrl ;;
     Eff.modify (setGcm (googleConsentV2 pre)) ;;;
     Eff.modify (setBanner (rejectClicked run)) ;;;
     observe (postReject run) PostRejection currentUrl ;;;
     Eff.await (secondReload run) ;;;
     observe (postAccept run) PostAcceptance currentUrl ;;;
     Eff.ret tt
   else
     observe (subsequent run) PostAcceptance currentUrl ;;;
     Eff.ret tt) ;;;
  links <- Eff.await (linksResult run) ;;
  Eff.modify (pushLinks links).

(** One iteration of [while (urlsToVisit.length > 0 &&
    visitedUrls.size < MAX_PAGES_TO_SCAN)]; [None] when the condition
    is false. *)
Definition step (s : Crawl) : option Crawl :=
  if Nat.ltb (List.length (visitedUrls s)) MAX_PAGES_TO_SCAN then
    match sortByPriority (urlsToVisit s) with
    | [] => None
    | currentItem :: rest =>
        let s := setQueue rest s in
        if set_mem string_dec (q_url currentItem) (visitedUrls s) then Some s
        else
          let currentUrl := q_url currentItem in
          match parseUrl currentUrl with
          | None => Some s
          | Some pageUrl_ =>
              if negb (String.eqb (u_hostname pageUrl_) rootHostname) then Some s
              else
                let run := browse (List.length (gotoLog s)) currentUrl in
                Some (snd (Eff.tryCatch (visitPage run currentUrl)
                             (fun _ => Eff.ret tt) s))
          end
    end
  else None.

Fixpoint crawl (fuel : nat) (s : Crawl) : Crawl :=
  match fuel with
  | O => s
  | S fuel' => match step s with
               | None => s
               | Some s' => crawl fuel' s'
               end
  end.

Definition start (url_ : string) : Crawl :=
  {| urlsToVisit := [{| q_url := url_; priority := 0 |}]; visitedUrls := [];
     allCookieMap := []; allNetworkRequestMap := []; allLocalStorageMap := [];
     screenshotBase64 := EmptyString; consentBannerFound := false;
     googleConsentV2Status := {| detected := false; status := "Not checked" |};
     gotoLog := [] |}.
End Loop.

(** ** Classification in bounded batches *)

Inductive ItemToAnalyze : Type :=
| CookieItem (e : Entry Cookie)
| TrackerItem (e : Entry NetworkRequest)
| StorageItem (e : Entry LocalStorageItem).

Definition uniqueTrackersForAnalysis (s : Crawl) : list (Entry NetworkRequest) :=
  List.filter
    (fun v => existsb (fun d => Js.includes d (hostname (data v))) knownTrackerDomains)
    (Js.values (allNetworkRequestMap s)).

Definition allItemsToAnalyze (s : Crawl) : list ItemToAnalyze :=
  (List.map CookieItem (Js.values (allCookieMap s)) ++
   List.map TrackerItem (uniqueTrackersForAnalysis s) ++
   List.map StorageItem (Js.values (allLocalStorageMap s)))%list.

Definition BATCH_SIZE : nat := 25.

Record PromptItem : Type := mkPrompt {
  p_type : string;
  p_key : string;
  p_name : option string;
  p_provider : string;
  p_states : list string
}.

Definition promptItem (item : ItemToAnalyze) : PromptItem :=
  match item with
  | CookieItem e =>
      {| p_type := "cookie"; p_key := cookieKey (data e);
         p_name := Some (name (data e)); p_provider := domain (data e);
         p_states := List.map stateTag (states e) |}
  | TrackerItem e =>
      {| p_type := "tracker"; p_key := url (data e); p_name := None;
         p_provider := hostname (data e);
         p_states := List.map stateTag (states e) |}
  | StorageItem e =>
      {| p_type := "storage"; p_key := storageKey (data e); p_name := None;
         p_provider := origin (data e);
         p_states := List.map stateTag (states e) |}
  end.

Record Analysis : Type := mkAnalysis {
  a_key : string;
  a_category : option string;
  a_purpose : option string;
  a_complianceStatus : option string;
  a_remediation : option string
}.

Record ComplianceInfo : Type := mkInfo {
  riskLevel : string;
  assessment : string
}.

Record Compliance : Type := mkCompliance {
  gdpr : ComplianceInfo;
  ccpa : ComplianceInfo
}.

Record ViolationSummary : Type := mkSummary {
  preConsentViolations : nat;
  postRejectionViolations : nat
}.

Record CookieInfo : Type := mkCookieInfo {
  ci_key : string;
  ci_name : string;
  ci_provider : string;
  ci_expiry : string;
  ci_party : CookieParty;
  ci_isHttpOnly : bool;
  ci_isSecure : bool;
  ci_complianceStatus : string;
  ci_category : string;
  ci_purpose : string;
  ci_remediation : string;
  ci_pagesFound : list string
}.

Record TrackerInfo : Type := mkTrackerInfo {
  ti_key : string;
  ti_hostname : string;
  ti_complianceStatus : string;
  ti_category : string;
  ti_remediation : string;
  ti_pagesFound : list string
}.

Record LocalStorageInfo : Type := mkStorageInfo {
  si_key : string;
  si_origin : string;
  si_storageKey : string;
  si_complianceStatus : string;
  si_category : string;
  si_remediation : string;
  si_purpose : string;
  si_pagesFound : list string
}.

Record ThirdPartyDomain : Type := mkDomain {
  td_hostname : string;
  td_count : nat;
  td_pagesFound : list string
}.

Record ScanResultData : Type := mkResult {
  uniqueCookies : list CookieInfo;
  uniqueTrackers : list TrackerInfo;
  uniqueLocalStorage : list LocalStorageInfo;
  thirdPartyDomains : list ThirdPartyDomain;
  pages : list string;
  r_compliance : Compliance;
  r_screenshotBase64 : string;
  r_consentBannerDetected : bool;
  r_pagesScannedCount : nat;
  r_googleConsentV2 : GoogleConsentV2Status
}.

Inductive Response : Type :=
| Json (report : ScanResultData)
| Failed (code : nat) (error : string).

Definition optEqb (o : option string) (s : string) : bool :=
  match o with Some x => String.eqb x s | None => false end.

Section Analysis.
(** One attempt at a batch: the request to the text-generation service,
    the cleaning of its text and [JSON.parse]; [Threw] when any of
    these throws. *)
Variable classify : nat -> nat -> list PromptItem -> Outcome (list Analysis).
(** The final risk-assessment request and the parsing of its answer. *)
Variable assess : ViolationSummary -> Outcome Compliance.
(** [new Date()] as read while the [i]-th cookie of the report is built. *)
Variable now : nat -> Z.

Fixpoint attempts (items : list PromptItem) (batchNum remaining attempt : nat)
    : Outcome (list Analysis) :=
  match classify batchNum attempt items with
  | Returned r => Returned r
  | Threw e =>
      match remaining with
      | O => Threw e
      | S remaining' => attempts items batchNum remaining' (S attempt)
      end
  end.

Definition analyzeBatch (batch : list ItemToAnalyze) (batchNum : nat)
    : Outcome (list Analysis) :=
  attempts (List.map promptItem batch) batchNum 2 0.

(** The batch loop.  There is no [try] around [analyzeBatch]: what it
    throws leaves the loop. *)
Fixpoint analyzeAll (index : nat) (batches : list (list ItemToAnalyze))
    (aggregatedAnalysis : list Analysis) : Outcome (list Analysis) :=
  match batches with
  | [] => Returned aggregatedAnalysis
  | batch :: rest =>
      match analyzeBatch batch index with
      | Returned batchAnalysis =>
          analyzeAll (S index) rest (aggregatedAnalysis ++ batchAnalysis)%list
      | Threw e => Threw e
      end
  end.

Definition analysisMap (aggregatedAnalysis : list Analysis) : Js.Map Analysis :=
  Js.ofEntries (List.map (fun item => (a_key item, item)) aggregatedAnalysis).

Definition field (analyzed : option Analysis) (f : Analysis -> option string)
    : option string :=
  match analyzed with Some a => f a | None => None end.

Definition uniqueCookie (analysis : Js.Map Analysis)
    (scannedUrlHostname : string) (i : nat) (c : Entry Cookie) : CookieInfo :=
  let k := cookieKey (data c) in
  let analyzed := Js.get k analysis in
  {| ci_key := k;
     ci_name := name (data c);
     ci_provider := domain (data c);
     ci_expiry := getHumanReadableExpiry (now i) (data c);
     ci_party := cookieParty scannedUrlHostname (data c);
     ci_isHttpOnly := httpOnly (data c);
     ci_isSecure := secure (data c);
     ci_complianceStatus :=
       Js.orElse (field analyzed a_complianceStatus) ComplianceStatus.UNKNOWN;
     ci_category := Js.orElse (field analyzed a_category) CookieCategory.UNKNOWN;
     ci_purpose := Js.orElse (field analyzed a_purpose) "No purpose determined.";
     ci_remediation := Js.orElse (field analyzed a_remediation) "Analysis incomplete.";
     ci_pagesFound := pageUrls c |}.

Definition uniqueTracker (analysis : Js.Map Analysis) (t : Entry NetworkRequest)
    : TrackerInfo :=
  let analyzed := Js.get (url (data t)) analysis in
  {| ti_key := url (data t);
     ti_hostname := hostname (data t);
     ti_complianceStatus :=
       Js.orElse (field analyzed a_complianceStatus) ComplianceStatus.UNKNOWN;
     ti_category := Js.orElse (field analyzed a_category) CookieCategory.UNKNOWN;
     ti_remediation := Js.orElse (field analyzed a_remediation) "Analysis incomplete.";
     ti_pagesFound := pageUrls t |}.

Definition uniqueStorage (analysis : Js.Map Analysis) (st : Entry LocalStorageItem)
    : LocalStorageInfo :=
  let k := storageKey (data st) in
  let analyzed := Js.get k analysis in
  {| si_key := k;
     si_origin := origin (data st);
     si_storageKey := key (data st);
     si_complianceStatus :=
       Js.orElse (field analyzed a_complianceStatus) ComplianceStatus.UNKNOWN;
     si_category := Js.orElse (field analyzed a_category) CookieCategory.UNKNOWN;
     si_remediation := Js.orElse (field analyzed a_remediation) "Analysis incomplete.";
     si_purpose := Js.orElse (field analyzed a_purpose) "No purpose determined.";
     si_pagesFound := pageUrls st |}.

Definition thirdPartyDomainsMap (s : Crawl) : Js.Map (set string) :=
  fold_left
    (fun m req =>
       let h := hostname (data req) in
       let m := if Js.has h m then m else Js.set h [] m in
       Js.mutate h
         (fun pageSet => fold_left (fun ps p => set_add string_dec p ps)
                                   (pageUrls req) pageSet)
         m)
    (Js.values (allNetworkRequestMap s)) [].

Definition violationSummary (aggregatedAnalysis : list Analysis) : ViolationSummary :=
  {| preConsentViolations :=
       List.length (List.filter
         (fun a => optEqb (a_complianceStatus a) "Pre-Consent Violation")
         aggregatedAnalysis);
     postRejectionViolations :=
       List.length (List.filter
         (fun a => optEqb (a_complianceStatus a) "Post-Rejection Violation")
         aggregatedAnalysis) |}.

(** The outer [catch] of the handler. *)
Definition scanFailed (url_ message : string) : Response :=
  Failed 500 ("Failed to scan " ++ url_ ++ ". " ++ message).

(** The handler from the end of the crawl loop on. *)
Definition report (url_ scannedUrlHostname : string) (s : Crawl) : Response :=
  let items := allItemsToAnalyze s in
  let batches := batchesOf BATCH_SIZE items in
  match analyzeAll 0 batches [] with
  | Threw message => scanFailed url_ message
  | Returned aggregatedAnalysis =>
      match assess (violationSummary aggregatedAnalysis) with
      | Threw message => scanFailed url_ message
      | Returned complianceAnalysis =>
          let analysis := analysisMap aggregatedAnalysis in
          Json {| uniqueCookies :=
                    mapi (uniqueCookie analysis scannedUrlHostname) 0
                                 (Js.values (allCookieMap s));
                  uniqueTrackers :=
                    List.map (uniqueTracker analysis) (uniqueTrackersForAnalysis s);
                  uniqueLocalStorage :=
                    List.map (uniqueStorage analysis) (Js.values (allLocalStorageMap s));
                  thirdPartyDomains :=
                    List.map (fun e => {| td_hostname := fst e;
                                          td_count := List.length (snd e);
                                          td_pagesFound := snd e |})
                             (thirdPartyDomainsMap s);
                  pages := visitedUrls s;
                  r_compliance := complianceAnalysis;
                  r_screenshotBase64 := screenshotBase64 s;
                  r_consentBannerDetected := consentBannerFound s;
                  r_pagesScannedCount := List.length (visitedUrls s);
                  r_googleConsentV2 := googleConsentV2Status s |}
      end
  end.
End Analysis.

End Server2.

(* ================================================================= *)
(** * Server 3: the streaming variant (same-site check, cookie verdict) *)

Module Server3.

(** [domainParts = rootUrl.hostname.split('.')],
    [mainDomain = domainParts.slice(Math.max(domainParts.length - 2, 0)).join('.')] *)
Definition mainDomain (rootHostname : string) : string :=
  let domainParts := Js.split "." rootHostname in
  Js.join "." (skipn (List.length domainParts - 2) domainParts).

(** The check of the crawl loop: a dequeued URL is skipped when
    [!pageUrl.hostname.endsWith(mainDomain)]. *)
Definition skipped (rootHostname pageHostname : string) : bool :=
  negb (Js.endsWith (mainDomain rootHostname) pageHostname).






Section Verdict.
(** [findCookieInDatabase(name)?.category]; the database module is not
    part of the sources at hand and is taken as a parameter. *)
Variable databaseCategory : string -> option string.
(** [oneTrustClassifications], read from the entry page. *)
Variable oneTrustClassifications : Js.Map string.

End Verdict.

End Server3.

(* ================================================================= *)
(** * Vocabulary of the statements *)

(** ** Merges *)

(** The pattern of every merge: create the entry when the key is new,
    then mutate the entry stored under the key. *)
Definition upsert (V : Type) (k : string) (init : V) (f : V -> V) (m : Js.Map V)
    : Js.Map V :=
  Js.mutate k f (if Js.has k m then m else Js.set k init m).

Definition current (V : Type) (k : string) (init : V) (m : Js.Map V) : V :=
  match Js.get k m with Some v => v | None => init end.

Definition mergeAll (A V : Type) (keyOf : A -> string) (init : A -> V) (f : V -> V)
    (items : list A) (m : Js.Map V) : Js.Map V :=
  fold_left (fun m item => upsert (keyOf item) (init item) f m) items m.

(** What a later merge may do to a stored entry: the payload stays, the two
    sets only gain elements. *)
Definition grows1 (A : Type) (e e' : Server1.Entry A) : Prop :=
  Server1.data e' = Server1.data e /\
  incl (Server1.states e) (Server1.states e').

Definition grows2 (A : Type) (e e' : Server2.Entry A) : Prop :=
  Server2.data e' = Server2.data e /\
  incl (Server2.states e) (Server2.states e') /\
  incl (Server2.pageUrls e) (Server2.pageUrls e').

(** A sequence of calls of [processItems] on one map. *)
Definition merges1 (A : Type) (keyOf : A -> string)
    (calls : list (list A * ConsentState)) (map : Js.Map (Server1.Entry A))
    : Js.Map (Server1.Entry A) :=
  fold_left (fun m call => Server1.processItems keyOf m (fst call) (snd call))
            calls map.

Definition merges2 (A : Type) (keyOf : A -> string)
    (calls : list (list A * ConsentState * string)) (map : Js.Map (Server2.Entry A))
    : Js.Map (Server2.Entry A) :=
  fold_left (fun m call =>
               Server2.processItems keyOf m (fst (fst call)) (snd (fst call)) (snd call))
            calls map.

(** ** The verdict as designed *)


(** ** Parties and expiry *)

(** The [domain] and [rootDomain] of the party expression. *)
Definition dotted (d : string) : string :=
  if Js.startsWith "." d then d else "." ++ d.


(** ** Classifier behaviours *)


(** A classifier that answers every item with one category and one
    compliance status. *)
Definition answering (category status : string) (batchNum attempt : nat)
    (items : list Server1.PromptItem) : Outcome (list Server1.Analysis) :=
  Returned (List.map (fun p => {| Server1.a_key := Server1.p_key p;
                                  Server1.a_category := Some category;
                                  Server1.a_purpose := Some "Distinguishes users.";
                                  Server1.a_complianceStatus := Some status |})
                     items).

Definition assessLow (v : Server1.ViolationSummary) : Outcome Server1.Compliance :=
  Returned {| Server1.gdpr := {| Server1.riskLevel := "Low";
                                 Server1.assessment := "No violations." |};
              Server1.ccpa := {| Server1.riskLevel := "Low";
                                 Server1.assessment := "No violations." |} |}.

(** A classifier whose answer to the first batch cannot be parsed on any
    attempt and which classifies every item of any other batch. *)
Definition firstBatchGarbled (batchNum attempt : nat) (items : list Server2.PromptItem)
    : Outcome (list Server2.Analysis) :=
  if Nat.eqb batchNum 0 then Threw "Unexpected token < in JSON at position 0"
  else Returned
         (List.map (fun p => {| Server2.a_key := Server2.p_key p;
                                Server2.a_category := Some "Analytics";
                                Server2.a_purpose := Some "Measures site usage.";
                                Server2.a_complianceStatus := Some "Pre-Consent Violation";
                                Server2.a_remediation := Some "Block until opt-in." |})
                   items).

Definition assessHigh (v : Server2.ViolationSummary) : Outcome Server2.Compliance :=
  Returned {| Server2.gdpr := {| Server2.riskLevel := "High";
                                 Server2.assessment := "Violations found." |};
              Server2.ccpa := {| Server2.riskLevel := "High";
                                 Server2.assessment := "Violations found." |} |}.


(** ** The crawl *)

(** The frontier after the link loop, as a function of the visited set and
    of the URLs in the frontier. *)
Definition pushed (visited : set string) (queue links : list string) : list string :=
  fold_left
    (fun q link =>
       if negb (set_mem string_dec link visited) && negb (existsb (String.eqb link) q)
       then (q ++ [link])%list else q)
    links queue.

(** No URL is passed to [page.goto] again after a navigation to it has
    resolved. *)
Definition noRevisit (log : list (string * bool)) : Prop :=
  forall l1 l2 u, log = (l1 ++ (u, true) :: l2)%list -> ~ In u (List.map fst l2).

Definition queueUrls (q : list Server2.QueueItem) : list string :=
  List.map Server2.q_url q.

Definition hostnameOf2 (parseUrl : string -> option Server2.ParsedUrl) (u : string)
    : option string :=
  option_map Server2.u_hostname (parseUrl u).

(** What holds of the frontier, the visited set and the navigation log
    throughout a crawl of server 1. *)
Definition crawlInvariant1 (hostnameOf : string -> option string)
    (rootHostname : string) (s : Server1.Crawl) : Prop :=
  NoDup (Server1.urlsToVisit s)
  /\ (forall u, In u (Server1.visitedUrls s) -> ~ In u (Server1.urlsToVisit s))
  /\ (forall u, In u (Server1.visitedUrls s) <-> In (u, true) (Server1.gotoLog s))
  /\ noRevisit (Server1.gotoLog s)
  /\ (forall u ok, In (u, ok) (Server1.gotoLog s) -> hostnameOf u = Some rootHostname).

Definition crawlInvariant2 (parseUrl : string -> option Server2.ParsedUrl)
    (rootHostname : string) (s : Server2.Crawl) : Prop :=
  NoDup (queueUrls (Server2.urlsToVisit s))
  /\ (forall u, In u (Server2.visitedUrls s) ->
                ~ In u (queueUrls (Server2.urlsToVisit s)))
  /\ (forall u, In u (Server2.visitedUrls s) <-> In (u, true) (Server2.gotoLog s))
  /\ noRevisit (Server2.gotoLog s)
  /\ (forall u ok, In (u, ok) (Server2.gotoLog s) ->
                   hostnameOf2 parseUrl u = Some rootHostname).

(** ** Example pages, cookies and crawls *)

Definition gaCookie : Cookie := exampleCookie "_ga" ".example.com" (1800000000 # 1) false.

(** The same cookie as read on a later visit: the expiry has moved. *)
Definition gaCookieLater : Cookie :=
  exampleCookie "_ga" ".example.com" (1800000600 # 1) false.

(** [n] cookies named [c0], [c1], ... *)
Definition manyCookies (n : nat) : list Cookie :=
  List.map (fun i => exampleCookie ("c" ++ Js.showZ (Z.of_nat i)) ".example.com" 0 true)
           (seq 0 n).



(** A crawl of server 2 that saw 26 cookies before consent: two batches,
    of 25 and of 1. *)
Definition crawlOf26 : Server2.Crawl :=
  Server2.merge
    {| Server2.cookies := manyCookies 26; Server2.networkRequests := [];
       Server2.localStorageItems := [];
       Server2.googleConsentV2 :=
         {| Server2.detected := false; Server2.status := "Not Detected" |} |}
    PreConsent "https://www.example.com"
    (Server2.setVisited "https://www.example.com"
       (Server2.start "https://www.example.com")).

Definition errorCollected : Server2.Collected :=
  {| Server2.cookies := []; Server2.networkRequests := [];
     Server2.localStorageItems := [];
     Server2.googleConsentV2 :=
       {| Server2.detected := false; Server2.status := "Error" |} |}.

(** [new URL(x)] on the two request URLs of the collector example. *)
Definition exampleParseUrl (x : string) : option Server2.ParsedUrl :=
  if String.eqb x "https://www.google-analytics.com/g/collect?v=2" then
    Some {| Server2.u_hostname := "www.google-analytics.com";
            Server2.u_protocol := "https:" |}
  else if String.eqb x "https://www.example.com/app.js" then
    Some {| Server2.u_hostname := "www.example.com"; Server2.u_protocol := "https:" |}
  else None.

(** A page that requests its own script and an analytics beacon, and whose
    reload then times out. *)
Definition reloadTimesOut : Server2.ReloadScript :=
  {| Server2.createSession := Returned tt;
     Server2.enableNetwork := Returned tt;
     Server2.duringReload :=
       [ "https://www.example.com/app.js";
         "https://www.google-analytics.com/g/collect?v=2" ];
     Server2.reloadResult := Threw "Navigation timeout of 15000 ms exceeded";
     Server2.duringSettle := [];
     Server2.cdpCookies := Returned [];
     Server2.pageCookies := Returned [];
     Server2.detachResult := Returned tt;
     Server2.evaluateResult :=
       Returned ([], {| Server2.detected := false; Server2.status := "Not Detected" |}) |}.

Definition reloadTimesOut1 : Server1.ReloadScript :=
  {| Server1.duringReload :=
       [ "https://www.example.com/app.js";
         "https://www.google-analytics.com/g/collect?v=2" ];
     Server1.reloadResult := Threw "Navigation timeout of 15000 ms exceeded";
     Server1.duringSettle := [];
     Server1.cookiesResult := Returned [];
     Server1.cookiesRetry := Returned [gaCookie] |}.

(** A site of two pages that link to each other and to themselves. *)
Definition twoPageHostname (u : string) : option string :=
  if String.eqb u "https://www.example.com/" then Some "www.example.com"
  else if String.eqb u "https://www.example.com/about" then Some "www.example.com"
  else if String.eqb u "https://ads.example.com/" then Some "ads.example.com"
  else None.

Definition quietReload : Server1.ReloadScript :=
  {| Server1.duringReload := []; Server1.reloadResult := Returned tt;
     Server1.duringSettle := []; Server1.cookiesResult := Returned [];
     Server1.cookiesRetry := Returned [] |}.

Definition twoPageSite (n : nat) (u : string) : Server1.PageRun :=
  {| Server1.gotoResult := Returned tt;
     Server1.screenshotResult := Returned "/9j/4AAQ";
     Server1.preConsent := quietReload;
     Server1.rejectClicked := true;
     Server1.postReject := quietReload;
     Server1.secondReload := Returned tt;
     Server1.acceptClicked := true;
     Server1.postAccept := quietReload;
     Server1.subsequent := quietReload;
     Server1.linksResult :=
       Returned [ "https://www.example.com/"; "https://www.example.com/about";
                  "https://ads.example.com/" ] |}.

Abbreviation twoPageCrawl fuel :=
  (Server1.crawl twoPageHostname twoPageSite 10 "www.example.com" fuel
     (Server1.start "https://www.example.com/")).

Definition frontierOf (u : string) : Server1.Crawl :=
  Server1.setQueue [u] (Server1.start "https://www.example.com/").

Definition exampleParseHost (u : string) : option Server2.ParsedUrl :=
  option_map (fun h => {| Server2.u_hostname := h; Server2.u_protocol := "https:" |})
             (twoPageHostname u).

Definition quietReload2 : Server2.ReloadScript :=
  {| Server2.createSession := Returned tt; Server2.enableNetwork := Returned tt;
     Server2.duringReload := []; Server2.reloadResult := Returned tt;
     Server2.duringSettle := []; Server2.cdpCookies := Returned [];
     Server2.pageCookies := Returned []; Server2.detachResult := Returned tt;
     Server2.evaluateResult :=
       Returned ([], {| Server2.detected := false; Server2.status := "Not Detected" |}) |}.

Definition anyPage2 (n : nat) (u : string) : Server2.PageRun :=
  {| Server2.gotoResult := Returned tt;
     Server2.screenshotResult := Returned "/9j/4AAQ";
     Server2.preConsent := quietReload2; Server2.rejectClicked := true;
     Server2.postReject := quietReload2; Server2.secondReload := Returned tt;
     Server2.acceptClicked := true; Server2.postAccept := quietReload2;
     Server2.subsequent := quietReload2; Server2.linksResult := Returned [] |}.

(** ** The consent driver *)

(** A frame whose elements stay the same while the keywords are tried and
    in which a click does not end the script with an error. *)
Definition stableFrame (frame : Consent.Frame) (elements : list Consent.Element)
    : Prop :=
  (forall t, Consent.evaluate frame t = Returned elements)
  /\ (forall el, Consent.afterClick frame el = Returned tt).

(** The frames [handleConsent] looks into. *)
Definition searchedFrame (page : Consent.Page) (frame : Consent.Frame) : Prop :=
  frame = Consent.mainFrame page
  \/ (In frame (Consent.frames page) /\ Consent.isDetached frame = false).

(** A click on an element whose text contains a keyword of the action, in
    a frame that is searched. *)
Definition keywordClick (page : Consent.Page) (action : Consent.Action)
    (c : Consent.Click) : Prop :=
  In (Consent.forKeyword c) (Consent.keywordsOf action)
  /\ Consent.matches (Consent.forKeyword c) (Consent.onElement c) = true
  /\ exists frame, searchedFrame page frame
                   /\ Consent.frameId frame = Consent.inFrame c.

(** No keyword is found in the frame: the script rejects, or it finds no
    element whose text contains the keyword. *)
Definition nothingToClick (keywords : list string) (frame : Consent.Frame) : Prop :=
  forall t, In t keywords ->
    match Consent.evaluate frame t with
    | Returned elements => List.find (Consent.matches t) elements = None
    | Threw _ => True
    end.

Definition button (label : string) : Consent.Element :=
  {| Consent.textContent := label; Consent.ariaLabel := None;
     Consent.inputValue := None |}.

(** A frame that shows the given elements, whatever the keyword. *)
Definition frameOf (n : nat) (elements : list Consent.Element) : Consent.Frame :=
  {| Consent.frameId := n; Consent.isDetached := false;
     Consent.evaluate := fun _ => Returned elements;
     Consent.afterClick := fun _ => Returned tt |}.

Definition pageOf (elements : list Consent.Element) : Consent.Page :=
  {| Consent.mainFrame := frameOf 0 elements;
     Consent.frames := [frameOf 0 elements] |}.

(** ** Maps and the template library *)

(** The keys of a map, in insertion order. *)
Definition keysOf (V : Type) (m : Js.Map V) : list string := List.map fst m.

(** What holds of the template library after any sequence of requests:
    the ids are pairwise distinct, and a template is stored under its own
    id with a name and a content that are not empty. *)
Definition templateInvariant (lib : Js.Map Templates.ContractTemplate) : Prop :=
  NoDup (keysOf lib)
  /\ forall k t, In (k, t) lib ->
                 k = Templates.id t
                 /\ Templates.name t <> EmptyString
                 /\ Templates.content t <> EmptyString.


(** ** The scan handler *)

(** A crawl that has seen nothing yet. *)
Definition nothingSeen (s : Server1.Crawl) : Prop :=
  Server1.visitedUrls s = []
  /\ Server1.allCookieMap s = []
  /\ Server1.allTrackerMap s = []
  /\ Server1.screenshotBase64 s = EmptyString
  /\ Server1.consentBannerFound s = false.

(** The report of a scan that found nothing on no page. *)
Definition emptyReport : Server1.ScanResultData :=
  {| Server1.r_cookies := []; Server1.r_trackers := [];
     Server1.r_screenshotBase64 := EmptyString;
     Server1.r_compliance := {| Server1.gdpr := Server1.lowInfo;
                                Server1.ccpa := Server1.lowInfo |};
     Server1.r_consentBannerDetected := false;
     Server1.r_pagesScannedCount := 0 |}.

(** A browser in which every navigation times out. *)
Definition offline (n : nat) (u : string) : Server1.PageRun :=
  {| Server1.gotoResult := Threw "Navigation timeout of 30000 ms exceeded";
     Server1.screenshotResult := Returned "/9j/4AAQ";
     Server1.preConsent := quietReload;
     Server1.rejectClicked := true;
     Server1.postReject := quietReload;
     Server1.secondReload := Returned tt;
     Server1.acceptClicked := true;
     Server1.postAccept := quietReload;
     Server1.subsequent := quietReload;
     Server1.linksResult := Returned [] |}.

(** ** What the crawl keeps of its maps *)

(** The keys of the map are pairwise distinct and every entry, with its
    key, satisfies [P]. *)
Definition entriesSatisfy (V : Type) (P : string -> V -> Prop) (m : Js.Map V) : Prop :=
  NoDup (keysOf m) /\ forall k v, In (k, v) m -> P k v.

(** An entry of server 1 is stored under the key of its payload and has
    been seen in some state. *)
Definition entry1 (A : Type) (keyOf : A -> string) (k : string)
    (e : Server1.Entry A) : Prop :=
  k = keyOf (Server1.data e) /\ Server1.states e <> [].

Definition mapsInvariant1 (s : Server1.Crawl) : Prop :=
  entriesSatisfy (entry1 cookieKey) (Server1.allCookieMap s)
  /\ entriesSatisfy (entry1 Server1.trackerKey) (Server1.allTrackerMap s).

(** An entry of server 2 is stored under the key of its payload, has been
    seen in some state and on some page, and only on visited pages. *)
Definition entry2 (A : Type) (keyOf : A -> string) (visited : set string)
    (k : string) (e : Server2.Entry A) : Prop :=
  k = keyOf (Server2.data e)
  /\ Server2.states e <> []
  /\ Server2.pageUrls e <> []
  /\ incl (Server2.pageUrls e) visited.

Definition mapsInvariant2 (s : Server2.Crawl) : Prop :=
  entriesSatisfy (entry2 cookieKey (Server2.visitedUrls s)) (Server2.allCookieMap s)
  /\ entriesSatisfy (entry2 url (Server2.visitedUrls s))
                    (Server2.allNetworkRequestMap s)
  /\ entriesSatisfy (entry2 storageKey (Server2.visitedUrls s))
                    (Server2.allLocalStorageMap s).

(** Every state an entry of server 2 was seen in is post-acceptance, or
    the entry was seen on the entry page, the first page visited. *)
Definition onEntryPage (A : Type) (visited : set string) (e : Server2.Entry A)
    : Prop :=
  forall st, In st (Server2.states e) ->
    st = PostAcceptance
    \/ exists entryPage, hd_error visited = Some entryPage
                         /\ In entryPage (Server2.pageUrls e).

Definition stagesInvariant2 (s : Server2.Crawl) : Prop :=
  entriesSatisfy (fun _ e => onEntryPage (Server2.visitedUrls s) e)
                 (Server2.allCookieMap s)
  /\ entriesSatisfy (fun _ e => onEntryPage (Server2.visitedUrls s) e)
                    (Server2.allNetworkRequestMap s)
  /\ entriesSatisfy (fun _ e => onEntryPage (Server2.visitedUrls s) e)
                    (Server2.allLocalStorageMap s).

(** A page of server 2 on which the analytics cookie is set in every
    phase and an analytics beacon is requested. *)
Definition cookieReload2 : Server2.ReloadScript :=
  {| Server2.createSession := Returned tt; Server2.enableNetwork := Returned tt;
     Server2.duringReload :=
       [ "https://www.example.com/app.js";
         "https://www.google-analytics.com/g/collect?v=2" ];
     Server2.reloadResult := Returned tt;
     Server2.duringSettle := []; Server2.cdpCookies := Returned [gaCookie];
     Server2.pageCookies := Returned []; Server2.detachResult := Returned tt;
     Server2.evaluateResult :=
       Returned ([], {| Server2.detected := false; Server2.status := "Not Detected" |}) |}.

Definition cookiePage2 (n : nat) (u : string) : Server2.PageRun :=
  {| Server2.gotoResult := Returned tt;
     Server2.screenshotResult := Returned "/9j/4AAQ";
     Server2.preConsent := cookieReload2; Server2.rejectClicked := true;
     Server2.postReject := cookieReload2; Server2.secondReload := Returned tt;
     Server2.acceptClicked := true; Server2.postAccept := cookieReload2;
     Server2.subsequent := cookieReload2; Server2.linksResult := Returned [] |}.

(** [new URL(x)] on the entry page and on the requests of [cookiePage2]. *)
Definition cookieSiteUrl (x : string) : option Server2.ParsedUrl :=
  if String.eqb x "https://www.example.com/" then
    Some {| Server2.u_hostname := "www.example.com"; Server2.u_protocol := "https:" |}
  else exampleParseUrl x.

(** The same page as server 1 sees it. *)
Definition cookieReload1 : Server1.ReloadScript :=
  {| Server1.duringReload :=
       [ "https://www.example.com/app.js";
         "https://www.google-analytics.com/g/collect?v=2" ];
     Server1.reloadResult := Returned tt;
     Server1.duringSettle := [];
     Server1.cookiesResult := Returned [gaCookie];
     Server1.cookiesRetry := Returned [] |}.

Definition cookiePage1 (n : nat) (u : string) : Server1.PageRun :=
  {| Server1.gotoResult := Returned tt;
     Server1.screenshotResult := Returned "/9j/4AAQ";
     Server1.preConsent := cookieReload1; Server1.rejectClicked := true;
     Server1.postReject := cookieReload1; Server1.secondReload := Returned tt;
     Server1.acceptClicked := true; Server1.postAccept := cookieReload1;
     Server1.subsequent := cookieReload1; Server1.linksResult := Returned [] |}.

(** A classifier of server 2 that answers every item. *)
Definition answering2 (batchNum attempt : nat) (items : list Server2.PromptItem)
    : Outcome (list Server2.Analysis) :=
  Returned
    (List.map (fun p => {| Server2.a_key := Server2.p_key p;
                           Server2.a_category := Some "Analytics";
                           Server2.a_purpose := Some "Measures site usage.";
                           Server2.a_complianceStatus := Some "Pre-Consent Violation";
                           Server2.a_remediation := Some "Block until opt-in." |})
              items).

(** Closing a conjunction of closed equations by evaluation. *)
Ltac by_evaluation :=
  repeat match goal with
         | |- _ /\ _ => split
         end;
  vm_compute; reflexivity.

(* ================================================================= *)
(** * Facts about sets and maps *)

Section SetFacts.
Variable A : Type.
Variable dec : forall x y : A, {x = y} + {x <> y}.

Lemma set_add_present (a : A) (x : set A) :
  In a x -> set_add dec a x = x.
Proof.
  induction x as [|b x IH]; simpl; intros H.
  - contradiction.
  - destruct (dec a b) as [_|n]; [reflexivity|].
    destruct H as [H|H]; [congruence|]. now rewrite IH.
Qed.

Lemma set_add_keeps (a b : A) (x : set A) :
  In b x -> In b (set_add dec a x).
Proof. intros H. apply set_add_intro1. exact H. Qed.

Lemma set_add_has (a : A) (x : set A) : In a (set_add dec a x).
Proof. apply set_add_intro2. reflexivity. Qed.

Lemma set_add_twice (a : A) (x : set A) :
  set_add dec a (set_add dec a x) = set_add dec a x.
Proof. apply set_add_present, set_add_has. Qed.

Lemma set_add_length (a : A) (x : set A) :
  ~ In a x -> List.length (set_add dec a x) = S (List.length x).
Proof.
  induction x as [|b x IH]; simpl; intros H; [reflexivity|].
  destruct (dec a b) as [e|n].
  - exfalso. apply H. left. congruence.
  - simpl. rewrite IH; [reflexivity|]. intros Hin. apply H. now right.
Qed.
End SetFacts.

Section MapFacts.
Variable V : Type.
Implicit Types (m : Js.Map V) (k : string) (f : V -> V).

Lemma has_get k m : Js.has k m = true <-> exists v, Js.get k m = Some v.
Proof.
  induction m as [|[k' v'] m IH]; simpl.
  - split; [discriminate|intros [v H]; discriminate].
  - destruct (String.eqb k k'); [split; eauto|exact IH].
Qed.

Lemma has_false_get k m : Js.has k m = false <-> Js.get k m = None.
Proof.
  induction m as [|[k' v'] m IH]; simpl.
  - split; reflexivity.
  - destruct (String.eqb k k'); [split; discriminate|exact IH].
Qed.

Lemma get_set_same k v m : Js.get k (Js.set k v m) = Some v.
Proof.
  induction m as [|[k' v'] m IH]; simpl.
  - now rewrite String.eqb_refl.
  - destruct (String.eqb k k') eqn:E; simpl; rewrite E; [reflexivity|exact IH].
Qed.

Lemma get_set_other k k' v m :
  k' <> k -> Js.get k' (Js.set k v m) = Js.get k' m.
Proof.
  intros Hne. induction m as [|[k0 v0] m IH]; simpl.
  - apply String.eqb_neq in Hne. now rewrite Hne.
  - destruct (String.eqb k k0) eqn:E; simpl.
    + apply String.eqb_eq in E. subst k0.
      apply String.eqb_neq in Hne. now rewrite Hne.
    + now rewrite IH.
Qed.

Lemma get_mutate_same k f m :
  Js.get k (Js.mutate k f m) = option_map f (Js.get k m).
Proof.
  induction m as [|[k' v'] m IH]; simpl; [reflexivity|].
  destruct (String.eqb k k') eqn:E; simpl; rewrite E; [reflexivity|exact IH].
Qed.

Lemma get_mutate_other k k' f m :
  k' <> k -> Js.get k' (Js.mutate k f m) = Js.get k' m.
Proof.
  intros Hne. induction m as [|[k0 v0] m IH]; simpl; [reflexivity|].
  destruct (String.eqb k k0) eqn:E; simpl.
  - apply String.eqb_eq in E. subst k0.
    apply String.eqb_neq in Hne. now rewrite Hne.
  - now rewrite IH.
Qed.

Lemma mutate_fixed k f m v :
  Js.get k m = Some v -> f v = v -> Js.mutate k f m = m.
Proof.
  induction m as [|[k' v'] m IH]; simpl; intros Hg Hf; [reflexivity|].
  destruct (String.eqb k k') eqn:E.
  - injection Hg as ->. now rewrite Hf.
  - now rewrite IH.
Qed.

Lemma mutate_mutate k f g m :
  Js.mutate k g (Js.mutate k f m) = Js.mutate k (fun v => g (f v)) m.
Proof.
  induction m as [|[k' v'] m IH]; simpl; [reflexivity|].
  destruct (String.eqb k k') eqn:E; simpl; rewrite E; [reflexivity|].
  now rewrite IH.
Qed.

Lemma upsert_get_same k init f m :
  Js.get k (upsert k init f m) = Some (f (current k init m)).
Proof.
  unfold upsert, current. rewrite get_mutate_same.
  destruct (Js.has k m) eqn:H.
  - apply has_get in H. destruct H as [v ->]. reflexivity.
  - rewrite get_set_same. apply has_false_get in H. now rewrite H.
Qed.

Lemma upsert_get_other k k' init f m :
  k' <> k -> Js.get k' (upsert k init f m) = Js.get k' m.
Proof.
  intros Hne. unfold upsert. rewrite get_mutate_other by exact Hne.
  destruct (Js.has k m); [reflexivity|]. now apply get_set_other.
Qed.

Lemma upsert_fixed k init f m v :
  Js.get k m = Some v -> f v = v -> upsert k init f m = m.
Proof.
  intros Hg Hf. unfold upsert.
  assert (H : Js.has k m = true) by (apply has_get; eauto).
  rewrite H. now apply mutate_fixed with (v := v).
Qed.
End MapFacts.

(* ================================================================= *)
(** * The merge of observations *)

Lemma fold_left_ext (A B : Type) (f g : A -> B -> A) (l : list B) (a : A) :
  (forall x y, f x y = g x y) -> fold_left f l a = fold_left g l a.
Proof.
  intros H. revert a. induction l as [|b l IH]; intros a; simpl; [reflexivity|].
  now rewrite H, IH.
Qed.

Section MergeFacts.
Variables (A V : Type).
Variable keyOf : A -> string.
Variable init : A -> V.
Variable f : V -> V.

(** A relation that every mutation respects is kept along a merge. *)
Lemma mergeAll_related (R : V -> V -> Prop) :
  (forall v, R v v) ->
  (forall u v w, R u v -> R v w -> R u w) ->
  (forall v, R v (f v)) ->
  forall items m k v,
    Js.get k m = Some v ->
    exists v', Js.get k (mergeAll keyOf init f items m) = Some v' /\ R v v'.
Proof.
  intros Rrefl Rtrans Rf. induction items as [|x items IH]; intros m k v Hg; simpl.
  - exists v. split; [exact Hg|apply Rrefl].
  - destruct (string_dec k (keyOf x)) as [->|Hne].
    + destruct (IH (upsert (keyOf x) (init x) f m) (keyOf x) (f v)) as [v' [Hv' HR]].
      { rewrite upsert_get_same. unfold current. now rewrite Hg. }
      exists v'. split; [exact Hv'|]. eapply Rtrans; [apply Rf|exact HR].
    + apply IH. now rewrite upsert_get_other.
Qed.

Lemma mergeAll_untouched items m k :
  (forall x, In x items -> keyOf x <> k) ->
  Js.get k (mergeAll keyOf init f items m) = Js.get k m.
Proof.
  revert m. induction items as [|x items IH]; intros m H; simpl; [reflexivity|].
  rewrite IH.
  - apply upsert_get_other. intros E. apply (H x); [now left|now symmetry].
  - intros y Hy. apply H. now right.
Qed.

Hypothesis f_idem : forall v, f (f v) = f v.

(** After a merge every merged key holds a value the mutation leaves
    as it is. *)
Lemma mergeAll_saturates items m x :
  In x items ->
  exists v, Js.get (keyOf x) (mergeAll keyOf init f items m) = Some v /\ f v = v.
Proof.
  revert m. induction items as [|y items IH]; intros m Hin; simpl.
  - contradiction.
  - destruct Hin as [->|Hin].
    + destruct (@mergeAll_related (fun u w => f u = u -> f w = w))
        with (items := items) (m := upsert (keyOf x) (init x) f m)
             (k := keyOf x) (v := f (current (keyOf x) (init x) m))
        as [v' [Hv' HR]].
      * auto.
      * auto.
      * intros v Hv. now rewrite Hv.
      * apply upsert_get_same.
      * exists v'. split; [exact Hv'|]. apply HR, f_idem.
    + now apply IH.
Qed.

Lemma mergeAll_fixed items m :
  (forall x, In x items -> exists v, Js.get (keyOf x) m = Some v /\ f v = v) ->
  mergeAll keyOf init f items m = m.
Proof.
  induction items as [|x items IH]; intros H; simpl; [reflexivity|].
  destruct (H x) as [v [Hg Hf]]; [now left|].
  rewrite (@upsert_fixed _ _ (init x) f _ _ Hg Hf). apply IH.
  intros y Hy. apply H. now right.
Qed.

(** Merging observations whose keys were all just merged changes
    nothing. *)
Lemma mergeAll_absorbs items items' m :
  (forall y, In y items' -> exists x, In x items /\ keyOf x = keyOf y) ->
  mergeAll keyOf init f items' (mergeAll keyOf init f items m) = mergeAll keyOf init f items m.
Proof.
  intros H. apply mergeAll_fixed. intros y Hy.
  destruct (H y Hy) as [x [Hx E]]. rewrite <- E.
  now apply mergeAll_saturates.
Qed.

Lemma mergeAll_idempotent items m :
  mergeAll keyOf init f items (mergeAll keyOf init f items m) = mergeAll keyOf init f items m.
Proof. apply mergeAll_absorbs. intros y Hy. exists y. auto. Qed.
End MergeFacts.

(** The merges of the two servers are instances of [mergeAll]. *)
Lemma processItems1_mergeAll (A : Type) (keyOf : A -> string) map items state :
  Server1.processItems keyOf map items state =
  mergeAll keyOf (fun item => Server1.mkEntry [] item) (Server1.addState state)
           items map.
Proof. reflexivity. Qed.

Lemma processItems2_mergeAll (A : Type) (keyOf : A -> string) map items state page :
  Server2.processItems keyOf map items state page =
  mergeAll keyOf (fun item => Server2.mkEntry [] item [])
           (fun e => Server2.addPage page (Server2.addState state e))
           items map.
Proof.
  unfold Server2.processItems, mergeAll. apply fold_left_ext.
  intros m x. unfold upsert. now rewrite mutate_mutate.
Qed.

Lemma processLocalStorage_processItems map items state page :
  Server2.processLocalStorage map items state page =
  Server2.processItems storageKey map items state page.
Proof. reflexivity. Qed.

Lemma addState1_idem (A : Type) st (e : Server1.Entry A) :
  Server1.addState st (Server1.addState st e) = Server1.addState st e.
Proof. unfold Server1.addState; simpl. now rewrite set_add_twice. Qed.

Lemma addBoth2_idem (A : Type) st page (e : Server2.Entry A) :
  Server2.addPage page (Server2.addState st
    (Server2.addPage page (Server2.addState st e))) =
  Server2.addPage page (Server2.addState st e).
Proof.
  unfold Server2.addPage, Server2.addState; simpl. now rewrite !set_add_twice.
Qed.

Lemma grows1_refl (A : Type) (e : Server1.Entry A) : grows1 e e.
Proof. split; [reflexivity|apply incl_refl]. Qed.

Lemma grows1_trans (A : Type) (a b c : Server1.Entry A) :
  grows1 a b -> grows1 b c -> grows1 a c.
Proof.
  intros [D1 S1] [D2 S2]. split; [congruence|eapply incl_tran; eauto].
Qed.

Lemma grows1_addState (A : Type) st (e : Server1.Entry A) :
  grows1 e (Server1.addState st e).
Proof.
  split; [reflexivity|]. intros x Hx. simpl. now apply set_add_keeps.
Qed.

Lemma grows2_refl (A : Type) (e : Server2.Entry A) : grows2 e e.
Proof. repeat split; apply incl_refl. Qed.

Lemma grows2_trans (A : Type) (a b c : Server2.Entry A) :
  grows2 a b -> grows2 b c -> grows2 a c.
Proof.
  intros [D1 [S1 P1]] [D2 [S2 P2]].
  repeat split; [congruence|eapply incl_tran; eauto|eapply incl_tran; eauto].
Qed.

Lemma grows2_add (A : Type) st page (e : Server2.Entry A) :
  grows2 e (Server2.addPage page (Server2.addState st e)).
Proof.
  repeat split; intros x Hx; simpl; now apply set_add_keeps.
Qed.

Lemma processItems1_grows (A : Type) (keyOf : A -> string) items state map k e :
  Js.get k map = Some e ->
  exists e', Js.get k (Server1.processItems keyOf map items state) = Some e'
             /\ grows1 e e'.
Proof.
  rewrite processItems1_mergeAll. apply mergeAll_related.
  - apply grows1_refl.
  - apply grows1_trans.
  - apply grows1_addState.
Qed.

Lemma processItems2_grows (A : Type) (keyOf : A -> string) items state page map k e :
  Js.get k map = Some e ->
  exists e', Js.get k (Server2.processItems keyOf map items state page) = Some e'
             /\ grows2 e e'.
Proof.
  rewrite processItems2_mergeAll. apply mergeAll_related.
  - apply grows2_refl.
  - apply grows2_trans.
  - intros v. apply grows2_add.
Qed.

Lemma merges1_grows (A : Type) (keyOf : A -> string) calls map k e :
  Js.get k map = Some e ->
  exists e', Js.get k (merges1 keyOf calls map) = Some e' /\ grows1 e e'.
Proof.
  revert map e. induction calls as [|[items st] calls IH]; intros map e Hg; simpl.
  - exists e. split; [exact Hg|apply grows1_refl].
  - destruct (@processItems1_grows _ keyOf items st map k e Hg) as [e1 [H1 G1]].
    destruct (IH _ _ H1) as [e' [H' G']].
    exists e'. split; [exact H'|eapply grows1_trans; eauto].
Qed.

Lemma merges2_grows (A : Type) (keyOf : A -> string) calls map k e :
  Js.get k map = Some e ->
  exists e', Js.get k (merges2 keyOf calls map) = Some e' /\ grows2 e e'.
Proof.
  revert map e. induction calls as [|[[items st] pg] calls IH]; intros map e Hg; simpl.
  - exists e. split; [exact Hg|apply grows2_refl].
  - destruct (@processItems2_grows _ keyOf items st pg map k e Hg) as [e1 [H1 G1]].
    destruct (IH _ _ H1) as [e' [H' G']].
    exists e'. split; [exact H'|eapply grows2_trans; eauto].
Qed.

(** The first observation of a new key seeds the entry. *)
Lemma processItems1_first (A : Type) (keyOf : A -> string) item rest state map :
  Js.get (keyOf item) map = None ->
  exists e, Js.get (keyOf item) (Server1.processItems keyOf map (item :: rest) state)
            = Some e
            /\ Server1.data e = item /\ In state (Server1.states e).
Proof.
  intros Hn. simpl.
  destruct (@processItems1_grows A keyOf rest state
              (upsert (keyOf item) (Server1.mkEntry [] item) (Server1.addState state) map)
              (keyOf item)
              (Server1.addState state (Server1.mkEntry [] item)))
    as [e [He [D S]]].
  { rewrite upsert_get_same. unfold current. now rewrite Hn. }
  exists e. split; [exact He|]. split; [exact D|]. apply S. simpl. now left.
Qed.

Lemma processItems2_first (A : Type) (keyOf : A -> string) item rest state page map :
  Js.get (keyOf item) map = None ->
  exists e, Js.get (keyOf item)
              (Server2.processItems keyOf map (item :: rest) state page) = Some e
            /\ Server2.data e = item
            /\ In state (Server2.states e) /\ In page (Server2.pageUrls e).
Proof.
  intros Hn. rewrite processItems2_mergeAll. simpl.
  rewrite <- processItems2_mergeAll.
  destruct (@processItems2_grows A keyOf rest state page
              (upsert (keyOf item) (Server2.mkEntry [] item [])
                      (fun e => Server2.addPage page (Server2.addState state e)) map)
              (keyOf item)
              (Server2.addPage page (Server2.addState state (Server2.mkEntry [] item []))))
    as [e [He [D [S P]]]].
  { rewrite upsert_get_same. unfold current. now rewrite Hn. }
  exists e. split; [exact He|]. split; [exact D|].
  split; [apply S|apply P]; simpl; now left.
Qed.

(** ** C2: merge idempotence *)

(** C2.  Merging again, under the same consent state and page, observations
    whose keys were all part of the merge just done leaves the map as it
    is: every record keeps its payload, its [states] and its [pageUrls],
    and no record is added.  In particular merging the same observations
    twice equals merging them once.  This holds for [processItems] of both
    servers (and for [processLocalStorage], which is [processItems] at the
    storage key). *)
Theorem merge_idempotent (A : Type) (keyOf : A -> string) (items items' : list A)
    (state : ConsentState) (page : string) :
  (forall y, In y items' -> exists x, In x items /\ keyOf x = keyOf y) ->
  (forall map,
     Server2.processItems keyOf
       (Server2.processItems keyOf map items state page) items' state page
     = Server2.processItems keyOf map items state page)
  /\
  (forall map,
     Server1.processItems keyOf
       (Server1.processItems keyOf map items state) items' state
     = Server1.processItems keyOf map items state).
Proof.
  intros H. split; intros map.
  - rewrite !processItems2_mergeAll. apply mergeAll_absorbs; [|exact H].
    intros v. apply addBoth2_idem.
  - rewrite !processItems1_mergeAll. apply mergeAll_absorbs; [|exact H].
    intros v. apply addState1_idem.
Qed.

Lemma merge_idempotent_witness :
  (forall y, In y [gaCookieLater] ->
     exists x, In x [gaCookie] /\ cookieKey x = cookieKey y)
  /\ Server2.processItems cookieKey
       (Server2.processItems cookieKey [] [gaCookie] PreConsent "https://www.example.com/")
       [gaCookieLater] PreConsent "https://www.example.com/"
     = Server2.processItems cookieKey [] [gaCookie] PreConsent "https://www.example.com/".
Proof.
  assert (H : forall y, In y [gaCookieLater] ->
                exists x, In x [gaCookie] /\ cookieKey x = cookieKey y).
  { intros y [<-|[]]. exists gaCookie. split; [now left|reflexivity]. }
  split; [exact H|].
  apply (proj1 (@merge_idempotent Cookie cookieKey [gaCookie] [gaCookieLater]
                  PreConsent "https://www.example.com/" H)).
Defined.

(** ** C3: the merge invariant *)

(** C3.  Along every sequence of calls of [processItems] on a map, a record
    that is stored keeps its payload and its [states] (and [pageUrls]) only
    gain elements; and the record created by the first observation of a key
    carries that observation as payload, whatever is merged later.  Stated
    for the merges of both servers. *)
Theorem merge_invariant (A : Type) (keyOf : A -> string) :
  (forall calls map k e,
     Js.get k map = Some e ->
     exists e', Js.get k (merges2 keyOf calls map) = Some e'
                /\ Server2.data e' = Server2.data e
                /\ incl (Server2.states e) (Server2.states e')
                /\ incl (Server2.pageUrls e) (Server2.pageUrls e'))
  /\
  (forall calls map item rest state page,
     Js.get (keyOf item) map = None ->
     exists e', Js.get (keyOf item)
                  (merges2 keyOf (((item :: rest), state, page) :: calls) map) = Some e'
                /\ Server2.data e' = item
                /\ In state (Server2.states e') /\ In page (Server2.pageUrls e'))
  /\
  (forall calls map k e,
     Js.get k map = Some e ->
     exists e', Js.get k (merges1 keyOf calls map) = Some e'
                /\ Server1.data e' = Server1.data e
                /\ incl (Server1.states e) (Server1.states e'))
  /\
  (forall calls map item rest state,
     Js.get (keyOf item) map = None ->
     exists e', Js.get (keyOf item)
                  (merges1 keyOf (((item :: rest), state) :: calls) map) = Some e'
                /\ Server1.data e' = item /\ In state (Server1.states e')).
Proof.
  repeat split.
  - intros calls map k e Hg.
    destruct (@merges2_grows _ keyOf calls map k e Hg) as [e' [H' [D [S P]]]].
    exists e'. auto.
  - intros calls map item rest state page Hn. simpl.
    destruct (@processItems2_first _ keyOf item rest state page map Hn)
      as [e1 [H1 [D1 [S1 P1]]]].
    destruct (@merges2_grows _ keyOf calls _ _ _ H1) as [e' [H' [D [S P]]]].
    exists e'. split; [exact H'|]. split; [congruence|]. split; auto.
  - intros calls map k e Hg.
    destruct (@merges1_grows _ keyOf calls map k e Hg) as [e' [H' [D S]]].
    exists e'. auto.
  - intros calls map item rest state Hn. simpl.
    destruct (@processItems1_first _ keyOf item rest state map Hn)
      as [e1 [H1 [D1 S1]]].
    destruct (@merges1_grows _ keyOf calls _ _ _ H1) as [e' [H' [D S]]].
    exists e'. split; [exact H'|]. split; [congruence|auto].
Qed.

Lemma merge_invariant_witness :
  Js.get (cookieKey gaCookie) (@nil (string * Server2.Entry Cookie)) = None
  /\ exists e',
       Js.get (cookieKey gaCookie)
         (merges2 cookieKey
            [([gaCookie], PreConsent, "https://www.example.com/");
             ([gaCookieLater], PostRejection, "https://www.example.com/")] [])
       = Some e'
       /\ Server2.data e' = gaCookie
       /\ In PreConsent (Server2.states e')
       /\ In "https://www.example.com/" (Server2.pageUrls e').
Proof.
  split; [reflexivity|].
  apply (proj1 (proj2 (@merge_invariant Cookie cookieKey))). reflexivity.
Defined.

(* ================================================================= *)
(** * Expiry bucketing *)

Lemma Qltb_lt (a b : Q) : Qltb a b = true <-> (a < b)%Q.
Proof.
  unfold Qltb. rewrite negb_true_iff. split.
  - intros H. apply Qnot_le_lt. intros Hle.
    apply Qle_bool_iff in Hle. congruence.
  - intros H. destruct (Qle_bool b a) eqn:E; [|reflexivity].
    apply Qle_bool_iff in E. exfalso. exact (Qlt_not_le _ _ H E).
Qed.

Lemma Qltb_ge (a b : Q) : Qltb a b = false <-> (b <= a)%Q.
Proof.
  unfold Qltb. rewrite negb_false_iff. apply Qle_bool_iff.
Qed.

Lemma string_length_app (a b : string) :
  String.length (a ++ b) = String.length a + String.length b.
Proof. induction a as [|c a IH]; simpl; [reflexivity|now rewrite IH]. Qed.






(* ================================================================= *)
(** * First and third party *)

Lemma mapi_In (A B : Type) (f : nat -> A -> B) (l : list A) (i : nat) (y : B) :
  In y (mapi f i l) -> exists j x, In x l /\ y = f j x.
Proof.
  revert i. induction l as [|a l IH]; intros i H; simpl in H; [contradiction|].
  destruct H as [<-|H].
  - exists i, a. split; [now left|reflexivity].
  - destruct (IH _ H) as [j [x [Hx E]]]. exists j, x. split; [now right|exact E].
Qed.


(** C7, the claim as stated fails: the party is not a comparison against
    the registrable domain of the scanned site.  The sites
    [www.example.com] and [ads.example.com] have one registrable domain,
    [example.com], and the cookie of domain [.example.com] is first party
    when the scan starts at the former and third party when it starts at
    the latter; so no comparison [cmp] against a registrable domain [reg]
    that is the same for the two sites gives the party of the report. *)
Lemma party_ignores_registrable_domain :
  cookieParty "www.example.com" (exampleCookie "id" ".example.com" 0 true) = First
  /\ cookieParty "ads.example.com" (exampleCookie "id" ".example.com" 0 true) = Third
  /\ Server3.mainDomain "www.example.com" = Server3.mainDomain "ads.example.com"
  /\ ~ (exists (reg : string -> string) (cmp : string -> string -> CookieParty),
          reg "www.example.com" = reg "ads.example.com"
          /\ forall host c, cookieParty host c = cmp (domain c) (reg host)).
Proof.
  split; [reflexivity|]. split; [reflexivity|]. split; [reflexivity|].
  intros [reg [cmp [Hreg H]]].
  pose proof (H "www.example.com" (exampleCookie "id" ".example.com" 0 true)) as H1.
  pose proof (H "ads.example.com" (exampleCookie "id" ".example.com" 0 true)) as H2.
  rewrite Hreg in H1. rewrite <- H2 in H1. discriminate H1.
Qed.

(** C7, amended.  For every cookie of the report built from the classifier
    answers ([finalEnrichedCookies] of server 1, [uniqueCookies] of server
    2), the party is [First] exactly when the cookie domain, with a leading
    dot added if it has none, ends with a dot followed by the hostname of
    the scanned URL without a leading [www.]; it is [Third] otherwise.  A
    cookie of domain [.example.com] scanned at hostname [www.example.com]
    is [First], one of domain [.ads.example-cdn.net] is [Third]. *)
Theorem party_by_hostname_suffix :
  (forall host c,
     cookieParty host c
     = if Js.endsWith ("." ++ stripWww host) (dotted (domain c)) then First else Third)
  /\
  (forall now analysis host s info,
     In info (Server1.finalEnrichedCookies now analysis host s) ->
     exists c, In c (Js.values (Server1.allCookieMap s))
               /\ Server1.ci_key info = cookieKey (Server1.data c)
               /\ Server1.ci_party info = cookieParty host (Server1.data c))
  /\
  (forall classify assess now url_ host s r info,
     Server2.report classify assess now url_ host s = Server2.Json r ->
     In info (Server2.uniqueCookies r) ->
     exists c, In c (Js.values (Server2.allCookieMap s))
               /\ Server2.ci_key info = cookieKey (Server2.data c)
               /\ Server2.ci_party info = cookieParty host (Server2.data c))
  /\ stripWww "www.example.com" = "example.com"
  /\ (forall c, domain c = ".example.com" -> cookieParty "www.example.com" c = First)
  /\ (forall c, domain c = ".ads.example-cdn.net" ->
                cookieParty "www.example.com" c = Third).
Proof.
  split; [reflexivity|]. split; [|split; [|split; [reflexivity|split]]].
  - intros now analysis host s info H.
    apply mapi_In in H. destruct H as [j [c [Hc ->]]].
    exists c. repeat split; assumption.
  - intros classify assess now url_ host s r info Hr H.
    unfold Server2.report in Hr.
    destruct (Server2.analyzeAll classify 0 _ _); [|discriminate].
    destruct (assess _); [|discriminate].
    injection Hr as <-. simpl in H.
    apply mapi_In in H. destruct H as [j [c [Hc ->]]].
    exists c. repeat split; assumption.
  - intros c Hd. unfold cookieParty. rewrite Hd. reflexivity.
  - intros c Hd. unfold cookieParty. rewrite Hd. reflexivity.
Qed.

Lemma party_by_hostname_suffix_witness :
  domain (exampleCookie "sid" ".example.com" 0 true) = ".example.com"
  /\ cookieParty "www.example.com" (exampleCookie "sid" ".example.com" 0 true) = First.
Proof.
  split; [reflexivity|].
  apply (proj1 (proj2 (proj2 (proj2 (proj2 party_by_hostname_suffix))))).
  reflexivity.
Defined.

(* ================================================================= *)
(** * The fallback report of server 1 *)

Section Fallback.
Variable classify : nat -> nat -> list Server1.PromptItem -> Outcome (list Server1.Analysis).
Variable assess : Server1.ViolationSummary -> Outcome Server1.Compliance.
Variable now : nat -> Z.



End Fallback.



(* ================================================================= *)
(** * The page observation collector *)

(** Server 1: the call always returns, and when the reload throws the
    trackers captured until then are returned, with a second attempt at
    reading the cookies. *)
Lemma collect1_returns (pg : Server1.ReloadScript) :
  exists d, Server1.runCollect pg = Returned d.
Proof.
  unfold Server1.runCollect, Server1.collectPageData, Server1.fire,
    Eff.tryCatch, Eff.bind, Eff.await, Eff.modify, Eff.read, Eff.ret.
  destruct (Server1.reloadResult pg); simpl; [|eauto].
  destruct (Server1.cookiesResult pg); simpl; eauto.
Qed.

Lemma collect1_partial (pg : Server1.ReloadScript) (msg : string) :
  Server1.reloadResult pg = Threw msg ->
  Server1.runCollect pg
  = Returned {| Server1.cookies := Eff.orDefault (Server1.cookiesRetry pg) [];
                Server1.trackers :=
                  fold_left Server1.requestListener (Server1.duringReload pg) [] |}.
Proof.
  intros H.
  unfold Server1.runCollect, Server1.collectPageData, Server1.fire,
    Eff.tryCatch, Eff.bind, Eff.await, Eff.modify, Eff.read, Eff.ret.
  rewrite H. reflexivity.
Qed.

(** Server 2: the call always returns as well, but whenever a step inside
    the [try] throws, what is returned is the constant [errorCollected]. *)
Lemma collect2_returns parseUrl (pg : Server2.ReloadScript) (root : string) :
  exists d, Server2.runCollect parseUrl pg root = Returned d.
Proof.
  unfold Server2.runCollect, Server2.collectPageData, Server2.fire,
    Eff.tryCatch, Eff.tryFinally, Eff.bind, Eff.await, Eff.modify, Eff.read, Eff.ret.
  destruct (Server2.reloadResult pg); simpl; [|eauto].
  destruct (Server2.createSession pg); simpl.
  - destruct (Server2.cdpCookies pg); simpl;
      destruct (Server2.detachResult pg); simpl; eauto;
      destruct (Server2.evaluateResult pg); simpl; eauto.
  - destruct (Server2.evaluateResult pg); simpl; eauto.
Qed.

Lemma collect2_reload_throws parseUrl (pg : Server2.ReloadScript) (root msg : string) :
  Server2.reloadResult pg = Threw msg ->
  Server2.runCollect parseUrl pg root = Returned errorCollected
  /\ Server2.captured parseUrl pg root
     = fold_left (Server2.requestListener parseUrl root) (Server2.duringReload pg) [].
Proof.
  intros H.
  unfold Server2.runCollect, Server2.captured, Server2.collectPageData, Server2.fire,
    Eff.tryCatch, Eff.tryFinally, Eff.bind, Eff.await, Eff.modify, Eff.read, Eff.ret.
  rewrite H. split; reflexivity.
Qed.

(** C9, at a failing input.  [collectPageData] of server 2 does not throw,
    but when the reload times out after the listener has captured a
    request, the request is not in what the call returns: the [catch]
    block returns fresh empty collections.  The collector of server 1, on
    the same page, returns the captured tracker and the cookies of its
    second read. *)
Theorem collect2_drops_partial_data :
  Server2.captured exampleParseUrl reloadTimesOut "www.example.com"
  = [ {| url := "https://www.google-analytics.com/g/collect?v=2";
         hostname := "www.google-analytics.com" |} ]
  /\ Server2.runCollect exampleParseUrl reloadTimesOut "www.example.com"
     = Returned errorCollected
  /\ Server2.networkRequests errorCollected = []
  /\ Server1.runCollect reloadTimesOut1
     = Returned {| Server1.cookies := [gaCookie];
                   Server1.trackers :=
                     [ "google-analytics.com|https://www.google-analytics.com/g/collect?v=2" ] |}.
Proof. by_evaluation. Qed.

(* ================================================================= *)
(** * Classifier batches *)

(** In server 2 any batch whose analysis throws makes the handler answer
    with an error, whatever the other batches would have returned. *)
Lemma analyzeAll2_throws classify batches index aggregated :
  (exists j b msg, nth_error batches j = Some b
                   /\ Server2.analyzeBatch classify b (index + j) = Threw msg) ->
  exists msg, Server2.analyzeAll classify index batches aggregated = Threw msg.
Proof.
  revert index aggregated.
  induction batches as [|b0 batches IH]; intros index aggregated [j [b [msg [Hn Hf]]]].
  - destruct j; discriminate.
  - simpl. destruct j as [|j]; simpl in Hn.
    + injection Hn as <-. rewrite Nat.add_0_r in Hf. rewrite Hf. eauto.
    + destruct (Server2.analyzeBatch classify b0 index); [|eauto].
      apply IH. exists j, b, msg. rewrite Nat.add_succ_r in Hf. auto.
Qed.

Lemma report2_fails_when_a_batch_fails classify assess now url_ host s j b msg :
  nth_error (batchesOf Server2.BATCH_SIZE (Server2.allItemsToAnalyze s)) j = Some b ->
  Server2.analyzeBatch classify b j = Threw msg ->
  exists message,
    Server2.report classify assess now url_ host s
    = Server2.Failed 500 ("Failed to scan " ++ url_ ++ ". " ++ message).
Proof.
  intros Hn Hf. unfold Server2.report.
  destruct (@analyzeAll2_throws classify
              (batchesOf Server2.BATCH_SIZE (Server2.allItemsToAnalyze s)) 0 [])
    as [message ->].
  - exists j, b, msg. auto.
  - exists message. reflexivity.
Qed.

(** C4, at a failing input.  In server 2 the batch loop has no [try]: when
    the first of two batches still fails after its three attempts, the
    second batch, which would have been classified, is not analysed, and
    the handler answers with an error instead of a report. *)
Theorem report2_aborts_on_failed_batch :
  List.length (batchesOf Server2.BATCH_SIZE (Server2.allItemsToAnalyze crawlOf26)) = 2
  /\ (exists r,
        Server2.analyzeBatch firstBatchGarbled
          (List.nth 1 (batchesOf Server2.BATCH_SIZE (Server2.allItemsToAnalyze crawlOf26)) [])
          1 = Returned r /\ List.length r = 1)
  /\ Server2.report firstBatchGarbled assessHigh (fun _ => 1700000000000%Z)
       "https://www.example.com" "www.example.com" crawlOf26
     = Server2.Failed 500
         "Failed to scan https://www.example.com. Unexpected token < in JSON at position 0".
Proof.
  split; [vm_compute; reflexivity|]. split.
  - eexists. split; vm_compute; reflexivity.
  - vm_compute. reflexivity.
Qed.



Section Containment.
Variable classify : nat -> nat -> list Server1.PromptItem -> Outcome (list Server1.Analysis).
Variable assess : Server1.ViolationSummary -> Outcome Server1.Compliance.
Variable now : nat -> Z.


End Containment.

(* ================================================================= *)
(** * The verdict *)






(* ================================================================= *)
(** * The crawl loop *)

Lemma pushLinks1_core (links : list string) (s : Server1.Crawl) :
  Server1.urlsToVisit (Server1.pushLinks links s)
  = pushed (Server1.visitedUrls s) (Server1.urlsToVisit s) links
  /\ Server1.visitedUrls (Server1.pushLinks links s) = Server1.visitedUrls s
  /\ Server1.gotoLog (Server1.pushLinks links s) = Server1.gotoLog s.
Proof.
  revert s. unfold Server1.pushLinks, pushed.
  induction links as [|l links IH]; intros s; simpl; [auto|].
  destruct (negb (set_mem string_dec l (Server1.visitedUrls s))
            && negb (existsb (String.eqb l) (Server1.urlsToVisit s))) eqn:E.
  - destruct (IH (Server1.setQueue (Server1.urlsToVisit s ++ [l]) s)) as [H1 [H2 H3]].
    simpl in *. auto.
  - apply IH.
Qed.

(** Case analysis on every awaited outcome of a page visit. *)
Ltac visit_cases :=
  repeat match goal with
         | |- context [match ?o with Returned _ => _ | Threw _ => _ end] =>
             destruct o; simpl
         | |- context [if Nat.eqb ?a ?b then _ else _] =>
             destruct (Nat.eqb a b); simpl
         end.

Lemma visitPage1_core (run : Server1.PageRun) (u : string) (s : Server1.Crawl) :
  let s' := snd (Eff.tryCatch (Server1.visitPage run u) (fun _ => Eff.ret tt) s) in
  Server1.gotoLog s' = (Server1.gotoLog s ++ [(u, Server1.isOk (Server1.gotoResult run))])%list
  /\ Server1.visitedUrls s'
     = (if Server1.isOk (Server1.gotoResult run)
        then set_add string_dec u (Server1.visitedUrls s)
        else Server1.visitedUrls s)
  /\ (exists links,
        Server1.urlsToVisit s'
        = pushed (Server1.visitedUrls s') (Server1.urlsToVisit s) links)
  /\ (Server1.isOk (Server1.gotoResult run) = false ->
      Server1.urlsToVisit s' = Server1.urlsToVisit s).
Proof.
  cbv zeta.
  unfold Server1.visitPage, Server1.observe, Eff.tryCatch, Eff.bind, Eff.await,
    Eff.modify, Eff.read, Eff.ret.
  simpl. visit_cases.
  all: try match goal with
           | |- context [Server1.pushLinks ?l ?st] =>
               destruct (pushLinks1_core l st) as [Hq [Hv Hl]];
               simpl in Hq, Hv, Hl; rewrite Hv, Hl;
               split; [reflexivity|split; [reflexivity|
                 split; [exists l; exact Hq|discriminate]]]
           end.
  all: split; [reflexivity|split; [reflexivity|
         split; [exists []; reflexivity|reflexivity]]].
Qed.

Lemma pushed_In visited queue links x :
  In x (pushed visited queue links) ->
  In x queue \/ (In x links /\ ~ In x visited).
Proof.
  revert queue. unfold pushed.
  induction links as [|l links IH]; intros queue H; simpl in H; [now left|].
  destruct (negb (set_mem string_dec l visited)
            && negb (existsb (String.eqb l) queue)) eqn:E.
  - apply IH in H. destruct H as [H|[H1 H2]].
    + apply in_app_or in H. destruct H as [H|[<-|[]]]; [now left|].
      right. split; [now left|].
      apply andb_prop in E. destruct E as [E _]. apply negb_true_iff in E.
      intros Hin. apply (set_mem_correct2 string_dec) in Hin. congruence.
    + right. split; [now right|exact H2].
  - apply IH in H. destruct H as [H|[H1 H2]]; [now left|].
    right. split; [now right|exact H2].
Qed.

Lemma pushed_NoDup visited queue links :
  NoDup queue -> NoDup (pushed visited queue links).
Proof.
  revert queue. unfold pushed.
  induction links as [|l links IH]; intros queue H; simpl; [exact H|].
  destruct (negb (set_mem string_dec l visited)
            && negb (existsb (String.eqb l) queue)) eqn:E; [|now apply IH].
  apply IH. apply andb_prop in E. destruct E as [_ E]. apply negb_true_iff in E.
  apply NoDup_app; [exact H|constructor; [intros []|constructor]|].
  intros x Hx [->|[]].
  assert (existsb (String.eqb x) queue = true); [|congruence].
  apply existsb_exists. exists x. split; [exact Hx|apply String.eqb_refl].
Qed.

Lemma exists_last_or_nil (A : Type) (l : list A) :
  l = [] \/ exists l' x, l = (l' ++ [x])%list.
Proof.
  destruct l as [|a l]; [now left|]. right.
  destruct (@exists_last _ (a :: l)) as [l' [x E]]; [discriminate|].
  exists l', x. exact E.
Qed.

Lemma noRevisit_snoc log u ok :
  noRevisit log -> ~ In (u, true) log -> noRevisit (log ++ [(u, ok)]).
Proof.
  intros Hlog Hu l1 l2 v E Hin.
  destruct (exists_last_or_nil l2) as [->|[l2' [x ->]]].
  - exact Hin.
  - rewrite app_comm_cons, app_assoc in E.
    apply app_inj_tail in E. destruct E as [E <-].
    rewrite map_app in Hin. apply in_app_or in Hin. destruct Hin as [Hin|[Hin|[]]].
    + exact (Hlog _ _ _ E Hin).
    + simpl in Hin. subst v. apply Hu. rewrite E. apply in_or_app. right. now left.
Qed.

Section Crawl1.
Variable hostnameOf : string -> option string.
Variable browse : nat -> string -> Server1.PageRun.
Variable MAX_PAGES_TO_SCAN : nat.
Variable rootHostname : string.

Lemma crawlInvariant1_start (url_ : string) :
  crawlInvariant1 hostnameOf rootHostname (Server1.start url_).
Proof.
  unfold crawlInvariant1; simpl. repeat split.
  - constructor; [intros []|constructor].
  - intros u [].
  - intros [].
  - intros [].
  - intros l1 l2 u E. destruct l1; discriminate.
  - intros u ok [].
Qed.

Lemma crawlInvariant1_step (s s' : Server1.Crawl) :
  crawlInvariant1 hostnameOf rootHostname s ->
  Server1.step hostnameOf browse MAX_PAGES_TO_SCAN rootHostname s = Some s' ->
  crawlInvariant1 hostnameOf rootHostname s'.
Proof.
  intros [Hnd [Hvq [Hvl [Hlog Hhost]]]] Hstep.
  unfold Server1.step in Hstep.
  destruct (Nat.ltb _ _); [|discriminate].
  destruct (Server1.urlsToVisit s) as [|u rest] eqn:Eq; [discriminate|].
  assert (Hskip : crawlInvariant1 hostnameOf rootHostname (Server1.setQueue rest s)).
  { unfold crawlInvariant1; simpl. inversion Hnd; subst.
    repeat split; auto.
    - intros v Hv Hin. apply (Hvq v Hv). now right.
    - apply Hvl.
    - apply Hvl. }
  simpl in Hstep.
  destruct (String.eqb u EmptyString); simpl in Hstep; [now injection Hstep as <-|].
  destruct (set_mem string_dec u (Server1.visitedUrls s)) eqn:Emem;
    [now injection Hstep as <-|].
  destruct (hostnameOf u) as [h|] eqn:Eh; [|now injection Hstep as <-].
  destruct (String.eqb h rootHostname) eqn:Ehr; simpl in Hstep;
    [|now injection Hstep as <-].
  apply String.eqb_eq in Ehr. subst h.
  injection Hstep as <-.
  pose proof (visitPage1_core (browse (List.length (Server1.gotoLog s)) u) u
                (Server1.setQueue rest s)) as Hcore.
  cbv zeta in Hcore. simpl in Hcore.
  set (s' := snd (Eff.tryCatch _ _ (Server1.setQueue rest s))) in *.
  destruct Hcore as [Hl [Hv [[links Hq] _]]].
  assert (Hnotvis : ~ In u (Server1.visitedUrls s)).
  { intros Hin. apply (set_mem_correct2 string_dec) in Hin. congruence. }
  assert (Hnotlog : ~ In (u, true) (Server1.gotoLog s)).
  { intros Hin. apply Hnotvis. now apply Hvl. }
  inversion Hnd as [|? ? Hurest Hndrest]; subst.
  unfold crawlInvariant1. rewrite Hl, Hq. repeat split.
  - now apply pushed_NoDup.
  - intros v Hv' Hin. apply pushed_In in Hin. destruct Hin as [Hin|[_ Hin]]; [|auto].
    rewrite Hv in Hv'. destruct (Server1.isOk _).
    + apply set_add_elim in Hv'. destruct Hv' as [->|Hv']; [auto|].
      apply (Hvq v Hv'). now right.
    + apply (Hvq v Hv'). now right.
  - intros Hin. rewrite Hv in Hin. apply in_or_app.
    destruct (Server1.isOk _).
    + apply set_add_elim in Hin. destruct Hin as [->|Hin]; [right; now left|].
      left. now apply Hvl.
    + left. now apply Hvl.
  - intros Hin. rewrite Hv. apply in_app_or in Hin.
    destruct Hin as [Hin|[Hin|[]]].
    + apply Hvl in Hin. destruct (Server1.isOk _); [now apply set_add_keeps|exact Hin].
    + injection Hin as <- E. rewrite E. apply set_add_has.
  - now apply noRevisit_snoc.
  - intros v ok Hin. apply in_app_or in Hin. destruct Hin as [Hin|[Hin|[]]].
    + eapply Hhost; eassumption.
    + injection Hin as <- _. exact Eh.
Qed.

Lemma crawlInvariant1_crawl (fuel : nat) (s : Server1.Crawl) :
  crawlInvariant1 hostnameOf rootHostname s ->
  crawlInvariant1 hostnameOf rootHostname
    (Server1.crawl hostnameOf browse MAX_PAGES_TO_SCAN rootHostname fuel s).
Proof.
  revert s. induction fuel as [|fuel IH]; intros s H; simpl; [exact H|].
  destruct (Server1.step _ _ _ _ s) as [s'|] eqn:E; [|exact H].
  apply IH. eapply crawlInvariant1_step; eassumption.
Qed.
End Crawl1.

(** ** Server 2: the prioritised frontier *)

Lemma insertItem_perm (x : Server2.QueueItem) (l : list Server2.QueueItem) :
  Permutation (Server2.insertItem x l) (x :: l).
Proof.
  induction l as [|y l IH]; simpl; [apply Permutation_refl|].
  destruct (Nat.leb _ _); [apply Permutation_refl|].
  eapply perm_trans; [apply perm_skip, IH|apply perm_swap].
Qed.

Lemma sortByPriority_perm (l : list Server2.QueueItem) :
  Permutation (Server2.sortByPriority l) l.
Proof.
  induction l as [|x l IH]; simpl; [apply perm_nil|].
  eapply perm_trans; [apply insertItem_perm|now apply perm_skip].
Qed.

Lemma existsb_queueUrls (l : string) (q : list Server2.QueueItem) :
  existsb (fun item => String.eqb (Server2.q_url item) l) q
  = existsb (String.eqb l) (queueUrls q).
Proof.
  induction q as [|x q IH]; simpl; [reflexivity|].
  now rewrite IH, String.eqb_sym.
Qed.

Lemma pushLinks2_core (links : list Server2.Link) (s : Server2.Crawl) :
  queueUrls (Server2.urlsToVisit (Server2.pushLinks links s))
  = pushed (Server2.visitedUrls s) (queueUrls (Server2.urlsToVisit s))
           (List.map Server2.href links)
  /\ Server2.visitedUrls (Server2.pushLinks links s) = Server2.visitedUrls s
  /\ Server2.gotoLog (Server2.pushLinks links s) = Server2.gotoLog s.
Proof.
  revert s. unfold Server2.pushLinks, pushed.
  induction links as [|l links IH]; intros s; simpl; [auto|].
  rewrite existsb_queueUrls.
  destruct (negb (set_mem string_dec (Server2.href l) (Server2.visitedUrls s))
            && negb (existsb (String.eqb (Server2.href l))
                             (queueUrls (Server2.urlsToVisit s)))) eqn:E.
  - match goal with
    | |- context [fold_left _ links (Server2.setQueue ?q s)] =>
        destruct (IH (Server2.setQueue q s)) as [H1 [H2 H3]]
    end.
    simpl in *. unfold queueUrls in *. rewrite map_app in H1. simpl in H1. auto.
  - apply IH.
Qed.

Lemma visitPage2_core parseUrl root (run : Server2.PageRun) (u : string)
    (s : Server2.Crawl) :
  let s' := snd (Eff.tryCatch (Server2.visitPage parseUrl root run u)
                   (fun _ => Eff.ret tt) s) in
  Server2.gotoLog s'
  = (Server2.gotoLog s ++ [(u, Server2.isOk (Server2.gotoResult run))])%list
  /\ Server2.visitedUrls s'
     = (if Server2.isOk (Server2.gotoResult run)
        then set_add string_dec u (Server2.visitedUrls s)
        else Server2.visitedUrls s)
  /\ (exists links,
        queueUrls (Server2.urlsToVisit s')
        = pushed (Server2.visitedUrls s') (queueUrls (Server2.urlsToVisit s)) links)
  /\ (Server2.isOk (Server2.gotoResult run) = false ->
      Server2.urlsToVisit s' = Server2.urlsToVisit s).
Proof.
  cbv zeta.
  unfold Server2.visitPage, Server2.observe, Eff.tryCatch, Eff.bind, Eff.await,
    Eff.modify, Eff.read, Eff.ret.
  simpl. visit_cases.
  all: try match goal with
           | |- context [Server2.pushLinks ?l ?st] =>
               destruct (pushLinks2_core l st) as [Hq [Hv Hl]];
               simpl in Hq, Hv, Hl; rewrite Hv, Hl;
               split; [reflexivity|split; [reflexivity|
                 split; [eexists; exact Hq|discriminate]]]
           end.
  all: split; [reflexivity|split; [reflexivity|
         split; [exists []; reflexivity|reflexivity]]].
Qed.

Section Crawl2.
Variable parseUrl : string -> option Server2.ParsedUrl.
Variable browse : nat -> string -> Server2.PageRun.
Variable MAX_PAGES_TO_SCAN : nat.
Variable rootHostname : string.

Lemma crawlInvariant2_start (url_ : string) :
  crawlInvariant2 parseUrl rootHostname (Server2.start url_).
Proof.
  unfold crawlInvariant2; simpl. repeat split.
  - constructor; [intros []|constructor].
  - intros u [].
  - intros [].
  - intros [].
  - intros l1 l2 u E. destruct l1; discriminate.
  - intros u ok [].
Qed.

Lemma crawlInvariant2_step (s s' : Server2.Crawl) :
  crawlInvariant2 parseUrl rootHostname s ->
  Server2.step parseUrl browse MAX_PAGES_TO_SCAN rootHostname s = Some s' ->
  crawlInvariant2 parseUrl rootHostname s'.
Proof.
  intros [Hnd [Hvq [Hvl [Hlog Hhost]]]] Hstep.
  unfold Server2.step in Hstep.
  destruct (Nat.ltb _ _); [|discriminate].
  pose proof (sortByPriority_perm (Server2.urlsToVisit s)) as Hperm.
  destruct (Server2.sortByPriority (Server2.urlsToVisit s)) as [|item rest] eqn:Eq;
    [discriminate|].
  apply (Permutation_map Server2.q_url) in Hperm. fold queueUrls in Hperm.
  change (List.map Server2.q_url (item :: rest))
    with (Server2.q_url item :: queueUrls rest) in Hperm.
  set (u := Server2.q_url item) in *.
  assert (Hnd' : NoDup (u :: queueUrls rest)).
  { eapply Permutation_NoDup; [apply Permutation_sym; exact Hperm|exact Hnd]. }
  assert (Hsub : forall v, In v (queueUrls rest) ->
                           In v (queueUrls (Server2.urlsToVisit s))).
  { intros v Hv. eapply Permutation_in; [exact Hperm|now right]. }
  assert (Hskip : crawlInvariant2 parseUrl rootHostname (Server2.setQueue rest s)).
  { unfold crawlInvariant2; simpl. inversion Hnd'; subst.
    repeat split; auto.
    - intros v Hv Hin. apply (Hvq v Hv). now apply Hsub.
    - apply Hvl.
    - apply Hvl. }
  simpl in Hstep.
  destruct (set_mem string_dec u (Server2.visitedUrls s)) eqn:Emem;
    [now injection Hstep as <-|].
  destruct (parseUrl u) as [pu|] eqn:Eh; [|now injection Hstep as <-].
  destruct (String.eqb (Server2.u_hostname pu) rootHostname) eqn:Ehr; simpl in Hstep;
    [|now injection Hstep as <-].
  apply String.eqb_eq in Ehr.
  injection Hstep as <-.
  pose proof (visitPage2_core parseUrl rootHostname
                (browse (List.length (Server2.gotoLog s)) u) u
                (Server2.setQueue rest s)) as Hcore.
  cbv zeta in Hcore. simpl in Hcore.
  set (s' := snd (Eff.tryCatch _ _ (Server2.setQueue rest s))) in *.
  destruct Hcore as [Hl [Hv [[links Hq] _]]].
  assert (Hnotvis : ~ In u (Server2.visitedUrls s)).
  { intros Hin. apply (set_mem_correct2 string_dec) in Hin. congruence. }
  assert (Hnotlog : ~ In (u, true) (Server2.gotoLog s)).
  { intros Hin. apply Hnotvis. now apply Hvl. }
  inversion Hnd' as [|? ? Hurest Hndrest]; subst.
  unfold crawlInvariant2. rewrite Hl, Hq. repeat split.
  - now apply pushed_NoDup.
  - intros v Hv' Hin. apply pushed_In in Hin. destruct Hin as [Hin|[_ Hin]]; [|auto].
    rewrite Hv in Hv'. destruct (Server2.isOk _).
    + apply set_add_elim in Hv'. destruct Hv' as [->|Hv']; [auto|].
      apply (Hvq v Hv'). now apply Hsub.
    + apply (Hvq v Hv'). now apply Hsub.
  - intros Hin. rewrite Hv in Hin. apply in_or_app.
    destruct (Server2.isOk _).
    + apply set_add_elim in Hin. destruct Hin as [->|Hin]; [right; now left|].
      left. now apply Hvl.
    + left. now apply Hvl.
  - intros Hin. rewrite Hv. apply in_app_or in Hin.
    destruct Hin as [Hin|[Hin|[]]].
    + apply Hvl in Hin. destruct (Server2.isOk _); [now apply set_add_keeps|exact Hin].
    + injection Hin as <- E. rewrite E. apply set_add_has.
  - now apply noRevisit_snoc.
  - intros v ok Hin. apply in_app_or in Hin. destruct Hin as [Hin|[Hin|[]]].
    + eapply Hhost; eassumption.
    + injection Hin as <- _. unfold hostnameOf2. rewrite Eh. reflexivity.
Qed.

Lemma crawlInvariant2_crawl (fuel : nat) (s : Server2.Crawl) :
  crawlInvariant2 parseUrl rootHostname s ->
  crawlInvariant2 parseUrl rootHostname
    (Server2.crawl parseUrl browse MAX_PAGES_TO_SCAN rootHostname fuel s).
Proof.
  revert s. induction fuel as [|fuel IH]; intros s H; simpl; [exact H|].
  destruct (Server2.step _ _ _ _ s) as [s'|] eqn:E; [|exact H].
  apply IH. eapply crawlInvariant2_step; eassumption.
Qed.
End Crawl2.

(** ** C6: frontier dedup *)

(** C6.  In every state a crawl reaches from its start, a URL of the
    visited set is not on the frontier, the frontier holds no URL twice,
    the visited set holds exactly the URLs whose navigation resolved, and
    the navigation log never passes a URL to [page.goto] again after a
    navigation to it has resolved.  The link loop itself never enqueues a
    visited URL, whatever page the link was found on.  Stated for the
    crawl loops of both servers. *)
Theorem frontier_dedup :
  (forall hostnameOf browse maxPages root url_ fuel,
     let s := Server1.crawl hostnameOf browse maxPages root fuel (Server1.start url_) in
     (forall u, In u (Server1.visitedUrls s) -> ~ In u (Server1.urlsToVisit s))
     /\ NoDup (Server1.urlsToVisit s)
     /\ (forall u, In u (Server1.visitedUrls s) <-> In (u, true) (Server1.gotoLog s))
     /\ noRevisit (Server1.gotoLog s))
  /\
  (forall parseUrl browse maxPages root url_ fuel,
     let s := Server2.crawl parseUrl browse maxPages root fuel (Server2.start url_) in
     (forall u, In u (Server2.visitedUrls s) ->
                ~ In u (queueUrls (Server2.urlsToVisit s)))
     /\ NoDup (queueUrls (Server2.urlsToVisit s))
     /\ (forall u, In u (Server2.visitedUrls s) <-> In (u, true) (Server2.gotoLog s))
     /\ noRevisit (Server2.gotoLog s))
  /\
  (forall links s u,
     In u (Server1.visitedUrls s) ->
     In u (Server1.urlsToVisit (Server1.pushLinks links s)) ->
     In u (Server1.urlsToVisit s))
  /\
  (forall links s u,
     In u (Server2.visitedUrls s) ->
     In u (queueUrls (Server2.urlsToVisit (Server2.pushLinks links s))) ->
     In u (queueUrls (Server2.urlsToVisit s))).
Proof.
  split; [|split; [|split]].
  - intros hostnameOf browse maxPages root url_ fuel s.
    destruct (@crawlInvariant1_crawl hostnameOf browse maxPages root fuel
                (Server1.start url_) (crawlInvariant1_start hostnameOf root url_))
      as [H1 [H2 [H3 [H4 _]]]].
    auto.
  - intros parseUrl browse maxPages root url_ fuel s.
    destruct (@crawlInvariant2_crawl parseUrl browse maxPages root fuel
                (Server2.start url_) (crawlInvariant2_start parseUrl root url_))
      as [H1 [H2 [H3 [H4 _]]]].
    auto.
  - intros links s u Hv Hin.
    rewrite (proj1 (pushLinks1_core links s)) in Hin.
    apply pushed_In in Hin. destruct Hin as [Hin|[_ Hn]]; [exact Hin|contradiction].
  - intros links s u Hv Hin.
    rewrite (proj1 (pushLinks2_core links s)) in Hin.
    apply pushed_In in Hin. destruct Hin as [Hin|[_ Hn]]; [exact Hin|contradiction].
Qed.

(** The run of the crawl on that site: both pages are visited once, the
    link to the other subdomain is dequeued and skipped. *)
Example twoPageCrawl_run :
  Server1.gotoLog (twoPageCrawl 10)
  = [("https://www.example.com/", true); ("https://www.example.com/about", true)]
  /\ Server1.visitedUrls (twoPageCrawl 10)
     = ["https://www.example.com/"; "https://www.example.com/about"]
  /\ Server1.urlsToVisit (twoPageCrawl 10) = []
  /\ Server1.urlsToVisit (twoPageCrawl 1)
     = ["https://www.example.com/about"; "https://ads.example.com/"].
Proof. by_evaluation. Qed.

Lemma frontier_dedup_witness :
  In "https://www.example.com/" (Server1.visitedUrls (twoPageCrawl 1))
  /\ ~ In "https://www.example.com/" (Server1.urlsToVisit (twoPageCrawl 1)).
Proof.
  assert (H : In "https://www.example.com/" (Server1.visitedUrls (twoPageCrawl 1)))
    by (vm_compute; now left).
  split; [exact H|].
  exact (proj1 (proj1 frontier_dedup twoPageHostname twoPageSite 10 "www.example.com"
                  "https://www.example.com/" 1)
               "https://www.example.com/" H).
Defined.

(** ** C5: which dequeued URLs are visited *)

(** C5, the claim as stated fails: the check of the loop compares whole
    hostnames.  While [www.example.com] is scanned, a dequeued URL on
    [ads.example.com], a subdomain of the same registrable domain, is
    skipped by the check: the iteration only removes it from the frontier
    and nothing is navigated to.  This is so in both servers. *)
Lemma subdomain_is_skipped :
  twoPageHostname "https://ads.example.com/" = Some "ads.example.com"
  /\ Server3.mainDomain "ads.example.com" = Server3.mainDomain "www.example.com"
  /\ Server1.step twoPageHostname twoPageSite 10 "www.example.com"
       (frontierOf "https://ads.example.com/")
     = Some (Server1.setQueue [] (Server1.start "https://www.example.com/"))
  /\ Server2.step exampleParseHost anyPage2 10 "www.example.com"
       (Server2.setQueue [{| Server2.q_url := "https://ads.example.com/";
                             Server2.priority := 2 |}]
          (Server2.start "https://www.example.com/"))
     = Some (Server2.setQueue [] (Server2.start "https://www.example.com/")).
Proof. by_evaluation. Qed.

Lemma step1_skips hostnameOf browse maxPages root s u rest :
  Server1.urlsToVisit s = u :: rest ->
  List.length (Server1.visitedUrls s) < maxPages ->
  u = EmptyString \/ In u (Server1.visitedUrls s) \/ hostnameOf u <> Some root ->
  Server1.step hostnameOf browse maxPages root s = Some (Server1.setQueue rest s).
Proof.
  intros Hq Hlt H. unfold Server1.step.
  apply Nat.ltb_lt in Hlt. rewrite Hlt, Hq. simpl.
  destruct (String.eqb u EmptyString) eqn:E0; [reflexivity|].
  destruct (set_mem string_dec u (Server1.visitedUrls s)) eqn:Em; [reflexivity|].
  simpl.
  destruct H as [H|[H|H]].
  - apply String.eqb_neq in E0. contradiction.
  - apply (set_mem_correct2 string_dec) in H. congruence.
  - destruct (hostnameOf u) as [h|]; [|reflexivity].
    destruct (String.eqb h root) eqn:Eh; [|reflexivity].
    apply String.eqb_eq in Eh. subst h. contradiction.
Qed.

Lemma step1_navigates hostnameOf browse maxPages root s u rest :
  Server1.urlsToVisit s = u :: rest ->
  List.length (Server1.visitedUrls s) < maxPages ->
  u <> EmptyString -> ~ In u (Server1.visitedUrls s) -> hostnameOf u = Some root ->
  exists s', Server1.step hostnameOf browse maxPages root s = Some s'
    /\ Server1.gotoLog s'
       = (Server1.gotoLog s
          ++ [(u, Server1.isOk (Server1.gotoResult
                                  (browse (List.length (Server1.gotoLog s)) u)))])%list.
Proof.
  intros Hq Hlt H0 Hv Hh. unfold Server1.step.
  apply Nat.ltb_lt in Hlt. rewrite Hlt, Hq. simpl.
  apply String.eqb_neq in H0. rewrite H0.
  destruct (set_mem string_dec u (Server1.visitedUrls s)) eqn:Em.
  { apply (set_mem_correct1 string_dec) in Em. contradiction. }
  simpl. rewrite Hh, String.eqb_refl. simpl.
  eexists. split; [reflexivity|].
  apply (visitPage1_core (browse (List.length (Server1.gotoLog s)) u) u
           (Server1.setQueue rest s)).
Qed.

Lemma step2_skips parseUrl browse maxPages root s item rest :
  Server2.sortByPriority (Server2.urlsToVisit s) = item :: rest ->
  List.length (Server2.visitedUrls s) < maxPages ->
  In (Server2.q_url item) (Server2.visitedUrls s)
  \/ hostnameOf2 parseUrl (Server2.q_url item) <> Some root ->
  Server2.step parseUrl browse maxPages root s = Some (Server2.setQueue rest s).
Proof.
  intros Hq Hlt H. unfold Server2.step.
  apply Nat.ltb_lt in Hlt. rewrite Hlt, Hq. simpl.
  destruct (set_mem string_dec (Server2.q_url item) (Server2.visitedUrls s)) eqn:Em;
    [reflexivity|].
  destruct H as [H|H].
  - apply (set_mem_correct2 string_dec) in H. congruence.
  - unfold hostnameOf2 in H.
    destruct (parseUrl (Server2.q_url item)) as [pu|]; [|reflexivity].
    destruct (String.eqb (Server2.u_hostname pu) root) eqn:Eh; [|reflexivity].
    apply String.eqb_eq in Eh. simpl in H. subst root. contradiction.
Qed.

Lemma step2_navigates parseUrl browse maxPages root s item rest :
  Server2.sortByPriority (Server2.urlsToVisit s) = item :: rest ->
  List.length (Server2.visitedUrls s) < maxPages ->
  ~ In (Server2.q_url item) (Server2.visitedUrls s) ->
  hostnameOf2 parseUrl (Server2.q_url item) = Some root ->
  exists s', Server2.step parseUrl browse maxPages root s = Some s'
    /\ Server2.gotoLog s'
       = (Server2.gotoLog s
          ++ [(Server2.q_url item,
               Server2.isOk (Server2.gotoResult
                               (browse (List.length (Server2.gotoLog s))
                                       (Server2.q_url item))))])%list.
Proof.
  intros Hq Hlt Hv Hh. unfold Server2.step.
  apply Nat.ltb_lt in Hlt. rewrite Hlt, Hq. simpl.
  destruct (set_mem string_dec (Server2.q_url item) (Server2.visitedUrls s)) eqn:Em.
  { apply (set_mem_correct1 string_dec) in Em. contradiction. }
  unfold hostnameOf2 in Hh.
  destruct (parseUrl (Server2.q_url item)) as [pu|]; [|discriminate].
  simpl in Hh. injection Hh as Hh. rewrite Hh, String.eqb_refl. simpl.
  eexists. split; [reflexivity|].
  apply (visitPage2_core parseUrl root
           (browse (List.length (Server2.gotoLog s)) (Server2.q_url item))
           (Server2.q_url item) (Server2.setQueue rest s)).
Qed.

(** C5, amended.  In the crawl loops of servers 1 and 2 a dequeued URL is
    skipped (the iteration only removes it from the frontier) when it is
    already visited, when it does not parse, or when its hostname is not
    equal to the hostname of the root URL (server 1 also skips the empty
    string); otherwise it is passed to [page.goto].  So a URL on another
    subdomain of the root's registrable domain is excluded, and every URL
    that is navigated to or visited has the hostname of the root, hence
    whatever registrable domain the root has. *)
Theorem same_hostname_rule :
  (forall hostnameOf browse maxPages root s u rest,
     Server1.urlsToVisit s = u :: rest ->
     List.length (Server1.visitedUrls s) < maxPages ->
     (u = EmptyString \/ In u (Server1.visitedUrls s) \/ hostnameOf u <> Some root ->
      Server1.step hostnameOf browse maxPages root s = Some (Server1.setQueue rest s))
     /\
     (u <> EmptyString -> ~ In u (Server1.visitedUrls s) -> hostnameOf u = Some root ->
      exists s', Server1.step hostnameOf browse maxPages root s = Some s'
        /\ Server1.gotoLog s'
           = (Server1.gotoLog s
              ++ [(u, Server1.isOk (Server1.gotoResult
                                      (browse (List.length (Server1.gotoLog s)) u)))])%list))
  /\
  (forall parseUrl browse maxPages root s item rest,
     Server2.sortByPriority (Server2.urlsToVisit s) = item :: rest ->
     List.length (Server2.visitedUrls s) < maxPages ->
     (In (Server2.q_url item) (Server2.visitedUrls s)
      \/ hostnameOf2 parseUrl (Server2.q_url item) <> Some root ->
      Server2.step parseUrl browse maxPages root s = Some (Server2.setQueue rest s))
     /\
     (~ In (Server2.q_url item) (Server2.visitedUrls s) ->
      hostnameOf2 parseUrl (Server2.q_url item) = Some root ->
      exists s', Server2.step parseUrl browse maxPages root s = Some s'
        /\ Server2.gotoLog s'
           = (Server2.gotoLog s
              ++ [(Server2.q_url item,
                   Server2.isOk (Server2.gotoResult
                                   (browse (List.length (Server2.gotoLog s))
                                           (Server2.q_url item))))])%list))
  /\
  (forall hostnameOf browse maxPages root url_ fuel (registrable : string -> string),
     let s := Server1.crawl hostnameOf browse maxPages root fuel (Server1.start url_) in
     forall u,
       (exists ok, In (u, ok) (Server1.gotoLog s)) \/ In u (Server1.visitedUrls s) ->
       hostnameOf u = Some root
       /\ option_map registrable (hostnameOf u) = Some (registrable root))
  /\
  (forall parseUrl browse maxPages root url_ fuel (registrable : string -> string),
     let s := Server2.crawl parseUrl browse maxPages root fuel (Server2.start url_) in
     forall u,
       (exists ok, In (u, ok) (Server2.gotoLog s)) \/ In u (Server2.visitedUrls s) ->
       hostnameOf2 parseUrl u = Some root
       /\ option_map registrable (hostnameOf2 parseUrl u) = Some (registrable root)).
Proof.
  split; [|split; [|split]].
  - intros hostnameOf browse maxPages root s u rest Hq Hlt.
    split; [now apply step1_skips|now apply step1_navigates with (rest := rest)].
  - intros parseUrl browse maxPages root s item rest Hq Hlt.
    split; [now apply step2_skips|now apply step2_navigates with (rest := rest)].
  - intros hostnameOf browse maxPages root url_ fuel registrable s u H.
    destruct (@crawlInvariant1_crawl hostnameOf browse maxPages root fuel
                (Server1.start url_) (crawlInvariant1_start hostnameOf root url_))
      as [_ [_ [H3 [_ H5]]]].
    assert (E : hostnameOf u = Some root).
    { destruct H as [[ok H]|H]; [exact (H5 u ok H)|].
      apply H3 in H. exact (H5 u true H). }
    split; [exact E|now rewrite E].
  - intros parseUrl browse maxPages root url_ fuel registrable s u H.
    destruct (@crawlInvariant2_crawl parseUrl browse maxPages root fuel
                (Server2.start url_) (crawlInvariant2_start parseUrl root url_))
      as [_ [_ [H3 [_ H5]]]].
    assert (E : hostnameOf2 parseUrl u = Some root).
    { destruct H as [[ok H]|H]; [exact (H5 u ok H)|].
      apply H3 in H. exact (H5 u true H). }
    split; [exact E|now rewrite E].
Qed.

Lemma same_hostname_rule_witness :
  Server1.urlsToVisit (frontierOf "https://ads.example.com/")
  = ["https://ads.example.com/"]
  /\ List.length (Server1.visitedUrls (frontierOf "https://ads.example.com/")) < 10
  /\ twoPageHostname "https://ads.example.com/" <> Some "www.example.com"
  /\ Server1.step twoPageHostname twoPageSite 10 "www.example.com"
       (frontierOf "https://ads.example.com/")
     = Some (Server1.setQueue [] (frontierOf "https://ads.example.com/")).
Proof.
  assert (H1 : Server1.urlsToVisit (frontierOf "https://ads.example.com/")
               = ["https://ads.example.com/"]) by reflexivity.
  assert (H2 : List.length (Server1.visitedUrls (frontierOf "https://ads.example.com/"))
               < 10) by (simpl; lia).
  assert (H3 : twoPageHostname "https://ads.example.com/" <> Some "www.example.com")
    by (vm_compute; discriminate).
  split; [exact H1|]. split; [exact H2|]. split; [exact H3|].
  apply (proj1 (proj1 same_hostname_rule twoPageHostname twoPageSite 10
                  "www.example.com" (frontierOf "https://ads.example.com/")
                  "https://ads.example.com/" [] H1 H2)).
  right. right. exact H3.
Defined.

(** The streaming variant compares by suffix instead: a subdomain passes
    its check, and so does any hostname that merely ends with the last two
    labels of the root's. *)
Lemma skipped3_examples :
  Server3.mainDomain "www.example.com" = "example.com"
  /\ Server3.skipped "www.example.com" "ads.example.com" = false
  /\ Server3.skipped "www.example.com" "notexample.com" = false
  /\ Server3.skipped "www.example.com" "www.example.org" = true.
Proof. by_evaluation. Qed.

(** ** The loop ends *)

(** Every iteration either leaves the visited set and shortens the
    frontier, or adds a URL to the visited set, which the page budget
    bounds. *)
Lemma step1_measure hostnameOf browse maxPages root s s' :
  Server1.step hostnameOf browse maxPages root s = Some s' ->
  List.length (Server1.visitedUrls s) < maxPages
  /\ ((Server1.visitedUrls s' = Server1.visitedUrls s
       /\ List.length (Server1.urlsToVisit s') < List.length (Server1.urlsToVisit s))
      \/ List.length (Server1.visitedUrls s') = S (List.length (Server1.visitedUrls s))).
Proof.
  intros Hstep. unfold Server1.step in Hstep.
  destruct (Nat.ltb _ _) eqn:Elt; [|discriminate].
  apply Nat.ltb_lt in Elt. split; [exact Elt|].
  destruct (Server1.urlsToVisit s) as [|u rest] eqn:Eq; [discriminate|].
  simpl in Hstep.
  destruct (String.eqb u EmptyString); simpl in Hstep;
    [injection Hstep as <-; left; simpl; auto|].
  destruct (set_mem string_dec u (Server1.visitedUrls s)) eqn:Emem;
    [injection Hstep as <-; left; simpl; auto|].
  destruct (hostnameOf u) as [h|]; [|injection Hstep as <-; left; simpl; auto].
  destruct (String.eqb h root); simpl in Hstep;
    [|injection Hstep as <-; left; simpl; auto].
  injection Hstep as <-.
  destruct (visitPage1_core (browse (List.length (Server1.gotoLog s)) u) u
              (Server1.setQueue rest s)) as [_ [Hv [_ Hfail]]].
  simpl in Hv, Hfail.
  destruct (Server1.isOk _).
  - right. rewrite Hv. apply set_add_length.
    intros Hin. apply (set_mem_correct2 string_dec) in Hin. congruence.
  - left. rewrite Hv, Hfail by reflexivity. auto.
Qed.

Lemma step2_measure parseUrl browse maxPages root s s' :
  Server2.step parseUrl browse maxPages root s = Some s' ->
  List.length (Server2.visitedUrls s) < maxPages
  /\ ((Server2.visitedUrls s' = Server2.visitedUrls s
       /\ List.length (Server2.urlsToVisit s') < List.length (Server2.urlsToVisit s))
      \/ List.length (Server2.visitedUrls s') = S (List.length (Server2.visitedUrls s))).
Proof.
  intros Hstep. unfold Server2.step in Hstep.
  destruct (Nat.ltb _ _) eqn:Elt; [|discriminate].
  apply Nat.ltb_lt in Elt. split; [exact Elt|].
  pose proof (Permutation_length (sortByPriority_perm (Server2.urlsToVisit s))) as Hlen.
  destruct (Server2.sortByPriority (Server2.urlsToVisit s)) as [|item rest] eqn:Eq;
    [discriminate|].
  simpl in Hlen. simpl in Hstep.
  destruct (set_mem string_dec (Server2.q_url item) (Server2.visitedUrls s)) eqn:Emem;
    [injection Hstep as <-; left; simpl; split; [reflexivity|lia]|].
  destruct (parseUrl (Server2.q_url item)) as [pu|];
    [|injection Hstep as <-; left; simpl; split; [reflexivity|lia]].
  destruct (String.eqb (Server2.u_hostname pu) root); simpl in Hstep;
    [|injection Hstep as <-; left; simpl; split; [reflexivity|lia]].
  injection Hstep as <-.
  destruct (visitPage2_core parseUrl root
              (browse (List.length (Server2.gotoLog s)) (Server2.q_url item))
              (Server2.q_url item) (Server2.setQueue rest s)) as [_ [Hv [_ Hfail]]].
  simpl in Hv, Hfail.
  destruct (Server2.isOk _).
  - right. rewrite Hv. apply set_add_length.
    intros Hin. apply (set_mem_correct2 string_dec) in Hin. congruence.
  - left. rewrite Hv, Hfail by reflexivity. split; [reflexivity|lia].
Qed.

(** Both crawl loops reach a state in which the loop condition is false,
    whatever the browser does: some amount of fuel is enough. *)
Lemma crawl1_terminates hostnameOf browse maxPages root (s : Server1.Crawl) :
  exists fuel,
    Server1.step hostnameOf browse maxPages root
      (Server1.crawl hostnameOf browse maxPages root fuel s) = None.
Proof.
  assert (G : forall n q s,
            maxPages - List.length (Server1.visitedUrls s) <= n ->
            List.length (Server1.urlsToVisit s) <= q ->
            exists fuel,
              Server1.step hostnameOf browse maxPages root
                (Server1.crawl hostnameOf browse maxPages root fuel s) = None).
  { induction n as [|n IHn].
    - intros q s0 Hn _.
      destruct (Server1.step hostnameOf browse maxPages root s0) as [s'|] eqn:E.
      + apply step1_measure in E. lia.
      + exists 0. exact E.
    - induction q as [|q IHq]; intros s0 Hn Hq;
        (destruct (Server1.step hostnameOf browse maxPages root s0) as [s'|] eqn:E;
         [|exists 0; exact E]);
        pose proof (step1_measure _ _ _ _ _ E) as [Hlt [[Hv Hl]|Hv]].
      + lia.
      + destruct (IHn (List.length (Server1.urlsToVisit s')) s') as [fuel Hf];
          [lia|lia|]. exists (S fuel). simpl. now rewrite E.
      + destruct (IHq s') as [fuel Hf]; [rewrite Hv; lia|lia|].
        exists (S fuel). simpl. now rewrite E.
      + destruct (IHn (List.length (Server1.urlsToVisit s')) s') as [fuel Hf];
          [lia|lia|]. exists (S fuel). simpl. now rewrite E. }
  apply (G _ _ s (Nat.le_refl _) (Nat.le_refl _)).
Qed.

Lemma crawl2_terminates parseUrl browse maxPages root (s : Server2.Crawl) :
  exists fuel,
    Server2.step parseUrl browse maxPages root
      (Server2.crawl parseUrl browse maxPages root fuel s) = None.
Proof.
  assert (G : forall n q s,
            maxPages - List.length (Server2.visitedUrls s) <= n ->
            List.length (Server2.urlsToVisit s) <= q ->
            exists fuel,
              Server2.step parseUrl browse maxPages root
                (Server2.crawl parseUrl browse maxPages root fuel s) = None).
  { induction n as [|n IHn].
    - intros q s0 Hn _.
      destruct (Server2.step parseUrl browse maxPages root s0) as [s'|] eqn:E.
      + apply step2_measure in E. lia.
      + exists 0. exact E.
    - induction q as [|q IHq]; intros s0 Hn Hq;
        (destruct (Server2.step parseUrl browse maxPages root s0) as [s'|] eqn:E;
         [|exists 0; exact E]);
        pose proof (step2_measure _ _ _ _ _ E) as [Hlt [[Hv Hl]|Hv]].
      + lia.
      + destruct (IHn (List.length (Server2.urlsToVisit s')) s') as [fuel Hf];
          [lia|lia|]. exists (S fuel). simpl. now rewrite E.
      + destruct (IHq s') as [fuel Hf]; [rewrite Hv; lia|lia|].
        exists (S fuel). simpl. now rewrite E.
      + destruct (IHn (List.length (Server2.urlsToVisit s')) s') as [fuel Hf];
          [lia|lia|]. exists (S fuel). simpl. now rewrite E. }
  apply (G _ _ s (Nat.le_refl _) (Nat.le_refl _)).
Qed.

(** The batches cover the items in order: the fuel of [batchesOf] is
    enough for any positive batch size. *)
Lemma slices_concat (A : Type) (size fuel : nat) (items : list A) :
  0 < size -> List.length items <= fuel ->
  List.concat (slices size fuel items) = items.
Proof.
  intros Hs. revert items.
  induction fuel as [|fuel IH]; intros items Hl.
  - destruct items; [reflexivity|simpl in Hl; lia].
  - destruct items as [|x items]; [reflexivity|].
    cbn [slices List.concat]. rewrite IH.
    + apply firstn_skipn.
    + rewrite length_skipn.
      change (List.length (x :: items)) with (S (List.length items)) in *. lia.
Qed.

Lemma batchesOf_concat (A : Type) (size : nat) (items : list A) :
  0 < size -> List.concat (batchesOf size items) = items.
Proof. intros Hs. apply slices_concat; [exact Hs|apply Nat.le_refl]. Qed.

(* ================================================================= *)
(** * Strings *)

Lemma string_app_assoc (a b c : string) : (a ++ b) ++ c = a ++ b ++ c.
Proof. induction a as [|x a IH]; simpl; [reflexivity|now rewrite IH]. Qed.

Lemma string_app_nil_r (a : string) : a ++ EmptyString = a.
Proof. induction a as [|x a IH]; simpl; [reflexivity|now rewrite IH]. Qed.

Lemma prefix_iff (x s : string) :
  String.prefix x s = true <-> exists q, s = x ++ q.
Proof.
  revert s. induction x as [|c x IH]; intros s; simpl.
  - split; [intros _; now exists s|intros _; now destruct s].
  - destruct s as [|d s].
    + split; [discriminate|intros [q E]; discriminate].
    + simpl. destruct (ascii_dec c d) as [->|Hne].
      * rewrite IH. split; intros [q E]; exists q; [now rewrite E|now injection E].
      * split; [discriminate|]. intros [q E]. injection E as E1 E2. congruence.
Qed.

Lemma includes_unfold (x s : string) :
  Js.includes x s
  = if String.prefix x s then true
    else match s with
         | EmptyString => false
         | String _ s' => Js.includes x s'
         end.
Proof. destruct s; reflexivity. Qed.

Lemma includes_iff (x s : string) :
  Js.includes x s = true <-> exists p q, s = p ++ x ++ q.
Proof.
  induction s as [|c s IH]; rewrite includes_unfold.
  - destruct (String.prefix x EmptyString) eqn:E.
    + split; [intros _|reflexivity].
      apply prefix_iff in E. destruct E as [q E]. exists EmptyString, q. exact E.
    + split; [discriminate|]. intros [p [q Epq]].
      destruct p; [|discriminate]. simpl in Epq.
      assert (String.prefix x EmptyString = true); [|congruence].
      apply prefix_iff. now exists q.
  - destruct (String.prefix x (String c s)) eqn:E.
    + split; [intros _|reflexivity].
      apply prefix_iff in E. destruct E as [q E]. exists EmptyString, q. exact E.
    + rewrite IH. split.
      * intros [p [q Epq]]. exists (String c p), q. simpl. now rewrite Epq.
      * intros [p [q Epq]]. destruct p as [|d p].
        -- simpl in Epq. assert (String.prefix x (String c s) = true); [|congruence].
           apply prefix_iff. now exists q.
        -- simpl in Epq. injection Epq as _ Epq. now exists p, q.
Qed.

Lemma substring_app_r (p x : string) :
  String.substring (String.length p) (String.length x) (p ++ x) = x.
Proof.
  induction p as [|c p IH]; simpl; [|exact IH].
  induction x as [|c x IH]; simpl; [reflexivity|now rewrite IH].
Qed.

Lemma substring_split (n : nat) (s : string) :
  n <= String.length s ->
  s = String.substring 0 n s ++ String.substring n (String.length s - n) s.
Proof.
  revert n. induction s as [|c s IH]; intros n Hn; simpl in *.
  - assert (n = 0) by lia. subst. reflexivity.
  - destruct n as [|n].
    + simpl. f_equal. clear. induction s as [|d s IH]; simpl; [reflexivity|now rewrite <- IH].
    + simpl. f_equal. apply IH. lia.
Qed.

Lemma endsWith_iff (x s : string) :
  Js.endsWith x s = true <-> exists p, s = p ++ x.
Proof.
  unfold Js.endsWith. split.
  - destruct (Nat.leb (String.length x) (String.length s)) eqn:E; [|discriminate].
    apply Nat.leb_le in E. intros H. apply String.eqb_eq in H.
    exists (String.substring 0 (String.length s - String.length x) s).
    pose proof (@substring_split (String.length s - String.length x) s) as Hs.
    replace (String.length s - (String.length s - String.length x))
      with (String.length x) in Hs by lia.
    rewrite H in Hs. apply Hs. lia.
  - intros [p ->]. rewrite string_length_app.
    replace (Nat.leb _ _) with true by (symmetry; apply Nat.leb_le; lia).
    replace (String.length p + String.length x - String.length x) with (String.length p) by lia.
    rewrite substring_app_r. apply String.eqb_refl.
Qed.

(* ================================================================= *)
(** * The consent driver *)

Lemma find_split (A : Type) (p : A -> bool) (l : list A) (x : A) :
  List.find p l = Some x ->
  exists l1 l2, l = (l1 ++ x :: l2)%list /\ p x = true
                /\ forall y, In y l1 -> p y = false.
Proof.
  induction l as [|a l IH]; simpl; [discriminate|].
  destruct (p a) eqn:E.
  - intros H. injection H as <-. exists [], l. split; [reflexivity|].
    split; [exact E|intros y []].
  - intros H. destruct (IH H) as [l1 [l2 [-> [Hx Hl]]]].
    exists (a :: l1), l2. split; [reflexivity|]. split; [exact Hx|].
    intros y [<-|Hy]; [exact E|now apply Hl].
Qed.

Lemma tryKeyword_stable frame elements t clicks :
  stableFrame frame elements ->
  Consent.tryKeyword frame t clicks
  = match List.find (Consent.matches t) elements with
    | Some target =>
        (Returned true,
         (clicks ++ [{| Consent.inFrame := Consent.frameId frame;
                        Consent.onElement := target;
                        Consent.forKeyword := t |}])%list)
    | None => (Returned false, clicks)
    end.
Proof.
  intros [He Hc].
  unfold Consent.tryKeyword, Eff.tryCatch, Eff.bind, Eff.await, Eff.modify, Eff.ret.
  rewrite He. destruct (List.find _ _) as [target|]; [|reflexivity].
  simpl. rewrite Hc. reflexivity.
Qed.

(** What one keyword does in a frame, whatever the frame does. *)
Lemma tryKeyword_any frame t clicks :
  exists b new,
    Consent.tryKeyword frame t clicks = (Returned b, (clicks ++ new)%list)
    /\ Forall (fun c => Consent.inFrame c = Consent.frameId frame
                        /\ Consent.forKeyword c = t
                        /\ Consent.matches t (Consent.onElement c) = true) new
    /\ (b = true -> new <> [])
    /\ ((forall el, Consent.afterClick frame el = Returned tt) ->
        List.length new = if b then 1 else 0)
    /\ (match Consent.evaluate frame t with
        | Returned elements => List.find (Consent.matches t) elements = None
        | Threw _ => True
        end -> b = false /\ new = []).
Proof.
  unfold Consent.tryKeyword, Eff.tryCatch, Eff.bind, Eff.await, Eff.modify, Eff.ret.
  destruct (Consent.evaluate frame t) as [elements|e].
  - destruct (List.find (Consent.matches t) elements) as [target|] eqn:Ef.
    + apply find_some in Ef. destruct Ef as [_ Hm]. simpl.
      destruct (Consent.afterClick frame target) as [[]|e] eqn:Ea.
      * eexists true, [_]. split; [reflexivity|].
        split; [constructor; [simpl; auto|constructor]|].
        split; [discriminate|]. split; [reflexivity|discriminate].
      * eexists false, [_]. split; [reflexivity|].
        split; [constructor; [simpl; auto|constructor]|].
        split; [discriminate|]. split; [|discriminate].
        intros H. rewrite H in Ea. discriminate.
    + exists false, []. rewrite app_nil_r. split; [reflexivity|].
      split; [constructor|]. split; [discriminate|]. split; reflexivity || auto.
  - exists false, []. rewrite app_nil_r. split; [reflexivity|].
    split; [constructor|]. split; [discriminate|]. split; reflexivity || auto.
Qed.

Lemma findAndClickButton_any frame keywords clicks :
  exists b new,
    Consent.findAndClickButton frame keywords clicks
    = (Returned b, (clicks ++ new)%list)
    /\ Forall (fun c => Consent.inFrame c = Consent.frameId frame
                        /\ In (Consent.forKeyword c) keywords
                        /\ Consent.matches (Consent.forKeyword c)
                                           (Consent.onElement c) = true) new
    /\ (b = true -> new <> [])
    /\ ((forall el, Consent.afterClick frame el = Returned tt) ->
        List.length new = if b then 1 else 0)
    /\ (nothingToClick keywords frame -> b = false /\ new = []).
Proof.
  revert clicks. induction keywords as [|t rest IH]; intros clicks.
  - exists false, []. rewrite app_nil_r. split; [reflexivity|].
    split; [constructor|]. split; [discriminate|]. split; [reflexivity|auto].
  - cbn [Consent.findAndClickButton]. unfold Eff.bind.
    destruct (tryKeyword_any frame t clicks) as [b [new [E [Hall [Hne [Hlen Hno]]]]]].
    rewrite E.
    assert (Hall' : Forall (fun c => Consent.inFrame c = Consent.frameId frame
                        /\ In (Consent.forKeyword c) (t :: rest)
                        /\ Consent.matches (Consent.forKeyword c)
                                           (Consent.onElement c) = true) new).
    { eapply Forall_impl; [|exact Hall]. intros c [H1 [H2 H3]].
      split; [exact H1|]. split; [left; auto|]. now rewrite H2. }
    destruct b.
    + exists true, new. split; [reflexivity|]. split; [exact Hall'|].
      split; [exact Hne|]. split; [exact Hlen|].
      intros Hn. destruct Hno as [Hb _]; [apply Hn; now left|discriminate].
    + destruct (IH (clicks ++ new)%list) as [b2 [new2 [E2 [Hall2 [Hne2 [Hlen2 Hno2]]]]]].
      rewrite E2. exists b2, (new ++ new2)%list. rewrite app_assoc.
      split; [reflexivity|]. split.
      { apply Forall_app. split; [exact Hall'|].
        eapply Forall_impl; [|exact Hall2]. intros c [H1 [H2 H3]].
        split; [exact H1|]. split; [now right|exact H3]. }
      split.
      { intros Hb Hnil. apply app_eq_nil in Hnil. destruct Hnil as [_ Hnil].
        exact (Hne2 Hb Hnil). }
      split.
      { intros Hok. rewrite length_app, (Hlen Hok), (Hlen2 Hok). reflexivity. }
      intros Hn. destruct Hno as [_ ->]; [apply Hn; now left|].
      destruct Hno2 as [-> ->]; [intros t' Ht'; apply Hn; now right|].
      split; reflexivity.
Qed.

Lemma otherFrames_any main keywords fs clicks :
  exists b new,
    Consent.otherFrames main keywords fs clicks = (Returned b, (clicks ++ new)%list)
    /\ Forall (fun c => In (Consent.forKeyword c) keywords
                        /\ Consent.matches (Consent.forKeyword c)
                                           (Consent.onElement c) = true
                        /\ exists frame, In frame fs
                                         /\ Consent.isDetached frame = false
                                         /\ Consent.frameId frame = Consent.inFrame c)
              new
    /\ (b = true -> new <> [])
    /\ ((forall frame el, In frame fs -> Consent.isDetached frame = false ->
                          Consent.afterClick frame el = Returned tt) ->
        List.length new = if b then 1 else 0)
    /\ ((forall frame, In frame fs -> Consent.isDetached frame = false ->
                       nothingToClick keywords frame) -> b = false /\ new = []).
Proof.
  revert clicks. induction fs as [|frame rest IH]; intros clicks.
  - exists false, []. rewrite app_nil_r. split; [reflexivity|].
    split; [constructor|]. split; [discriminate|]. split; [reflexivity|auto].
  - cbn [Consent.otherFrames].
    assert (Hlift : forall new,
              Forall (fun c => In (Consent.forKeyword c) keywords
                        /\ Consent.matches (Consent.forKeyword c)
                                           (Consent.onElement c) = true
                        /\ exists frame, In frame rest
                                         /\ Consent.isDetached frame = false
                                         /\ Consent.frameId frame = Consent.inFrame c)
                     new ->
              Forall (fun c => In (Consent.forKeyword c) keywords
                        /\ Consent.matches (Consent.forKeyword c)
                                           (Consent.onElement c) = true
                        /\ exists frame0, In frame0 (frame :: rest)
                                         /\ Consent.isDetached frame0 = false
                                         /\ Consent.frameId frame0 = Consent.inFrame c)
                     new).
    { intros new H. eapply Forall_impl; [|exact H].
      intros c [H1 [H2 [f [H3 [H4 H5]]]]]. split; [exact H1|]. split; [exact H2|].
      exists f. split; [now right|]. split; assumption. }
    destruct (negb (Consent.isDetached frame)
              && negb (Nat.eqb (Consent.frameId frame) (Consent.frameId main))) eqn:Ec.
    + apply andb_prop in Ec. destruct Ec as [Ed _]. apply negb_true_iff in Ed.
      unfold Eff.bind.
      destruct (findAndClickButton_any frame keywords clicks)
        as [b [new [E [Hall [Hne [Hlen Hno]]]]]].
      rewrite E.
      assert (Hall' : Forall (fun c => In (Consent.forKeyword c) keywords
                        /\ Consent.matches (Consent.forKeyword c)
                                           (Consent.onElement c) = true
                        /\ exists frame0, In frame0 (frame :: rest)
                                         /\ Consent.isDetached frame0 = false
                                         /\ Consent.frameId frame0 = Consent.inFrame c)
                     new).
      { eapply Forall_impl; [|exact Hall]. intros c [H1 [H2 H3]].
        split; [exact H2|]. split; [exact H3|].
        exists frame. split; [now left|]. split; [exact Ed|now rewrite H1]. }
      destruct b.
      * exists true, new. split; [reflexivity|]. split; [exact Hall'|].
        split; [exact Hne|].
        split; [intros Hok; apply Hlen; intros el; apply Hok; [now left|exact Ed]|].
        intros Hn. destruct Hno as [Hb _]; [apply Hn; [now left|exact Ed]|discriminate].
      * destruct (IH (clicks ++ new)%list) as [b2 [new2 [E2 [Hall2 [Hne2 [Hlen2 Hno2]]]]]].
        rewrite E2. exists b2, (new ++ new2)%list. rewrite app_assoc.
        split; [reflexivity|]. split.
        { apply Forall_app. split; [exact Hall'|apply Hlift; exact Hall2]. }
        split.
        { intros Hb Hnil. apply app_eq_nil in Hnil. destruct Hnil as [_ Hnil].
          exact (Hne2 Hb Hnil). }
        split.
        { intros Hok. rewrite length_app, Hlen, Hlen2; [reflexivity| |].
          - intros f el Hf. apply Hok. now right.
          - intros el. apply Hok; [now left|exact Ed]. }
        intros Hn. destruct Hno as [_ ->]; [apply Hn; [now left|exact Ed]|].
        destruct Hno2 as [-> ->]; [intros f Hf; apply Hn; now right|].
        split; reflexivity.
    + destruct (IH clicks) as [b2 [new2 [E2 [Hall2 [Hne2 [Hlen2 Hno2]]]]]].
      rewrite E2. exists b2, new2. split; [reflexivity|].
      split; [apply Hlift; exact Hall2|]. split; [exact Hne2|].
      split; [intros Hok; apply Hlen2; intros f el Hf; apply Hok; now right|].
      intros Hn. apply Hno2. intros f Hf. apply Hn. now right.
Qed.

(** X2.  [handleConsent] never throws, whatever the page does.  Every
    click it makes is on an element whose text contains a keyword of the
    action, in the main frame or in a frame that is not detached; when it
    answers [true] it has clicked.  If no click ends the page script with
    an error, it clicks exactly once when it answers [true] and not at all
    when it answers [false]. *)
Theorem handleConsent_clicks (page : Consent.Page) (action : Consent.Action)
    (clicks : list Consent.Click) :
  exists b new,
    Consent.handleConsent page action clicks = (Returned b, (clicks ++ new)%list)
    /\ Forall (keywordClick page action) new
    /\ (b = true -> new <> [])
    /\ ((forall frame el, searchedFrame page frame ->
                          Consent.afterClick frame el = Returned tt) ->
        List.length new = if b then 1 else 0).
Proof.
  unfold Consent.handleConsent, Eff.bind.
  destruct (findAndClickButton_any (Consent.mainFrame page)
              (Consent.keywordsOf action) clicks)
    as [b [new [E [Hall [Hne [Hlen _]]]]]].
  rewrite E.
  assert (Hall' : Forall (keywordClick page action) new).
  { eapply Forall_impl; [|exact Hall]. intros c [H1 [H2 H3]].
    split; [exact H2|]. split; [exact H3|].
    exists (Consent.mainFrame page). split; [now left|now rewrite H1]. }
  destruct b.
  - exists true, new. split; [reflexivity|]. split; [exact Hall'|].
    split; [exact Hne|]. intros Hok. apply Hlen. intros el. apply Hok. now left.
  - destruct (otherFrames_any (Consent.mainFrame page) (Consent.keywordsOf action)
                (Consent.frames page) (clicks ++ new)%list)
      as [b2 [new2 [E2 [Hall2 [Hne2 [Hlen2 _]]]]]].
    rewrite E2. exists b2, (new ++ new2)%list. rewrite app_assoc.
    split; [reflexivity|]. split.
    { apply Forall_app. split; [exact Hall'|].
      eapply Forall_impl; [|exact Hall2].
      intros c [H1 [H2 [f [H3 [H4 H5]]]]]. split; [exact H1|]. split; [exact H2|].
      exists f. split; [right; split; assumption|exact H5]. }
    split.
    { intros Hb Hnil. apply app_eq_nil in Hnil. destruct Hnil as [_ Hnil].
      exact (Hne2 Hb Hnil). }
    intros Hok. rewrite length_app, Hlen, Hlen2; [reflexivity| |].
    + intros f el Hf Hd. apply Hok. right. split; assumption.
    + intros el. apply Hok. now left.
Qed.

Lemma handleConsent_clicks_witness :
  exists b new,
    Consent.handleConsent (pageOf [button "Reject all"; button "Accept all"])
                          Consent.accept []
    = (Returned b, ([] ++ new)%list)
    /\ Forall (keywordClick (pageOf [button "Reject all"; button "Accept all"])
                            Consent.accept) new
    /\ (b = true -> new <> [])
    /\ List.length new = if b then 1 else 0.
Proof.
  destruct (handleConsent_clicks (pageOf [button "Reject all"; button "Accept all"])
              Consent.accept []) as [b [new [E [Hall [Hne Hlen]]]]].
  exists b, new. split; [exact E|]. split; [exact Hall|]. split; [exact Hne|].
  apply Hlen. intros frame el [->|[[<-|[]] _]]; reflexivity.
Defined.

(** X3.  When no searched frame has anything to click for the action:
    in each of them, for each keyword, the page script rejects or finds no
    element whose text contains the keyword, [handleConsent] answers
    [false] and clicks nothing. *)
Theorem handleConsent_nothing_to_click (page : Consent.Page)
    (action : Consent.Action) (clicks : list Consent.Click) :
  (forall frame, searchedFrame page frame ->
                 nothingToClick (Consent.keywordsOf action) frame) ->
  Consent.handleConsent page action clicks = (Returned false, clicks).
Proof.
  intros Hn. unfold Consent.handleConsent, Eff.bind.
  destruct (findAndClickButton_any (Consent.mainFrame page)
              (Consent.keywordsOf action) clicks)
    as [b [new [E [_ [_ [_ Hno]]]]]].
  rewrite E. destruct Hno as [-> ->]; [apply Hn; now left|].
  rewrite app_nil_r.
  destruct (otherFrames_any (Consent.mainFrame page) (Consent.keywordsOf action)
              (Consent.frames page) clicks)
    as [b2 [new2 [E2 [_ [_ [_ Hno2]]]]]].
  rewrite E2. destruct Hno2 as [-> ->].
  - intros f Hf Hd. apply Hn. right. split; assumption.
  - now rewrite app_nil_r.
Qed.

Lemma handleConsent_nothing_to_click_witness :
  Consent.handleConsent (pageOf [button "Learn more"]) Consent.reject []
  = (Returned false, []).
Proof.
  apply handleConsent_nothing_to_click.
  intros frame [->|[[<-|[]] _]] t Ht; simpl;
    repeat (destruct Ht as [<-|Ht]; [reflexivity|]); destruct Ht.
Defined.


Lemma findAndClickButton_stable frame elements keywords clicks :
  stableFrame frame elements ->
  (exists k1 t k2 e1 target e2,
     keywords = (k1 ++ t :: k2)%list /\ elements = (e1 ++ target :: e2)%list
     /\ (forall t' el, In t' k1 -> In el elements -> Consent.matches t' el = false)
     /\ (forall el, In el e1 -> Consent.matches t el = false)
     /\ Consent.matches t target = true
     /\ Consent.findAndClickButton frame keywords clicks
        = (Returned true,
           (clicks ++ [{| Consent.inFrame := Consent.frameId frame;
                          Consent.onElement := target;
                          Consent.forKeyword := t |}])%list))
  \/ ((forall t el, In t keywords -> In el elements -> Consent.matches t el = false)
      /\ Consent.findAndClickButton frame keywords clicks = (Returned false, clicks)).
Proof.
  intros Hs. induction keywords as [|t rest IH].
  - right. split; [intros t el []|reflexivity].
  - cbn [Consent.findAndClickButton]. unfold Eff.bind.
    rewrite (tryKeyword_stable t clicks Hs).
    destruct (List.find (Consent.matches t) elements) as [target|] eqn:Ef.
    + left. destruct (find_split _ _ Ef) as [e1 [e2 [He [Hm Hb]]]].
      exists [], t, rest, e1, target, e2.
      split; [reflexivity|]. split; [exact He|]. split; [intros t' el []|].
      split; [exact Hb|]. split; [exact Hm|reflexivity].
    + assert (Hnone : forall el, In el elements -> Consent.matches t el = false).
      { intros el. apply (find_none _ _ Ef). }
      destruct IH as [(k1 & t0 & k2 & e1 & target & e2 & Hk & He & H1 & H2 & H3 & H4)|[H1 H2]].
      * left. exists (t :: k1), t0, k2, e1, target, e2.
        split; [now rewrite Hk|]. split; [exact He|]. split.
        { intros t' el [<-|Ht']; [apply Hnone|now apply H1]. }
        split; [exact H2|]. split; [exact H3|exact H4].
      * right. split; [|exact H2].
        intros t' el [<-|Ht']; [apply Hnone|now apply H1].
Qed.

(** X4.  Keyword order comes before document order, and the main frame
    before the other frames.  On a page whose main frame keeps its
    elements while the keywords are tried and whose clicks do not end the
    script with an error, [handleConsent] tries the keywords of the action
    in their listed order in the main frame: the first keyword that the
    text of some element contains decides, and of the elements that
    contain it the first in document order is clicked, once, and the
    answer is [true]; an element that contains only a later keyword is not
    clicked even if it comes first in the document.  The other frames are
    searched only when no element of the main frame contains any keyword. *)
Theorem consent_keyword_order (page : Consent.Page) (action : Consent.Action)
    (elements : list Consent.Element) (clicks : list Consent.Click) :
  stableFrame (Consent.mainFrame page) elements ->
  (exists k1 t k2 e1 target e2,
     Consent.keywordsOf action = (k1 ++ t :: k2)%list
     /\ elements = (e1 ++ target :: e2)%list
     /\ (forall t' el, In t' k1 -> In el elements -> Consent.matches t' el = false)
     /\ (forall el, In el e1 -> Consent.matches t el = false)
     /\ Consent.matches t target = true
     /\ Consent.handleConsent page action clicks
        = (Returned true,
           (clicks ++ [{| Consent.inFrame := Consent.frameId (Consent.mainFrame page);
                          Consent.onElement := target;
                          Consent.forKeyword := t |}])%list))
  \/ ((forall t el, In t (Consent.keywordsOf action) -> In el elements ->
                    Consent.matches t el = false)
      /\ Consent.handleConsent page action clicks
         = Consent.otherFrames (Consent.mainFrame page) (Consent.keywordsOf action)
                               (Consent.frames page) clicks).
Proof.
  intros Hs. unfold Consent.handleConsent, Eff.bind.
  destruct (findAndClickButton_stable (Consent.keywordsOf action) clicks Hs)
    as [(k1 & t & k2 & e1 & target & e2 & Hk & He & H1 & H2 & H3 & E)|[Hnone E]];
    rewrite E.
  - left. exists k1, t, k2, e1, target, e2.
    split; [exact Hk|]. split; [exact He|]. split; [exact H1|].
    split; [exact H2|]. split; [exact H3|reflexivity].
  - right. split; [exact Hnone|reflexivity].
Qed.

Lemma consent_keyword_order_witness :
  (exists k1 t k2 e1 target e2,
     Consent.keywordsOf Consent.accept = (k1 ++ t :: k2)%list
     /\ [button "Accept"; button "Accept all"] = (e1 ++ target :: e2)%list
     /\ (forall t' el, In t' k1 -> In el [button "Accept"; button "Accept all"] ->
                       Consent.matches t' el = false)
     /\ (forall el, In el e1 -> Consent.matches t el = false)
     /\ Consent.matches t target = true
     /\ Consent.handleConsent (pageOf [button "Accept"; button "Accept all"])
          Consent.accept []
        = (Returned true,
           ([] ++ [{| Consent.inFrame := 0; Consent.onElement := target;
                      Consent.forKeyword := t |}])%list))
  \/ ((forall t el, In t (Consent.keywordsOf Consent.accept) ->
                    In el [button "Accept"; button "Accept all"] ->
                    Consent.matches t el = false)
      /\ Consent.handleConsent (pageOf [button "Accept"; button "Accept all"])
           Consent.accept []
         = Consent.otherFrames (frameOf 0 [button "Accept"; button "Accept all"])
             (Consent.keywordsOf Consent.accept)
             [frameOf 0 [button "Accept"; button "Accept all"]] []).
Proof.
  apply (@consent_keyword_order (pageOf [button "Accept"; button "Accept all"])
           Consent.accept [button "Accept"; button "Accept all"] []).
  split; reflexivity.
Defined.

Lemma includes_trans (a b s : string) :
  Js.includes a b = true -> Js.includes b s = true -> Js.includes a s = true.
Proof.
  rewrite !includes_iff. intros [p [q ->]] [p' [q' ->]].
  exists (p' ++ p), (q ++ q'). now rewrite !string_app_assoc.
Qed.

(** X5.  The accept action takes an element whose text contains
    ["cookie"] or ["disagree"] for an accept button, because the accept
    keywords ["ok"] and ["agree"] are parts of these words: on a page whose
    main frame shows such an element (and whose elements stay the same
    while the keywords are tried), [handleConsent(page, 'accept')] answers
    [true] after one click in the main frame, on an element of that frame
    whose text contains an accept keyword.  On a page whose only button is
    "Reject cookies", that button is clicked. *)
Theorem accept_clicks_cookie_text (page : Consent.Page)
    (elements : list Consent.Element) (el : Consent.Element)
    (clicks : list Consent.Click) :
  stableFrame (Consent.mainFrame page) elements ->
  In el elements ->
  Js.includes "cookie" (Consent.elText el) = true
  \/ Js.includes "disagree" (Consent.elText el) = true ->
  exists t target,
    Consent.handleConsent page Consent.accept clicks
    = (Returned true,
       (clicks ++ [{| Consent.inFrame := Consent.frameId (Consent.mainFrame page);
                      Consent.onElement := target;
                      Consent.forKeyword := t |}])%list)
    /\ In t Consent.acceptKeywords
    /\ In target elements
    /\ Consent.matches t target = true.
Proof.
  intros Hs Hel Htext.
  unfold Consent.handleConsent, Eff.bind. simpl Consent.keywordsOf.
  destruct (findAndClickButton_stable Consent.acceptKeywords clicks Hs)
    as [(k1 & t & k2 & e1 & target & e2 & Hk & He & _ & _ & Hm & E)|[Hnone _]].
  - rewrite E. exists t, target. split; [reflexivity|].
    split; [rewrite Hk; apply in_or_app; right; now left|].
    split; [rewrite He; apply in_or_app; right; now left|exact Hm].
  - exfalso. destruct Htext as [H|H].
    + assert (Hok : Consent.matches "ok" el = true).
      { unfold Consent.matches. apply (includes_trans "ok" "cookie"); [reflexivity|exact H]. }
      rewrite Hnone in Hok; [discriminate| |exact Hel].
      unfold Consent.acceptKeywords. simpl. tauto.
    + assert (Hok : Consent.matches "agree" el = true).
      { unfold Consent.matches.
        apply (includes_trans "agree" "disagree"); [reflexivity|exact H]. }
      rewrite Hnone in Hok; [discriminate| |exact Hel].
      unfold Consent.acceptKeywords. simpl. tauto.
Qed.

Lemma accept_clicks_cookie_text_witness :
  exists t target,
    Consent.handleConsent (pageOf [button "Reject cookies"]) Consent.accept []
    = (Returned true,
       ([] ++ [{| Consent.inFrame := 0; Consent.onElement := target;
                  Consent.forKeyword := t |}])%list)
    /\ In t Consent.acceptKeywords
    /\ In target [button "Reject cookies"]
    /\ Consent.matches t target = true.
Proof.
  apply (@accept_clicks_cookie_text (pageOf [button "Reject cookies"])
           [button "Reject cookies"] (button "Reject cookies") []).
  - split; reflexivity.
  - now left.
  - left. reflexivity.
Defined.

(* ================================================================= *)
(** * Keys of a map *)

Section MapKeys.
Variable V : Type.
Implicit Types (m : Js.Map V) (k : string).

Lemma has_In k m : Js.has k m = true <-> In k (keysOf m).
Proof.
  induction m as [|[k' v'] m IH]; simpl.
  - split; [discriminate|intros []].
  - destruct (String.eqb k k') eqn:E.
    + apply String.eqb_eq in E. subst. split; [now left|reflexivity].
    + apply String.eqb_neq in E. rewrite IH. split; [now right|].
      intros [H|H]; [congruence|exact H].
Qed.

Lemma has_false_notIn k m : Js.has k m = false <-> ~ In k (keysOf m).
Proof.
  rewrite <- has_In. destruct (Js.has k m); split; congruence.
Qed.

Lemma set_absent k (v : V) m :
  Js.has k m = false -> Js.set k v m = (m ++ [(k, v)])%list.
Proof.
  induction m as [|[k' v'] m IH]; simpl; [reflexivity|].
  destruct (String.eqb k k'); [discriminate|]. intros H. now rewrite IH.
Qed.

Lemma keys_set_present k (v : V) m :
  Js.has k m = true -> keysOf (Js.set k v m) = keysOf m.
Proof.
  induction m as [|[k' v'] m IH]; simpl; [discriminate|].
  destruct (String.eqb k k'); [reflexivity|]. intros H. simpl. now rewrite IH.
Qed.

Lemma keys_mutate k (f : V -> V) m : keysOf (Js.mutate k f m) = keysOf m.
Proof.
  induction m as [|[k' v'] m IH]; simpl; [reflexivity|].
  destruct (String.eqb k k'); [reflexivity|]. simpl. now rewrite IH.
Qed.

Lemma keys_set_NoDup k (v : V) m :
  NoDup (keysOf m) -> NoDup (keysOf (Js.set k v m)).
Proof.
  intros H. destruct (Js.has k m) eqn:E.
  - now rewrite keys_set_present.
  - rewrite set_absent by exact E. unfold keysOf. rewrite map_app.
    apply NoDup_app; [exact H|constructor; [intros []|constructor]|].
    intros x Hx [<-|[]]. apply has_false_notIn in E. exact (E Hx).
Qed.

Lemma In_set k (v : V) m k' v' :
  In (k', v') (Js.set k v m) -> (k' = k /\ v' = v) \/ In (k', v') m.
Proof.
  induction m as [|[k0 v0] m IH]; simpl.
  - intros [H|[]]. injection H as <- <-. now left.
  - destruct (String.eqb k k0) eqn:E.
    + apply String.eqb_eq in E. subst k0.
      intros [H|H]; [injection H as <- <-; now left|right; now right].
    + intros [H|H]; [right; now left|].
      destruct (IH H) as [H'|H']; [now left|right; now right].
Qed.

Lemma In_mutate k (f : V -> V) m k' v' :
  In (k', v') (Js.mutate k f m) ->
  In (k', v') m \/ (k' = k /\ exists v0, In (k, v0) m /\ v' = f v0).
Proof.
  induction m as [|[k0 v0] m IH]; simpl; [intros []|].
  destruct (String.eqb k k0) eqn:E.
  - apply String.eqb_eq in E. subst k0.
    intros [H|H]; [|left; now right].
    injection H as <- <-. right. split; [reflexivity|]. exists v0. split; [now left|reflexivity].
  - intros [H|H]; [left; now left|].
    destruct (IH H) as [H'|[-> [v1 [H1 H2]]]]; [left; now right|].
    right. split; [reflexivity|]. exists v1. split; [now right|exact H2].
Qed.



Lemma delete_set_absent k (v : V) m :
  Js.has k m = false -> Js.delete k (Js.set k v m) = m.
Proof.
  induction m as [|[k' v'] m IH]; simpl.
  - now rewrite String.eqb_refl.
  - destruct (String.eqb k k') eqn:E; [discriminate|]. intros H.
    simpl. rewrite E. now rewrite IH.
Qed.

Lemma keys_delete_incl k m x : In x (keysOf (Js.delete k m)) -> In x (keysOf m).
Proof.
  induction m as [|[k' v'] m IH]; simpl; [intros []|].
  destruct (String.eqb k k'); [now right|].
  simpl. intros [H|H]; [now left|right; now apply IH].
Qed.

Lemma In_delete k m e : In e (Js.delete k m) -> In e m.
Proof.
  induction m as [|[k' v'] m IH]; simpl; [intros []|].
  destruct (String.eqb k k'); [now right|].
  simpl. intros [H|H]; [now left|right; now apply IH].
Qed.

Lemma keys_delete_NoDup k m : NoDup (keysOf m) -> NoDup (keysOf (Js.delete k m)).
Proof.
  induction m as [|[k' v'] m IH]; simpl; [auto|].
  intros H. inversion H as [|? ? Hn Hd]; subst.
  destruct (String.eqb k k'); [exact Hd|].
  simpl. constructor; [|now apply IH].
  intros Hin. apply Hn. now apply keys_delete_incl in Hin.
Qed.

Lemma has_delete k m : NoDup (keysOf m) -> Js.has k (Js.delete k m) = false.
Proof.
  induction m as [|[k' v'] m IH]; simpl; [reflexivity|].
  intros H. inversion H as [|? ? Hn Hd]; subst.
  destruct (String.eqb k k') eqn:E.
  - apply String.eqb_eq in E. subst k'. now apply has_false_notIn.
  - simpl. rewrite E. now apply IH.
Qed.

Lemma get_delete_other k k' m : k' <> k -> Js.get k' (Js.delete k m) = Js.get k' m.
Proof.
  intros Hne. induction m as [|[k0 v0] m IH]; simpl; [reflexivity|].
  destruct (String.eqb k k0) eqn:E.
  - apply String.eqb_eq in E. subst k0.
    apply String.eqb_neq in Hne. now rewrite Hne.
  - simpl. destruct (String.eqb k' k0); [reflexivity|exact IH].
Qed.

Lemma get_In k m (v : V) : Js.get k m = Some v -> In (k, v) m.
Proof.
  induction m as [|[k' v'] m IH]; simpl; [discriminate|].
  destruct (String.eqb k k') eqn:E.
  - apply String.eqb_eq in E. subst. intros H. injection H as <-. now left.
  - intros H. right. now apply IH.
Qed.

Lemma In_get k m (v : V) : NoDup (keysOf m) -> In (k, v) m -> Js.get k m = Some v.
Proof.
  induction m as [|[k' v'] m IH]; simpl; [intros _ []|].
  intros H. inversion H as [|? ? Hn Hd]; subst.
  intros [Hin|Hin].
  - injection Hin as -> ->. now rewrite String.eqb_refl.
  - destruct (String.eqb k k') eqn:E.
    + apply String.eqb_eq in E. subst k'. exfalso. apply Hn.
      unfold keysOf. apply in_map_iff. exists (k, v). split; [reflexivity|exact Hin].
    + now apply IH.
Qed.
End MapKeys.



(* ================================================================= *)
(** * The template library *)

Lemma templateInvariant_handle (r : Templates.Request)
    (lib : Js.Map Templates.ContractTemplate) :
  templateInvariant lib -> templateInvariant (snd (Templates.handle r lib)).
Proof.
  intros [Hnd Hall]. destruct r as [|dateNow name_ content_|id_]; simpl.
  - split; assumption.
  - unfold Templates.postTemplate.
    destruct name_ as [[|a n]|]; try (split; assumption).
    destruct content_ as [[|b c]|]; try (split; assumption).
    simpl. split; [now apply keys_set_NoDup|].
    intros k t Hin. apply In_set in Hin. destruct Hin as [[-> ->]|Hin].
    + simpl. split; [reflexivity|]. split; discriminate.
    + now apply Hall.
  - unfold Templates.deleteTemplate.
    destruct (Js.has id_ lib); simpl; [|split; assumption].
    split; [now apply keys_delete_NoDup|].
    intros k t Hin. apply Hall. now apply In_delete in Hin.
Qed.

Lemma templateInvariant_serve (rs : list Templates.Request) :
  templateInvariant (Templates.serve rs []).
Proof.
  unfold Templates.serve.
  assert (G : forall lib, templateInvariant lib ->
                templateInvariant
                  (fold_left (fun lib r => snd (Templates.handle r lib)) rs lib)).
  { induction rs as [|r rs IH]; intros lib H; simpl; [exact H|].
    apply IH. now apply templateInvariant_handle. }
  apply G. split; [constructor|intros k t []].
Qed.

(** X6.  After any sequence of requests to the template endpoints,
    starting from the empty library, the ids of the stored templates are
    pairwise distinct, every template is stored under its own id, and no
    stored template has an empty name or an empty content.  So what
    [GET /api/templates] lists never holds two templates with the same
    id, and every template it lists is the one stored under its id. *)
Theorem template_library_invariant (rs : list Templates.Request) :
  templateInvariant (Templates.serve rs [])
  /\ exists ts,
       Templates.getTemplates (Templates.serve rs []) = Templates.Listed ts
       /\ NoDup (List.map Templates.id ts)
       /\ forall t, In t ts ->
            Templates.name t <> EmptyString
            /\ Templates.content t <> EmptyString
            /\ Js.get (Templates.id t) (Templates.serve rs []) = Some t.
Proof.
  pose proof (templateInvariant_serve rs) as Hinv.
  split; [exact Hinv|]. destruct Hinv as [Hnd Hall].
  eexists. split; [reflexivity|]. split.
  - replace (List.map Templates.id (Js.values (Templates.serve rs [])))
      with (keysOf (Templates.serve rs [])); [exact Hnd|].
    unfold Js.values, keysOf. rewrite map_map.
    apply map_ext_in. intros [k t] Hin. simpl. now apply Hall.
  - intros t Hin. unfold Js.values in Hin. apply in_map_iff in Hin.
    destruct Hin as [[k t'] [Ht Hin]]. simpl in Ht. subst t'.
    destruct (Hall k t Hin) as [Hk [Hn Hc]].
    split; [exact Hn|]. split; [exact Hc|].
    rewrite <- Hk. eapply In_get; eassumption.
Qed.



(** X8.  [DELETE /api/templates/:id] on a library reached by any sequence
    of requests: when a template is stored under the id the answer is 204,
    no template is stored under the id afterwards and the templates stored
    under the other ids are untouched; when none is, the answer is 404 and
    the library is unchanged. *)
Theorem delete_template_outcome (rs : list Templates.Request) (id_ : string) :
  let lib := Templates.serve rs [] in
  let lib' := snd (Templates.deleteTemplate id_ lib) in
  if Js.has id_ lib then
    fst (Templates.deleteTemplate id_ lib) = Templates.Deleted
    /\ Js.has id_ lib' = false
    /\ (forall k, k <> id_ -> Js.get k lib' = Js.get k lib)
  else
    Templates.deleteTemplate id_ lib
    = (Templates.Failed 404 ("Template with id " ++ id_ ++ " not found."), lib).
Proof.
  cbv zeta. destruct (templateInvariant_serve rs) as [Hnd _].
  unfold Templates.deleteTemplate.
  destruct (Js.has id_ (Templates.serve rs [])) eqn:E; simpl; [|reflexivity].
  split; [reflexivity|]. split; [now apply has_delete|].
  intros k Hk. now apply get_delete_other.
Qed.





(* ================================================================= *)
(** * Batches, retries and the answers of the classifier *)

Lemma slices_sizes (A : Type) (size fuel : nat) (items : list A) :
  0 < size ->
  Forall (fun b => 1 <= List.length b <= size) (slices size fuel items).
Proof.
  intros Hs. revert items. induction fuel as [|fuel IH]; intros items; simpl.
  - constructor.
  - destruct items as [|x items]; [constructor|].
    constructor; [|apply IH].
    rewrite length_firstn. simpl List.length. lia.
Qed.

Lemma slices_count (A : Type) (size fuel : nat) (items : list A) :
  0 < size -> List.length items <= fuel ->
  List.length (slices size fuel items) = (List.length items + size - 1) / size.
Proof.
  intros Hs. revert items. induction fuel as [|fuel IH]; intros items Hl.
  - destruct items; [|simpl in Hl; lia]. simpl.
    symmetry. apply Nat.div_small. lia.
  - destruct items as [|x items].
    + simpl. symmetry. apply Nat.div_small. lia.
    + cbn [slices List.length]. rewrite IH.
      * rewrite length_skipn. cbn [List.length].
        destruct (Nat.le_gt_cases (S (List.length items)) size) as [Hle|Hgt].
        -- replace (S (List.length items) - size) with 0 by lia.
           replace ((0 + size - 1) / size) with 0 by (symmetry; apply Nat.div_small; lia).
           apply (Nat.div_unique _ _ 1 (List.length items)); lia.
        -- replace (S (List.length items) + size - 1)
             with ((S (List.length items) - size + size - 1) + 1 * size) by lia.
           rewrite Nat.div_add by lia. lia.
      * rewrite length_skipn. cbn [List.length] in *. lia.
Qed.

(** X11.  The batches of both servers are a partition of the items to
    analyse, in order: concatenated they give the items back, every batch
    holds at least one item and at most [BATCH_SIZE] (40 in server 1, 25 in
    server 2), and their number is the number of items divided by
    [BATCH_SIZE], rounded up. *)
Theorem batches_partition :
  (forall s : Server1.Crawl,
     let items := Server1.allItemsToAnalyze s in
     let batches := batchesOf Server1.BATCH_SIZE items in
     List.concat batches = items
     /\ Forall (fun b => 1 <= List.length b <= 40) batches
     /\ List.length batches = (List.length items + 39) / 40)
  /\
  (forall s : Server2.Crawl,
     let items := Server2.allItemsToAnalyze s in
     let batches := batchesOf Server2.BATCH_SIZE items in
     List.concat batches = items
     /\ Forall (fun b => 1 <= List.length b <= 25) batches
     /\ List.length batches = (List.length items + 24) / 25).
Proof.
  split; intros s items batches; subst batches; unfold batchesOf.
  - split; [apply slices_concat; [unfold Server1.BATCH_SIZE; lia|apply Nat.le_refl]|].
    split; [apply (@slices_sizes _ 40); lia|].
    unfold Server1.BATCH_SIZE. rewrite slices_count by lia.
    f_equal. lia.
  - split; [apply slices_concat; [unfold Server2.BATCH_SIZE; lia|apply Nat.le_refl]|].
    split; [apply (@slices_sizes _ 25); lia|].
    unfold Server2.BATCH_SIZE. rewrite slices_count by lia.
    f_equal. lia.
Qed.

(** The two directions of the retry characterisation, once the three
    attempts have been told apart. *)
Ltac retries_forward :=
  let H := fresh "H" in
  intros H;
  first [ injection H as <- | discriminate H ];
  first [ exists 0; split; [lia|split; [assumption|intros j Hj; lia]]
        | exists 1; split; [lia|split; [assumption|
            intros j Hj; assert (j = 0) by lia; subst; eauto]]
        | exists 2; split; [lia|split; [assumption|
            intros j Hj; assert (j = 0 \/ j = 1) as [->| ->] by lia; eauto]]
        | split; [reflexivity|
            intros j Hj; assert (j = 0 \/ j = 1) as [->| ->] by lia; eauto] ].

Ltac retries_backward :=
  first
    [ intros [i [Hi [Hr Hj]]];
      destruct i as [|[|[|i]]];
      try lia;
      try (destruct (Hj 0) as [x Hx]; [lia|congruence]);
      try (destruct (Hj 1) as [x Hx]; [lia|congruence]);
      congruence
    | intros [Hr Hj];
      try (destruct (Hj 0) as [x Hx]; [lia|congruence]);
      try (destruct (Hj 1) as [x Hx]; [lia|congruence]);
      congruence ].

(** X12.  [analyzeBatch] asks the classifier at most three times (attempts
    0, 1 and 2).  It returns the answer of the first attempt that does not
    throw, and asks no further; it throws only when all three attempts
    throw, and then with the error of the third.  The same holds in both
    servers. *)
Theorem analyzeBatch_retries :
  (forall classify batch n,
     let items := List.map Server1.promptItem batch in
     (forall r,
        Server1.analyzeBatch classify batch n = Returned r <->
        exists i, i <= 2 /\ classify n i items = Returned r
                  /\ forall j, j < i -> exists e, classify n j items = Threw e)
     /\
     (forall e,
        Server1.analyzeBatch classify batch n = Threw e <->
        classify n 2 items = Threw e
        /\ forall j, j < 2 -> exists e', classify n j items = Threw e'))
  /\
  (forall classify batch n,
     let items := List.map Server2.promptItem batch in
     (forall r,
        Server2.analyzeBatch classify batch n = Returned r <->
        exists i, i <= 2 /\ classify n i items = Returned r
                  /\ forall j, j < i -> exists e, classify n j items = Threw e)
     /\
     (forall e,
        Server2.analyzeBatch classify batch n = Threw e <->
        classify n 2 items = Threw e
        /\ forall j, j < 2 -> exists e', classify n j items = Threw e')).
Proof.
  split; intros classify batch n items;
    [unfold Server1.analyzeBatch|unfold Server2.analyzeBatch]; fold items; simpl;
    destruct (classify n 0 items) as [r0|e0] eqn:E0;
    destruct (classify n 1 items) as [r1|e1] eqn:E1;
    destruct (classify n 2 items) as [r2|e2] eqn:E2;
    (split; [intros r|intros e]; (split; [retries_forward|retries_backward])).
Qed.

Lemma ofEntries_snoc (V : Type) (es : list (string * V)) (e : string * V) :
  Js.ofEntries (es ++ [e]) = Js.set (fst e) (snd e) (Js.ofEntries es).
Proof. unfold Js.ofEntries. now rewrite fold_left_app. Qed.

(** [new Map(entries).get(k)] is the value of the last entry with key [k]. *)
Lemma get_ofEntries (V : Type) (es : list (string * V)) (k : string) :
  Js.get k (Js.ofEntries es)
  = option_map snd (List.find (fun e => String.eqb (fst e) k) (rev es)).
Proof.
  induction es as [|e es IH] using rev_ind; [reflexivity|].
  rewrite ofEntries_snoc, rev_app_distr. simpl.
  destruct (String.eqb (fst e) k) eqn:E.
  - apply String.eqb_eq in E. subst k. simpl. apply get_set_same.
  - apply String.eqb_neq in E. rewrite get_set_other by congruence. exact IH.
Qed.

Lemma find_map_key (A : Type) (keyOf : A -> string) (l : list A) (k : string) :
  option_map snd (List.find (fun e => String.eqb (fst e) k)
                            (List.map (fun a => (keyOf a, a)) l))
  = List.find (fun a => String.eqb (keyOf a) k) l.
Proof.
  induction l as [|a l IH]; simpl; [reflexivity|].
  destruct (String.eqb (keyOf a) k); [reflexivity|exact IH].
Qed.

(** X13.  When the classifier answers more than once for a key, within a
    batch or across batches, the report uses the last of these answers:
    looking a key up in [analysisMap] gives the last element of
    [aggregatedAnalysis] with that key, and nothing when there is none.
    So the category of a cookie row of server 1 is the category of the
    last answer for the cookie's key, or ['Unknown'] when that answer has
    no category or there is no answer. *)
Theorem last_answer_wins :
  (forall aggregatedAnalysis k,
     Js.get k (Server1.analysisMap aggregatedAnalysis)
     = List.find (fun a => String.eqb (Server1.a_key a) k) (rev aggregatedAnalysis))
  /\
  (forall aggregatedAnalysis k,
     Js.get k (Server2.analysisMap aggregatedAnalysis)
     = List.find (fun a => String.eqb (Server2.a_key a) k) (rev aggregatedAnalysis))
  /\
  (forall now aggregatedAnalysis host i c,
     Server1.ci_category
       (Server1.enrichedCookie now (Server1.analysisMap aggregatedAnalysis) host i c)
     = Js.orElse
         (Server1.field
            (List.find (fun a => String.eqb (Server1.a_key a) (cookieKey (Server1.data c)))
                       (rev aggregatedAnalysis))
            Server1.a_category)
         "Unknown").
Proof.
  assert (H1 : forall aggregatedAnalysis k,
     Js.get k (Server1.analysisMap aggregatedAnalysis)
     = List.find (fun a => String.eqb (Server1.a_key a) k) (rev aggregatedAnalysis)).
  { intros l k. unfold Server1.analysisMap.
    rewrite get_ofEntries, <- map_rev. apply find_map_key. }
  split; [exact H1|]. split.
  - intros l k. unfold Server2.analysisMap.
    rewrite get_ofEntries, <- map_rev. apply find_map_key.
  - intros now l host i c. unfold Server1.enrichedCookie. simpl.
    now rewrite H1.
Qed.

(* ================================================================= *)
(** * The page budget *)

Lemma maxPagesToScan_range (scanDepth : option Q) :
  (1 <= maxPagesToScan scanDepth)%Q /\ (maxPagesToScan scanDepth <= 10)%Q.
Proof.
  unfold maxPagesToScan.
  set (depth := match scanDepth with
                | Some d => if Qeq_bool d 0 then 1%Q else d
                | None => 1%Q
                end).
  destruct (Qle_bool 10 depth) eqn:E10.
  - split; vm_compute; discriminate.
  - destruct (Qle_bool depth 1) eqn:E1.
    + split; vm_compute; discriminate.
    + split.
      * apply Qlt_le_weak. apply Qnot_le_lt. intros H.
        apply Qle_bool_iff in H. congruence.
      * apply Qlt_le_weak. apply Qnot_le_lt. intros H.
        apply Qle_bool_iff in H. congruence.
Qed.

Lemma pageBudget_range (scanDepth : option Q) :
  1 <= pageBudget scanDepth <= 10.
Proof.
  unfold pageBudget. destruct (maxPagesToScan_range scanDepth) as [H1 H10].
  apply Qceiling_resp_le in H1. apply Qceiling_resp_le in H10.
  change (Qceiling 1) with 1%Z in H1. change (Qceiling 10) with 10%Z in H10.
  lia.
Qed.

Lemma pageBudget_guard (scanDepth : option Q) (size : nat) :
  Nat.ltb size (pageBudget scanDepth)
  = Qltb (inject_Z (Z.of_nat size)) (maxPagesToScan scanDepth).
Proof.
  unfold pageBudget. set (x := maxPagesToScan scanDepth).
  destruct (maxPagesToScan_range scanDepth) as [H1 _]. fold x in H1.
  assert (Hc : (1 <= Qceiling x)%Z).
  { apply Qceiling_resp_le in H1. exact H1. }
  destruct (Qltb (inject_Z (Z.of_nat size)) x) eqn:E.
  - apply Qltb_lt in E. apply Nat.ltb_lt.
    assert (H : (inject_Z (Z.of_nat size) < inject_Z (Qceiling x))%Q).
    { eapply Qlt_le_trans; [exact E|apply Qle_ceiling]. }
    rewrite <- Zlt_Qlt in H. lia.
  - apply Qltb_ge in E. apply Nat.ltb_ge.
    assert (H : (inject_Z (Qceiling x - 1) < inject_Z (Z.of_nat size))%Q).
    { eapply Qlt_le_trans; [apply Qceiling_lt|exact E]. }
    rewrite <- Zlt_Qlt in H. lia.
Qed.

Lemma step1_budget hostnameOf browse maxPages root s s' :
  Server1.step hostnameOf browse maxPages root s = Some s' ->
  List.length (Server1.visitedUrls s) <= maxPages ->
  List.length (Server1.visitedUrls s') <= maxPages.
Proof.
  intros Hstep Hle. destruct (step1_measure _ _ _ _ _ Hstep) as [Hlt [[Hv _]|Hv]].
  - now rewrite Hv.
  - lia.
Qed.

Lemma crawl1_budget hostnameOf browse maxPages root fuel s :
  List.length (Server1.visitedUrls s) <= maxPages ->
  List.length (Server1.visitedUrls
                 (Server1.crawl hostnameOf browse maxPages root fuel s)) <= maxPages.
Proof.
  revert s. induction fuel as [|fuel IH]; intros s H; simpl; [exact H|].
  destruct (Server1.step hostnameOf browse maxPages root s) as [s'|] eqn:E; [|exact H].
  apply IH. eapply step1_budget; eassumption.
Qed.

Lemma crawl2_budget parseUrl browse maxPages root fuel s :
  List.length (Server2.visitedUrls s) <= maxPages ->
  List.length (Server2.visitedUrls
                 (Server2.crawl parseUrl browse maxPages root fuel s)) <= maxPages.
Proof.
  revert s. induction fuel as [|fuel IH]; intros s H; simpl; [exact H|].
  destruct (Server2.step parseUrl browse maxPages root s) as [s'|] eqn:E; [|exact H].
  apply IH. destruct (step2_measure _ _ _ _ _ E) as [Hlt [[Hv _]|Hv]].
  - now rewrite Hv.
  - lia.
Qed.


(* ================================================================= *)
(** * The scan handler of server 1 *)

Lemma visitPage1_goto_fails (run : Server1.PageRun) (u e : string) (s : Server1.Crawl) :
  Server1.gotoResult run = Threw e ->
  snd (Eff.tryCatch (Server1.visitPage run u) (fun _ => Eff.ret tt) s)
  = Server1.logGoto u false s.
Proof.
  intros H.
  unfold Server1.visitPage, Eff.tryCatch, Eff.bind, Eff.await, Eff.modify, Eff.ret.
  rewrite H. reflexivity.
Qed.

Lemma step1_nothingSeen hostnameOf browse maxPages root s s' :
  (forall n v, exists e, Server1.gotoResult (browse n v) = Threw e) ->
  Server1.step hostnameOf browse maxPages root s = Some s' ->
  nothingSeen s -> nothingSeen s'.
Proof.
  intros Hoff Hstep Hs. unfold Server1.step in Hstep.
  destruct (Nat.ltb _ _); [|discriminate].
  destruct (Server1.urlsToVisit s) as [|u rest]; [discriminate|].
  simpl in Hstep.
  destruct (String.eqb u EmptyString || set_mem string_dec u (Server1.visitedUrls s));
    [injection Hstep as <-; exact Hs|].
  destruct (hostnameOf u) as [h|]; [|injection Hstep as <-; exact Hs].
  destruct (negb (String.eqb h root)); [injection Hstep as <-; exact Hs|].
  destruct (Hoff (List.length (Server1.gotoLog s)) u) as [e He].
  erewrite visitPage1_goto_fails in Hstep by exact He.
  injection Hstep as <-. exact Hs.
Qed.

Lemma crawl1_nothingSeen hostnameOf browse maxPages root fuel s :
  (forall n v, exists e, Server1.gotoResult (browse n v) = Threw e) ->
  nothingSeen s ->
  nothingSeen (Server1.crawl hostnameOf browse maxPages root fuel s).
Proof.
  intros Hoff. revert s. induction fuel as [|fuel IH]; intros s Hs; simpl; [exact Hs|].
  destruct (Server1.step hostnameOf browse maxPages root s) as [s'|] eqn:E; [|exact Hs].
  apply IH. eapply step1_nothingSeen; eassumption.
Qed.

Lemma report1_nothingSeen classify assess now url_ host s :
  nothingSeen s ->
  Server1.report classify assess now url_ host s = Server1.Json emptyReport.
Proof.
  intros [Hv [Hc [Ht [Hs Hb]]]]. unfold Server1.report, Server1.allItemsToAnalyze.
  rewrite Hc, Ht, Hv, Hs, Hb. reflexivity.
Qed.

(** X14.  A site that cannot be reached is not an error for server 1.
    When the browser starts, the URL parses and every navigation fails,
    the handler answers with a report, not with a 500: no cookies, no
    trackers, no screenshot, no banner, zero pages scanned and the
    assessment "No cookies or trackers were detected." at risk level Low;
    the classifier and the risk assessment are not consulted, and the
    browser is closed. *)
Theorem scan_unreachable_site hostnameOf browse classify assess now invalidUrl
    (fuel : nat) (u root : string) (scanDepth : option Q) :
  u <> EmptyString ->
  hostnameOf u = Some root ->
  (forall n v, exists e, Server1.gotoResult (browse n v) = Threw e) ->
  Server1.scan hostnameOf browse classify assess now (Returned tt) (Returned tt)
               invalidUrl fuel (Some u) scanDepth []
  = (Returned (Server1.Json emptyReport), [Server1.Launched; Server1.Closed]).
Proof.
  intros Hu Hh Hoff. destruct u as [|a u]; [congruence|].
  unfold Server1.scan, Server1.scanBody, Server1.closeBrowser, Eff.tryFinally,
    Eff.tryCatch, Eff.bind, Eff.await, Eff.modify, Eff.read, Eff.ret.
  rewrite Hh. cbn [fst snd app existsb Server1.isLaunched orb].
  rewrite report1_nothingSeen; [reflexivity|].
  apply crawl1_nothingSeen; [exact Hoff|].
  unfold nothingSeen. simpl. auto.
Qed.

Lemma scan_unreachable_site_witness :
  Server1.scan twoPageHostname offline (answering "Analytics" "Compliant") assessLow
               (fun _ => 1700000000000%Z) (Returned tt) (Returned tt) "Invalid URL"
               5 (Some "https://www.example.com/") (Some (3 # 1)%Q) []
  = (Returned (Server1.Json emptyReport), [Server1.Launched; Server1.Closed]).
Proof.
  apply (@scan_unreachable_site twoPageHostname offline
           (answering "Analytics" "Compliant") assessLow
           (fun _ => 1700000000000%Z) "Invalid URL" 5
           "https://www.example.com/" "www.example.com" (Some (3 # 1)%Q)).
  - discriminate.
  - reflexivity.
  - intros n v. eexists. reflexivity.
Defined.

(** X15.  The handler of [POST /api/scan] of server 1 always answers, and
    it never leaves a browser behind: whatever the browser, the classifier
    and the risk assessment do, the browser is either never launched or
    launched once and closed once, after everything else; it is launched
    exactly when the request carries a URL and [puppeteer.launch]
    resolves.  A request without a URL is answered 400 before any browser
    is launched. *)
Theorem scan_closes_browser hostnameOf browse classify assess now
    (launchResult pageResult : Outcome unit) (invalidUrl : string)
    (fuel : nat) (url_ : option string) (scanDepth : option Q) :
  exists response events,
    Server1.scan hostnameOf browse classify assess now launchResult pageResult
                 invalidUrl fuel url_ scanDepth []
    = (Returned response, events)
    /\ (events = [] \/ events = [Server1.Launched; Server1.Closed])
    /\ (events = [Server1.Launched; Server1.Closed] <->
        (exists u, url_ = Some u /\ u <> EmptyString)
        /\ Server1.isOk launchResult = true)
    /\ (url_ = None \/ url_ = Some EmptyString ->
        response = Server1.Failed 400 "URL is required").
Proof.
  destruct url_ as [[|a u]|].
  - eexists _, _. split; [reflexivity|]. split; [now left|]. split; [|auto].
    split; [discriminate|]. intros [[u [E Hu]] _]. congruence.
  - unfold Server1.scan, Server1.scanBody, Server1.closeBrowser, Eff.tryFinally,
      Eff.tryCatch, Eff.bind, Eff.await, Eff.modify, Eff.read, Eff.ret.
    destruct launchResult as [[]|e]; cbn [fst snd app].
    + destruct pageResult as [[]|e]; cbn [fst snd app existsb Server1.isLaunched orb];
        [destruct (hostnameOf (String a u)) as [root|];
         cbn [fst snd app existsb Server1.isLaunched orb]|];
        (eexists _, _; split; [reflexivity|]; split; [now right|];
         split; [|intros [H|H]; discriminate H];
         split; [intros _; split; [eexists; split; [reflexivity|discriminate]
                                  |reflexivity]
                |reflexivity]).
    + eexists _, _. split; [reflexivity|]. split; [now left|].
      split; [|intros [H|H]; discriminate H].
      split; [discriminate|]. intros [_ H]. discriminate H.
  - eexists _, _. split; [reflexivity|]. split; [now left|]. split; [|auto].
    split; [discriminate|]. intros [[u [E Hu]] _]. discriminate.
Qed.

Lemma report1_pages classify assess now url_ host s r :
  Server1.report classify assess now url_ host s = Server1.Json r ->
  Server1.r_pagesScannedCount r = List.length (Server1.visitedUrls s).
Proof.
  unfold Server1.report.
  destruct (Server1.allItemsToAnalyze s); [intros H; now injection H as <-|].
  destruct (Server1.analyzeAll _ _ _ _); [intros H; now injection H as <-|].
  destruct (assess _); [intros H; now injection H as <-|].
  unfold Server1.scanFailed. destruct (Js.includes _ _); discriminate.
Qed.

(** X16.  The page budget.  [MAX_PAGES_TO_SCAN] lies between 1 and 10
    whatever [scanDepth] the request carries (absent, zero, negative,
    fractional or large), and comparing the size of the visited set with
    the bound rounded up is the comparison of the loop guard.  In both
    servers the crawl never holds more visited pages than the bound, after
    any number of iterations and whatever the browser does; so every
    report of server 1 has a [pagesScannedCount] of at most 10. *)
Theorem page_budget :
  (forall scanDepth,
     (1 <= maxPagesToScan scanDepth)%Q /\ (maxPagesToScan scanDepth <= 10)%Q
     /\ 1 <= pageBudget scanDepth <= 10)
  /\ (forall scanDepth size,
        Nat.ltb size (pageBudget scanDepth)
        = Qltb (inject_Z (Z.of_nat size)) (maxPagesToScan scanDepth))
  /\ (forall hostnameOf browse maxPages root fuel url_,
        List.length (Server1.visitedUrls
          (Server1.crawl hostnameOf browse maxPages root fuel (Server1.start url_)))
        <= maxPages)
  /\ (forall parseUrl browse maxPages root fuel url_,
        List.length (Server2.visitedUrls
          (Server2.crawl parseUrl browse maxPages root fuel (Server2.start url_)))
        <= maxPages)
  /\ (forall hostnameOf browse classify assess now launchResult pageResult
             invalidUrl fuel url_ scanDepth r events,
        Server1.scan hostnameOf browse classify assess now launchResult pageResult
                     invalidUrl fuel url_ scanDepth []
        = (Returned (Server1.Json r), events) ->
        Server1.r_pagesScannedCount r <= pageBudget scanDepth
        /\ Server1.r_pagesScannedCount r <= 10).
Proof.
  split.
  { intros sd. destruct (maxPagesToScan_range sd) as [H1 H2].
    split; [exact H1|]. split; [exact H2|apply pageBudget_range]. }
  split; [apply pageBudget_guard|].
  split; [intros; apply crawl1_budget; simpl; lia|].
  split; [intros; apply crawl2_budget; simpl; lia|].
  intros hostnameOf browse classify assess now launchResult pageResult
    invalidUrl fuel url_ scanDepth r events H.
  assert (G : Server1.r_pagesScannedCount r <= pageBudget scanDepth).
  { destruct url_ as [[|a u]|]; try discriminate H.
    unfold Server1.scan, Server1.scanBody, Server1.closeBrowser, Eff.tryFinally,
      Eff.tryCatch, Eff.bind, Eff.await, Eff.modify, Eff.read, Eff.ret in H.
    destruct launchResult as [[]|e]; cbn [fst snd app] in H.
    - destruct pageResult as [[]|e];
        cbn [fst snd app existsb Server1.isLaunched orb] in H.
      + destruct (hostnameOf (String a u)) as [root|];
          cbn [fst snd app existsb Server1.isLaunched orb] in H.
        * injection H as H _. apply report1_pages in H. rewrite H.
          apply crawl1_budget. simpl. lia.
        * unfold Server1.scanFailed in H.
          destruct (Js.includes _ _); discriminate H.
      + unfold Server1.scanFailed in H.
        destruct (Js.includes _ _); discriminate H.
    - unfold Server1.scanFailed in H.
      destruct (Js.includes _ _); discriminate H. }
  split; [exact G|]. pose proof (pageBudget_range scanDepth). lia.
Qed.

Lemma page_budget_witness :
  Server1.r_pagesScannedCount
    {| Server1.r_cookies := []; Server1.r_trackers := [];
       Server1.r_screenshotBase64 := "/9j/4AAQ";
       Server1.r_compliance := {| Server1.gdpr := Server1.lowInfo;
                                  Server1.ccpa := Server1.lowInfo |};
       Server1.r_consentBannerDetected := true;
       Server1.r_pagesScannedCount := 2 |} <= 10.
Proof.
  refine (proj2 (proj2 (proj2 (proj2 (proj2 page_budget)))
            twoPageHostname twoPageSite (answering "Analytics" "Compliant") assessLow
            (fun _ => 1700000000000%Z) (Returned tt) (Returned tt) "Invalid URL"
            10 (Some "https://www.example.com/") (Some (25 # 1)%Q) _
            [Server1.Launched; Server1.Closed] _)).
  vm_compute. reflexivity.
Defined.

(* ================================================================= *)
(** * What the crawl keeps of its maps *)

Section Entries.
Variable V : Type.
Variable P : string -> V -> Prop.
Variable f : V -> V.
Hypothesis f_keeps : forall k v, P k v -> P k (f v).

Lemma mutate_app_absent k (m l : Js.Map V) :
  Js.has k m = false -> Js.mutate k f (m ++ l)%list = (m ++ Js.mutate k f l)%list.
Proof.
  induction m as [|[k' v'] m IH]; simpl; [reflexivity|].
  destruct (String.eqb k k'); [discriminate|]. intros H. now rewrite IH.
Qed.

Lemma upsert_entries k init (m : Js.Map V) :
  P k (f init) -> entriesSatisfy P m -> entriesSatisfy P (upsert k init f m).
Proof.
  intros Hinit [Hnd Hall]. unfold upsert. destruct (Js.has k m) eqn:E.
  - split; [now rewrite keys_mutate|].
    intros k' v' Hin. apply In_mutate in Hin.
    destruct Hin as [Hin|[-> [v0 [Hin ->]]]]; [now apply Hall|].
    apply f_keeps. now apply Hall.
  - rewrite set_absent by exact E. rewrite mutate_app_absent by exact E.
    simpl. rewrite String.eqb_refl. split.
    + unfold keysOf. rewrite map_app. simpl.
      apply NoDup_app; [exact Hnd|constructor; [intros []|constructor]|].
      intros x Hx [<-|[]]. apply has_false_notIn in E. exact (E Hx).
    + intros k' v' Hin. apply in_app_or in Hin.
      destruct Hin as [Hin|[Hin|[]]]; [now apply Hall|].
      injection Hin as <- <-. exact Hinit.
Qed.

Lemma mergeAll_entries (A : Type) (keyOf : A -> string) (init : A -> V)
    (items : list A) (m : Js.Map V) :
  (forall x, In x items -> P (keyOf x) (f (init x))) ->
  entriesSatisfy P m -> entriesSatisfy P (mergeAll keyOf init f items m).
Proof.
  revert m. induction items as [|x items IH]; intros m Hinit Hm; simpl; [exact Hm|].
  apply IH; [intros y Hy; apply Hinit; now right|].
  apply upsert_entries; [apply Hinit; now left|exact Hm].
Qed.
End Entries.

Lemma entriesSatisfy_impl (V : Type) (P Q : string -> V -> Prop) (m : Js.Map V) :
  (forall k v, P k v -> Q k v) -> entriesSatisfy P m -> entriesSatisfy Q m.
Proof. intros H [Hnd Hall]. split; [exact Hnd|]. intros k v Hin. apply H. now apply Hall. Qed.

Lemma set_add_not_nil (A : Type) (dec : forall x y : A, {x = y} + {x <> y})
    (a : A) (x : set A) : set_add dec a x <> [].
Proof. apply set_add_not_empty. Qed.

Lemma processItems2_entries (A : Type) (keyOf : A -> string) (visited : set string)
    map items state page :
  In page visited ->
  entriesSatisfy (entry2 keyOf visited) map ->
  entriesSatisfy (entry2 keyOf visited)
                 (Server2.processItems keyOf map items state page).
Proof.
  intros Hpage Hm. rewrite processItems2_mergeAll.
  apply mergeAll_entries; [| |exact Hm].
  - intros k e [Hk [Hs [Hp Hi]]]. unfold entry2. simpl.
    split; [exact Hk|]. split; [apply set_add_not_nil|].
    split; [apply set_add_not_nil|].
    intros x Hx. apply set_add_elim in Hx. destruct Hx as [->|Hx]; [exact Hpage|now apply Hi].
  - intros x _. unfold entry2. simpl. split; [reflexivity|].
    split; [discriminate|]. split; [discriminate|].
    intros y [<-|[]]. exact Hpage.
Qed.

Lemma processItems1_entries (A : Type) (keyOf : A -> string) map items state :
  entriesSatisfy (entry1 keyOf) map ->
  entriesSatisfy (entry1 keyOf) (Server1.processItems keyOf map items state).
Proof.
  intros Hm. rewrite processItems1_mergeAll.
  apply mergeAll_entries; [| |exact Hm].
  - intros k e [Hk Hs]. unfold entry1. simpl.
    split; [exact Hk|apply set_add_not_nil].
  - intros x _. unfold entry1. simpl. split; [reflexivity|discriminate].
Qed.

Lemma pushLinks2_maps (links : list Server2.Link) (s : Server2.Crawl) :
  Server2.allCookieMap (Server2.pushLinks links s) = Server2.allCookieMap s
  /\ Server2.allNetworkRequestMap (Server2.pushLinks links s)
     = Server2.allNetworkRequestMap s
  /\ Server2.allLocalStorageMap (Server2.pushLinks links s)
     = Server2.allLocalStorageMap s
  /\ Server2.visitedUrls (Server2.pushLinks links s) = Server2.visitedUrls s.
Proof.
  revert s. unfold Server2.pushLinks.
  induction links as [|l links IH]; intros s; simpl; [auto|].
  destruct (negb _ && negb _); [|apply IH].
  destruct (IH (Server2.setQueue
                  (Server2.urlsToVisit s ++
                   [{| Server2.q_url := Server2.href l;
                       Server2.priority :=
                         if existsb (fun keyword =>
                                       Js.includes keyword
                                         (Js.toLowerCase (Server2.text l ++ " " ++
                                                          Server2.href l)))
                                    Server2.priorityKeywords
                         then 1 else 2 |}])%list s)) as [H1 [H2 [H3 H4]]].
  simpl in *. auto.
Qed.

Lemma pushLinks1_maps (links : list string) (s : Server1.Crawl) :
  Server1.allCookieMap (Server1.pushLinks links s) = Server1.allCookieMap s
  /\ Server1.allTrackerMap (Server1.pushLinks links s) = Server1.allTrackerMap s.
Proof.
  revert s. unfold Server1.pushLinks.
  induction links as [|l links IH]; intros s; simpl; [auto|].
  destruct (negb _ && negb _); [|apply IH].
  destruct (IH (Server1.setQueue (Server1.urlsToVisit s ++ [l]) s)) as [H1 H2].
  simpl in *. auto.
Qed.

Lemma mapsInvariant2_visit (s : Server2.Crawl) (u : string)
    (c : Js.Map (Server2.Entry Cookie)) (r : Js.Map (Server2.Entry NetworkRequest))
    (l : Js.Map (Server2.Entry LocalStorageItem)) :
  mapsInvariant2 s ->
  entriesSatisfy (entry2 cookieKey (set_add string_dec u (Server2.visitedUrls s)))
                 (Server2.allCookieMap s)
  /\ entriesSatisfy (entry2 url (set_add string_dec u (Server2.visitedUrls s)))
                    (Server2.allNetworkRequestMap s)
  /\ entriesSatisfy (entry2 storageKey (set_add string_dec u (Server2.visitedUrls s)))
                    (Server2.allLocalStorageMap s).
Proof.
  intros [H1 [H2 H3]].
  split; [|split];
    (eapply entriesSatisfy_impl; [|eassumption]);
    intros k e [Hk [Hs [Hp Hi]]];
    (split; [exact Hk|split; [exact Hs|split; [exact Hp|]]]);
    intros x Hx; apply set_add_intro1; now apply Hi.
Qed.

Lemma visitPage2_maps parseUrl root (run : Server2.PageRun) (u : string)
    (s : Server2.Crawl) :
  mapsInvariant2 s ->
  mapsInvariant2 (snd (Eff.tryCatch (Server2.visitPage parseUrl root run u)
                         (fun _ => Eff.ret tt) s)).
Proof.
  intros Hs.
  destruct (mapsInvariant2_visit u (Server2.allCookieMap s)
              (Server2.allNetworkRequestMap s) (Server2.allLocalStorageMap s) Hs)
    as [H1 [H2 H3]].
  assert (Hu : In u (set_add string_dec u (Server2.visitedUrls s))).
  { apply set_add_intro2. reflexivity. }
  unfold Server2.visitPage, Server2.observe, Eff.tryCatch, Eff.bind, Eff.await,
    Eff.modify, Eff.read, Eff.ret.
  simpl. visit_cases.
  all: try match goal with
           | |- context [Server2.pushLinks ?l ?st] =>
               destruct (pushLinks2_maps l st) as [Hc [Hr [Hl Hv]]];
               unfold mapsInvariant2; rewrite Hc, Hr, Hl, Hv; simpl
           end.
  all: unfold mapsInvariant2; simpl; try exact Hs.
  all: unfold Server2.processLocalStorage;
       repeat match goal with
              | |- _ /\ _ => split
              | |- entriesSatisfy _ (fold_left _ _ _) =>
                  apply (@processItems2_entries _ storageKey); [exact Hu|]
              | |- entriesSatisfy _ (Server2.processItems _ _ _ _ _) =>
                  apply processItems2_entries; [exact Hu|]
              end; assumption.
Qed.

Lemma step2_maps parseUrl browse maxPages root s s' :
  Server2.step parseUrl browse maxPages root s = Some s' ->
  mapsInvariant2 s -> mapsInvariant2 s'.
Proof.
  intros Hstep Hs. unfold Server2.step in Hstep.
  destruct (Nat.ltb _ _); [|discriminate].
  destruct (Server2.sortByPriority (Server2.urlsToVisit s)) as [|item rest];
    [discriminate|].
  simpl in Hstep.
  destruct (set_mem string_dec (Server2.q_url item) (Server2.visitedUrls s));
    [injection Hstep as <-; exact Hs|].
  destruct (parseUrl (Server2.q_url item)) as [pu|]; [|injection Hstep as <-; exact Hs].
  destruct (negb (String.eqb (Server2.u_hostname pu) root));
    [injection Hstep as <-; exact Hs|].
  injection Hstep as <-. apply visitPage2_maps. exact Hs.
Qed.

Lemma crawl2_maps parseUrl browse maxPages root fuel s :
  mapsInvariant2 s ->
  mapsInvariant2 (Server2.crawl parseUrl browse maxPages root fuel s).
Proof.
  revert s. induction fuel as [|fuel IH]; intros s Hs; simpl; [exact Hs|].
  destruct (Server2.step parseUrl browse maxPages root s) as [s'|] eqn:E; [|exact Hs].
  apply IH. eapply step2_maps; eassumption.
Qed.

Lemma mapsInvariant2_start (url_ : string) : mapsInvariant2 (Server2.start url_).
Proof.
  unfold mapsInvariant2, entriesSatisfy. simpl.
  split; [|split]; (split; [apply NoDup_nil|intros k v []]).
Qed.

Lemma step2_visited_NoDup parseUrl browse maxPages root s s' :
  Server2.step parseUrl browse maxPages root s = Some s' ->
  NoDup (Server2.visitedUrls s) -> NoDup (Server2.visitedUrls s').
Proof.
  intros Hstep Hs. unfold Server2.step in Hstep.
  destruct (Nat.ltb _ _); [|discriminate].
  destruct (Server2.sortByPriority (Server2.urlsToVisit s)) as [|item rest];
    [discriminate|].
  simpl in Hstep.
  destruct (set_mem string_dec (Server2.q_url item) (Server2.visitedUrls s));
    [injection Hstep as <-; exact Hs|].
  destruct (parseUrl (Server2.q_url item)) as [pu|]; [|injection Hstep as <-; exact Hs].
  destruct (negb (String.eqb (Server2.u_hostname pu) root));
    [injection Hstep as <-; exact Hs|].
  injection Hstep as <-.
  destruct (visitPage2_core parseUrl root
              (browse (List.length (Server2.gotoLog s)) (Server2.q_url item))
              (Server2.q_url item) (Server2.setQueue rest s)) as [_ [Hv _]].
  rewrite Hv. simpl. destruct (Server2.isOk _); [|exact Hs].
  now apply set_add_nodup.
Qed.

Lemma crawl2_visited_NoDup parseUrl browse maxPages root fuel s :
  NoDup (Server2.visitedUrls s) ->
  NoDup (Server2.visitedUrls (Server2.crawl parseUrl browse maxPages root fuel s)).
Proof.
  revert s. induction fuel as [|fuel IH]; intros s Hs; simpl; [exact Hs|].
  destruct (Server2.step parseUrl browse maxPages root s) as [s'|] eqn:E; [|exact Hs].
  apply IH. eapply step2_visited_NoDup; eassumption.
Qed.

Lemma map_mapi (A B C : Type) (f : nat -> A -> B) (g : B -> C) (h : A -> C)
    (i : nat) (l : list A) :
  (forall j x, g (f j x) = h x) -> List.map g (mapi f i l) = List.map h l.
Proof.
  intros H. revert i. induction l as [|a l IH]; intros i; simpl; [reflexivity|].
  now rewrite H, IH.
Qed.

Lemma keys_of_values (V : Type) (P : string -> V -> Prop) (h : V -> string)
    (m : Js.Map V) :
  (forall k v, In (k, v) m -> k = h v) ->
  List.map h (Js.values m) = keysOf m.
Proof.
  unfold Js.values, keysOf. rewrite map_map.
  intros H. apply map_ext_in. intros [k v] Hin. simpl. symmetry. now apply H.
Qed.

Lemma NoDup_map_filter (A B : Type) (h : A -> B) (p : A -> bool) (l : list A) :
  NoDup (List.map h l) -> NoDup (List.map h (List.filter p l)).
Proof.
  induction l as [|a l IH]; simpl; [auto|].
  intros H. inversion H as [|? ? Hn Hd]; subst.
  destruct (p a); [|now apply IH].
  simpl. constructor; [|now apply IH].
  intros Hin. apply Hn. apply in_map_iff in Hin. destruct Hin as [x [E Hx]].
  apply filter_In in Hx. apply in_map_iff. exists x. split; [exact E|apply Hx].
Qed.

Lemma values_In (V : Type) (m : Js.Map V) (v : V) :
  In v (Js.values m) -> exists k, In (k, v) m.
Proof.
  unfold Js.values. intros H. apply in_map_iff in H.
  destruct H as [[k v'] [E H]]. simpl in E. subst. now exists k.
Qed.

(** X17.  The rows of a report of server 2.  For a crawl from the start
    state, whatever the browser and the classifier do: the cookie rows have
    pairwise distinct keys, and so have the tracker rows and the storage
    rows; every row lists at least one page in [pagesFound], and only
    pages that are listed in [pages]; [pages] has no duplicates and
    [pagesScannedCount] is its length. *)
Theorem report2_rows parseUrl browse maxPages root fuel url_ classify assess now host r :
  Server2.report classify assess now url_ host
    (Server2.crawl parseUrl browse maxPages root fuel (Server2.start url_))
  = Server2.Json r ->
  NoDup (List.map Server2.ci_key (Server2.uniqueCookies r))
  /\ NoDup (List.map Server2.ti_key (Server2.uniqueTrackers r))
  /\ NoDup (List.map Server2.si_key (Server2.uniqueLocalStorage r))
  /\ (forall c, In c (Server2.uniqueCookies r) ->
                Server2.ci_pagesFound c <> []
                /\ incl (Server2.ci_pagesFound c) (Server2.pages r))
  /\ (forall t, In t (Server2.uniqueTrackers r) ->
                Server2.ti_pagesFound t <> []
                /\ incl (Server2.ti_pagesFound t) (Server2.pages r))
  /\ (forall i, In i (Server2.uniqueLocalStorage r) ->
                Server2.si_pagesFound i <> []
                /\ incl (Server2.si_pagesFound i) (Server2.pages r))
  /\ NoDup (Server2.pages r)
  /\ Server2.r_pagesScannedCount r = List.length (Server2.pages r).
Proof.
  set (s := Server2.crawl parseUrl browse maxPages root fuel (Server2.start url_)).
  assert (Hinv : mapsInvariant2 s) by (apply crawl2_maps, mapsInvariant2_start).
  assert (Hnd : NoDup (Server2.visitedUrls s))
    by (apply crawl2_visited_NoDup; simpl; constructor).
  destruct Hinv as [[Hc1 Hc2] [[Hr1 Hr2] [Hl1 Hl2]]].
  unfold Server2.report.
  destruct (Server2.analyzeAll classify 0 _ _) as [agg|e]; [|discriminate].
  destruct (assess _) as [comp|e]; [|discriminate].
  intros H. injection H as <-. simpl.
  split.
  { rewrite (@map_mapi _ _ _ _ _ (fun c => cookieKey (Server2.data c)))
      by reflexivity.
    rewrite (@keys_of_values _ (entry2 cookieKey (Server2.visitedUrls s))); [exact Hc1|].
    intros k v Hin. apply (Hc2 k v Hin). }
  split.
  { rewrite map_map. simpl. unfold Server2.uniqueTrackersForAnalysis.
    apply NoDup_map_filter.
    rewrite (@keys_of_values _ (entry2 url (Server2.visitedUrls s))
               (fun v => url (Server2.data v))); [exact Hr1|].
    intros k v Hin. apply (Hr2 k v Hin). }
  split.
  { rewrite map_map. simpl.
    rewrite (@keys_of_values _ (entry2 storageKey (Server2.visitedUrls s))
               (fun v => storageKey (Server2.data v))); [exact Hl1|].
    intros k v Hin. apply (Hl2 k v Hin). }
  split.
  { intros c Hin. apply mapi_In in Hin. destruct Hin as [j [e [He ->]]]. simpl.
    apply values_In in He. destruct He as [k He].
    destruct (Hc2 k e He) as [_ [_ [Hp Hi]]]. split; assumption. }
  split.
  { intros t Hin. apply in_map_iff in Hin. destruct Hin as [e [<- He]]. simpl.
    unfold Server2.uniqueTrackersForAnalysis in He. apply filter_In in He.
    destruct He as [He _]. apply values_In in He. destruct He as [k He].
    destruct (Hr2 k e He) as [_ [_ [Hp Hi]]]. split; assumption. }
  split.
  { intros i Hin. apply in_map_iff in Hin. destruct Hin as [e [<- He]]. simpl.
    apply values_In in He. destruct He as [k He].
    destruct (Hl2 k e He) as [_ [_ [Hp Hi]]]. split; assumption. }
  split; [exact Hnd|reflexivity].
Qed.

Lemma report2_rows_witness :
  exists r,
    Server2.report answering2 assessHigh (fun _ => 1700000000000%Z)
      "https://www.example.com/" "www.example.com"
      (Server2.crawl cookieSiteUrl cookiePage2 3 "www.example.com" 5
         (Server2.start "https://www.example.com/"))
    = Server2.Json r
    /\ List.length (Server2.uniqueCookies r) = 1
    /\ List.length (Server2.uniqueTrackers r) = 1
    /\ NoDup (List.map Server2.ci_key (Server2.uniqueCookies r))
    /\ (forall c, In c (Server2.uniqueCookies r) ->
                  Server2.ci_pagesFound c <> []
                  /\ incl (Server2.ci_pagesFound c) (Server2.pages r)).
Proof.
  eexists. split; [vm_compute; reflexivity|].
  split; [reflexivity|]. split; [reflexivity|].
  match goal with
  | |- NoDup (List.map _ (Server2.uniqueCookies ?r)) /\ _ =>
      destruct (@report2_rows cookieSiteUrl cookiePage2 3 "www.example.com" 5
                  "https://www.example.com/" answering2 assessHigh
                  (fun _ => 1700000000000%Z) "www.example.com" r)
        as [H1 [_ [_ [H4 _]]]]; [vm_compute; reflexivity|]
  end.
  split; [exact H1|exact H4].
Defined.

Lemma visitPage1_maps (run : Server1.PageRun) (u : string) (s : Server1.Crawl) :
  mapsInvariant1 s ->
  mapsInvariant1 (snd (Eff.tryCatch (Server1.visitPage run u)
                         (fun _ => Eff.ret tt) s)).
Proof.
  intros Hs. destruct Hs as [H1 H2].
  unfold Server1.visitPage, Server1.observe, Eff.tryCatch, Eff.bind, Eff.await,
    Eff.modify, Eff.read, Eff.ret.
  simpl. visit_cases.
  all: try match goal with
           | |- context [Server1.pushLinks ?l ?st] =>
               destruct (pushLinks1_maps l st) as [Hc Ht];
               unfold mapsInvariant1; rewrite Hc, Ht; simpl
           end.
  all: unfold mapsInvariant1; simpl.
  all: repeat match goal with
              | |- _ /\ _ => split
              | |- entriesSatisfy _ (Server1.processItems _ _ _ _) =>
                  apply processItems1_entries
              end; assumption.
Qed.

Lemma step1_maps hostnameOf browse maxPages root s s' :
  Server1.step hostnameOf browse maxPages root s = Some s' ->
  mapsInvariant1 s -> mapsInvariant1 s'.
Proof.
  intros Hstep Hs. unfold Server1.step in Hstep.
  destruct (Nat.ltb _ _); [|discriminate].
  destruct (Server1.urlsToVisit s) as [|u rest]; [discriminate|].
  simpl in Hstep.
  destruct (String.eqb u EmptyString || set_mem string_dec u (Server1.visitedUrls s));
    [injection Hstep as <-; exact Hs|].
  destruct (hostnameOf u) as [h|]; [|injection Hstep as <-; exact Hs].
  destruct (negb (String.eqb h root)); [injection Hstep as <-; exact Hs|].
  injection Hstep as <-. apply visitPage1_maps. exact Hs.
Qed.

Lemma crawl1_maps hostnameOf browse maxPages root fuel s :
  mapsInvariant1 s ->
  mapsInvariant1 (Server1.crawl hostnameOf browse maxPages root fuel s).
Proof.
  revert s. induction fuel as [|fuel IH]; intros s Hs; simpl; [exact Hs|].
  destruct (Server1.step hostnameOf browse maxPages root s) as [s'|] eqn:E; [|exact Hs].
  apply IH. eapply step1_maps; eassumption.
Qed.

(** X18.  The rows of a report of server 1.  For a crawl from the start
    state, whatever the browser and the classifier do, and in each of the
    three kinds of report (nothing found, fallback, classified): the cookie
    rows are, in order, one row for each key [name|domain|path] of the
    cookie map, so no two cookie rows have the same key; and no two
    tracker rows have the same key. *)
Theorem report1_rows hostnameOf browse maxPages root fuel url_ classify assess now host r :
  let s := Server1.crawl hostnameOf browse maxPages root fuel (Server1.start url_) in
  Server1.report classify assess now url_ host s = Server1.Json r ->
  List.map Server1.ci_key (Server1.r_cookies r) = keysOf (Server1.allCookieMap s)
  /\ NoDup (List.map Server1.ci_key (Server1.r_cookies r))
  /\ NoDup (List.map Server1.ti_key (Server1.r_trackers r)).
Proof.
  intros s.
  assert (Hinv : mapsInvariant1 s).
  { apply crawl1_maps. unfold mapsInvariant1, entriesSatisfy. simpl.
    split; (split; [apply NoDup_nil|intros k v []]). }
  destruct Hinv as [[Hc1 Hc2] [Ht1 Ht2]].
  assert (Kc : List.map (fun c => cookieKey (Server1.data c))
                 (Js.values (Server1.allCookieMap s))
               = keysOf (Server1.allCookieMap s)).
  { apply (@keys_of_values _ (entry1 cookieKey)).
    intros k v Hin. apply (Hc2 k v Hin). }
  assert (Kt : NoDup (List.map (fun t : Server1.Entry string => Server1.data t)
                        (Js.values (Server1.allTrackerMap s)))).
  { apply (@NoDup_map_inv _ _ Server1.trackerKey). rewrite map_map.
    rewrite (@keys_of_values _ (entry1 Server1.trackerKey)
               (fun v => Server1.trackerKey (Server1.data v))); [exact Ht1|].
    intros k v Hin. apply (Ht2 k v Hin). }
  unfold Server1.report.
  destruct (Server1.allItemsToAnalyze s) as [|x items] eqn:Ei.
  - unfold Server1.allItemsToAnalyze in Ei. apply app_eq_nil in Ei.
    destruct Ei as [Ec Et]. apply map_eq_nil in Ec.
    intros H. injection H as <-. simpl. rewrite <- Kc, Ec.
    split; [reflexivity|]. split; constructor.
  - match goal with
    | |- context [Server1.analyzeAll ?c ?i ?b ?a] =>
        destruct (Server1.analyzeAll c i b a)
    end;
    [|destruct (assess _);
      [|unfold Server1.scanFailed; destruct (Js.includes _ _); discriminate]];
    intros H; injection H as <-; simpl Server1.r_cookies; simpl Server1.r_trackers;
    unfold Server1.finalEnrichedCookies, Server1.finalEnrichedTrackers;
    rewrite (@map_mapi _ _ _ _ _ (fun c => cookieKey (Server1.data c)))
      by reflexivity;
    rewrite map_map; cbn [Server1.ti_key Server1.fallbackTracker
                            Server1.enrichedTracker];
    (split; [exact Kc|]);
    (split; [rewrite Kc; exact Hc1|exact Kt]).
Qed.

Lemma report1_rows_witness :
  exists r,
    Server1.report (answering "Analytics" "Pre-Consent Violation") assessLow
      (fun _ => 1700000000000%Z) "https://www.example.com/" "www.example.com"
      (Server1.crawl twoPageHostname cookiePage1 3 "www.example.com" 5
         (Server1.start "https://www.example.com/"))
    = Server1.Json r
    /\ List.map Server1.ci_key (Server1.r_cookies r) = ["_ga|.example.com|/"]
    /\ NoDup (List.map Server1.ci_key (Server1.r_cookies r))
    /\ NoDup (List.map Server1.ti_key (Server1.r_trackers r)).
Proof.
  eexists. split; [vm_compute; reflexivity|].
  split; [reflexivity|].
  match goal with
  | |- NoDup (List.map _ (Server1.r_cookies ?r)) /\ _ =>
      destruct (@report1_rows twoPageHostname cookiePage1 3 "www.example.com" 5
                  "https://www.example.com/"
                  (answering "Analytics" "Pre-Consent Violation") assessLow
                  (fun _ => 1700000000000%Z) "www.example.com" r)
        as [_ [H2 H3]]; [vm_compute; reflexivity|]
  end.
  split; [exact H2|exact H3].
Defined.

(* ================================================================= *)
(** * Third-party domains *)

Lemma addAll_In (pages ps : set string) (x : string) :
  In x (fold_left (fun ps p => set_add string_dec p ps) pages ps)
  <-> In x ps \/ In x pages.
Proof.
  revert ps. induction pages as [|p pages IH]; intros ps; simpl; [tauto|].
  rewrite IH. split.
  - intros [H|H]; [|right; now right].
    apply set_add_elim in H. destruct H as [->|H]; [right; now left|now left].
  - intros [H|[<-|H]].
    + left. now apply set_add_intro1.
    + left. now apply set_add_intro2.
    + now right.
Qed.

Lemma addAll_NoDup (pages ps : set string) :
  NoDup ps -> NoDup (fold_left (fun ps p => set_add string_dec p ps) pages ps).
Proof.
  revert ps. induction pages as [|p pages IH]; intros ps H; simpl; [exact H|].
  apply IH. now apply set_add_nodup.
Qed.

(** What the grouping loop has built after the requests [done]. *)
Lemma grouping_invariant (reqs done : list (Server2.Entry NetworkRequest))
    (m : Js.Map (list string)) :
  let step := fun (m : Js.Map (list string)) (req : Server2.Entry NetworkRequest) =>
                let h := hostname (Server2.data req) in
                let m := if Js.has h m then m else Js.set h [] m in
                Js.mutate h
                  (fun pageSet => fold_left (fun ps p => set_add string_dec p ps)
                                            (Server2.pageUrls req) pageSet)
                  m in
  let G := fun (done : list (Server2.Entry NetworkRequest)) (m : Js.Map (list string)) =>
    NoDup (keysOf m)
    /\ (forall req, In req done ->
          exists ps, Js.get (hostname (Server2.data req)) m = Some ps
                     /\ incl (Server2.pageUrls req) ps)
    /\ (forall h ps, Js.get h m = Some ps ->
          NoDup ps
          /\ forall p, In p ps ->
               exists req, In req done /\ hostname (Server2.data req) = h
                           /\ In p (Server2.pageUrls req)) in
  G done m -> G (done ++ reqs)%list (fold_left step reqs m).
Proof.
  cbv zeta. unfold set. revert done m.
  induction reqs as [|req reqs IH]; intros done m HG; simpl.
  - now rewrite app_nil_r.
  - replace (done ++ req :: reqs)%list with ((done ++ [req]) ++ reqs)%list
      by (rewrite <- app_assoc; reflexivity).
    apply IH. destruct HG as [Hnd [Hdone Hm]].
    set (h := hostname (Server2.data req)).
    match goal with
    | |- context [Js.mutate h ?g _] => set (f := g)
    end.
    change (Js.mutate h f (if Js.has h m then m else Js.set h [] m))
      with (upsert h [] f m).
    split.
    { apply (@upsert_entries _ (fun _ _ => True) f); [auto|exact I|].
      split; [exact Hnd|auto]. }
    split.
    { intros req' Hin. apply in_app_or in Hin. destruct Hin as [Hin|[<-|[]]].
      - destruct (Hdone req' Hin) as [ps [Hg Hi]].
        destruct (string_dec (hostname (Server2.data req')) h) as [E|Hne].
        + rewrite E. rewrite upsert_get_same. eexists. split; [reflexivity|].
          unfold current. rewrite E in Hg. rewrite Hg.
          intros x Hx. apply addAll_In. left. now apply Hi.
        + rewrite upsert_get_other by exact Hne. exists ps. split; assumption.
      - fold h. rewrite upsert_get_same. eexists. split; [reflexivity|].
        intros x Hx. apply addAll_In. now right. }
    intros h' ps Hg.
    destruct (string_dec h' h) as [->|Hne].
    + rewrite upsert_get_same in Hg. injection Hg as <-.
      unfold current, f. destruct (Js.get h m) as [ps0|] eqn:E0.
      * destruct (Hm h ps0 E0) as [Hnd0 Hsrc]. split; [now apply addAll_NoDup|].
        intros p Hp. apply addAll_In in Hp. destruct Hp as [Hp|Hp].
        -- destruct (Hsrc p Hp) as [r [Hr [Hh Hpr]]].
           exists r. split; [apply in_or_app; now left|]. split; assumption.
        -- exists req. split; [apply in_or_app; right; now left|].
           split; [reflexivity|exact Hp].
      * split; [apply addAll_NoDup; constructor|].
        intros p Hp. apply addAll_In in Hp. destruct Hp as [[]|Hp].
        exists req. split; [apply in_or_app; right; now left|].
        split; [reflexivity|exact Hp].
    + rewrite upsert_get_other in Hg by exact Hne.
      destruct (Hm h' ps Hg) as [Hnd0 Hsrc]. split; [exact Hnd0|].
      intros p Hp. destruct (Hsrc p Hp) as [r [Hr [Hh Hpr]]].
      exists r. split; [apply in_or_app; now left|]. split; assumption.
Qed.

(** X19.  The third-party domains of a report of server 2 group the
    captured requests by hostname: no hostname is listed twice; every
    captured request has its hostname listed, with all the pages it was
    seen on; every page listed for a hostname is a page on which some
    request to that hostname was seen; a page is listed once, and [count]
    is the number of pages listed (not the number of requests). *)
Theorem third_party_domains_grouping classify assess now url_ host
    (s : Server2.Crawl) (r : Server2.ScanResultData) :
  Server2.report classify assess now url_ host s = Server2.Json r ->
  NoDup (List.map Server2.td_hostname (Server2.thirdPartyDomains r))
  /\ (forall req, In req (Js.values (Server2.allNetworkRequestMap s)) ->
        exists d, In d (Server2.thirdPartyDomains r)
                  /\ Server2.td_hostname d = hostname (Server2.data req)
                  /\ incl (Server2.pageUrls req) (Server2.td_pagesFound d))
  /\ (forall d, In d (Server2.thirdPartyDomains r) ->
        Server2.td_count d = List.length (Server2.td_pagesFound d)
        /\ NoDup (Server2.td_pagesFound d)
        /\ forall p, In p (Server2.td_pagesFound d) ->
             exists req, In req (Js.values (Server2.allNetworkRequestMap s))
                         /\ hostname (Server2.data req) = Server2.td_hostname d
                         /\ In p (Server2.pageUrls req)).
Proof.
  unfold Server2.report.
  destruct (Server2.analyzeAll classify 0 _ _) as [agg|e]; [|discriminate].
  destruct (assess _) as [comp|e]; [|discriminate].
  intros H. injection H as <-. simpl.
  destruct (@grouping_invariant (Js.values (Server2.allNetworkRequestMap s)) [] [])
    as [Hnd [Hdone Hm]].
  { split; [constructor|]. split; [intros req []|intros h ps Hg; discriminate]. }
  simpl in Hdone, Hm. fold (Server2.thirdPartyDomainsMap s) in Hnd, Hdone, Hm.
  split.
  { rewrite map_map. simpl. exact Hnd. }
  split.
  { intros req Hin. destruct (Hdone req Hin) as [ps [Hg Hi]].
    exists {| Server2.td_hostname := hostname (Server2.data req);
              Server2.td_count := List.length ps;
              Server2.td_pagesFound := ps |}.
    split; [|split; [reflexivity|exact Hi]].
    apply in_map_iff. exists (hostname (Server2.data req), ps).
    split; [reflexivity|now apply get_In]. }
  intros d Hd. apply in_map_iff in Hd. destruct Hd as [[h ps] [<- Hin]]. simpl.
  pose proof (@In_get _ h (Server2.thirdPartyDomainsMap s) ps Hnd Hin) as Hget.
  destruct (Hm h ps Hget) as [Hnd0 Hsrc].
  split; [reflexivity|]. split; [exact Hnd0|exact Hsrc].
Qed.

Lemma third_party_domains_grouping_witness :
  exists r,
    Server2.report answering2 assessHigh (fun _ => 1700000000000%Z)
      "https://www.example.com/" "www.example.com"
      (Server2.crawl cookieSiteUrl cookiePage2 3 "www.example.com" 5
         (Server2.start "https://www.example.com/"))
    = Server2.Json r
    /\ List.map Server2.td_hostname (Server2.thirdPartyDomains r)
       = ["www.google-analytics.com"]
    /\ NoDup (List.map Server2.td_hostname (Server2.thirdPartyDomains r)).
Proof.
  eexists. split; [vm_compute; reflexivity|].
  split; [reflexivity|].
  match goal with
  | |- NoDup (List.map _ (Server2.thirdPartyDomains ?r)) =>
      apply (proj1 (@third_party_domains_grouping answering2 assessHigh
                      (fun _ => 1700000000000%Z)
                      "https://www.example.com/" "www.example.com"
                      (Server2.crawl cookieSiteUrl cookiePage2 3 "www.example.com" 5
                         (Server2.start "https://www.example.com/")) r
                      ltac:(vm_compute; reflexivity)))
  end.
Defined.

(* ================================================================= *)
(** * What the request listeners record *)

Lemma requestListener2_sound parseUrl root (fired : list string)
    (reqs : list NetworkRequest) (P : NetworkRequest -> Prop) :
  (forall reqUrl u, In reqUrl fired -> parseUrl reqUrl = Some u ->
     Server2.u_hostname u <> root ->
     Server2.u_protocol u = "http:" \/ Server2.u_protocol u = "https:" ->
     P {| url := reqUrl; hostname := Server2.u_hostname u |}) ->
  Forall P reqs ->
  Forall P (fold_left (Server2.requestListener parseUrl root) fired reqs).
Proof.
  revert reqs. induction fired as [|x fired IH]; intros reqs HP Hreqs; simpl;
    [exact Hreqs|].
  apply IH; [intros reqUrl u Hin; apply HP; now right|].
  unfold Server2.requestListener.
  destruct (parseUrl x) as [u|] eqn:Eu; [|exact Hreqs].
  destruct (negb (String.eqb (Server2.u_hostname u) root)
            && (String.eqb (Server2.u_protocol u) "http:"
                || String.eqb (Server2.u_protocol u) "https:")) eqn:E;
    [|exact Hreqs].
  apply andb_prop in E. destruct E as [E1 E2].
  apply negb_true_iff, String.eqb_neq in E1.
  apply Forall_app. split; [exact Hreqs|]. constructor; [|constructor].
  apply (HP x u); [now left|exact Eu|exact E1|].
  apply orb_prop in E2. destruct E2 as [E2|E2]; apply String.eqb_eq in E2; auto.
Qed.

(** X20.  The request listener of server 2 records only off-site web
    requests.  Whatever the page does during a call of [collectPageData],
    every network request in the data the call returns is a request that
    was issued while the listener was attached, whose URL parses, whose
    hostname differs from the hostname of the scanned site, and whose
    protocol is [http:] or [https:]; its [hostname] field is the hostname
    of its URL.  Requests to the scanned host itself, [data:] and [blob:]
    URLs and URLs that do not parse are never recorded. *)
Theorem collected_requests_are_off_site parseUrl (pg : Server2.ReloadScript)
    (root : string) (d : Server2.Collected) (r : NetworkRequest) :
  Server2.runCollect parseUrl pg root = Returned d ->
  In r (Server2.networkRequests d) ->
  hostname r <> root
  /\ In (url r) (Server2.duringReload pg ++ Server2.duringSettle pg)%list
  /\ exists u, parseUrl (url r) = Some u
               /\ Server2.u_hostname u = hostname r
               /\ (Server2.u_protocol u = "http:" \/ Server2.u_protocol u = "https:").
Proof.
  set (P := fun r : NetworkRequest =>
              hostname r <> root
              /\ In (url r) (Server2.duringReload pg ++ Server2.duringSettle pg)%list
              /\ exists u, parseUrl (url r) = Some u
                           /\ Server2.u_hostname u = hostname r
                           /\ (Server2.u_protocol u = "http:"
                               \/ Server2.u_protocol u = "https:")).
  assert (H1 : Forall P (fold_left (Server2.requestListener parseUrl root)
                           (Server2.duringReload pg) [])).
  { apply requestListener2_sound; [|constructor].
    intros reqUrl u Hin Hu Hh Hp. unfold P. simpl.
    split; [exact Hh|]. split; [apply in_or_app; now left|].
    exists u. auto. }
  assert (H2 : Forall P (fold_left (Server2.requestListener parseUrl root)
                           (Server2.duringSettle pg)
                           (fold_left (Server2.requestListener parseUrl root)
                              (Server2.duringReload pg) []))).
  { apply requestListener2_sound; [|exact H1].
    intros reqUrl u Hin Hu Hh Hp. unfold P. simpl.
    split; [exact Hh|]. split; [apply in_or_app; now right|].
    exists u. auto. }
  unfold Server2.runCollect, Server2.collectPageData, Server2.fire, Eff.tryCatch,
    Eff.tryFinally, Eff.bind, Eff.await, Eff.modify, Eff.read, Eff.ret.
  simpl.
  intros Hd Hin.
  assert (G : Forall P (Server2.networkRequests d)).
  { revert Hd.
    destruct (Server2.reloadResult pg); simpl;
      [|intros E; injection E as <-; constructor].
    destruct (Server2.createSession pg); simpl.
    - destruct (Server2.cdpCookies pg); simpl;
        destruct (Server2.detachResult pg); simpl;
        try (intros E; injection E as <-; constructor);
        destruct (Server2.evaluateResult pg); simpl;
        intros E; injection E as <-; simpl; first [exact H2|constructor].
    - destruct (Server2.evaluateResult pg); simpl;
        intros E; injection E as <-; simpl; first [exact H2|constructor]. }
  rewrite Forall_forall in G. exact (G r Hin).
Qed.

Lemma collected_requests_are_off_site_witness :
  hostname {| url := "https://www.google-analytics.com/g/collect?v=2";
              hostname := "www.google-analytics.com" |} <> "www.example.com"
  /\ In (url {| url := "https://www.google-analytics.com/g/collect?v=2";
                hostname := "www.google-analytics.com" |})
        (Server2.duringReload cookieReload2 ++ Server2.duringSettle cookieReload2)%list
  /\ exists u,
       exampleParseUrl (url {| url := "https://www.google-analytics.com/g/collect?v=2";
                               hostname := "www.google-analytics.com" |}) = Some u
       /\ Server2.u_hostname u
          = hostname {| url := "https://www.google-analytics.com/g/collect?v=2";
                        hostname := "www.google-analytics.com" |}
       /\ (Server2.u_protocol u = "http:" \/ Server2.u_protocol u = "https:").
Proof.
  apply (@collected_requests_are_off_site exampleParseUrl cookieReload2 "www.example.com"
           {| Server2.cookies := [gaCookie];
              Server2.networkRequests :=
                [{| url := "https://www.google-analytics.com/g/collect?v=2";
                    hostname := "www.google-analytics.com" |}];
              Server2.localStorageItems := [];
              Server2.googleConsentV2 :=
                {| Server2.detected := false; Server2.status := "Not Detected" |} |}).
  - reflexivity.
  - now left.
Defined.

Lemma includes_char_cons (sep c : ascii) (s : string) :
  Js.includes (String sep EmptyString) (String c s) = false ->
  Ascii.eqb c sep = false /\ Js.includes (String sep EmptyString) s = false.
Proof.
  rewrite includes_unfold. simpl.
  destruct (ascii_dec sep c) as [->|Hne].
  - destruct s; discriminate.
  - intros H. split; [|exact H]. apply Ascii.eqb_neq. congruence.
Qed.

Lemma splitAux_no_sep (sep : ascii) (a cur : string) :
  Js.includes (String sep EmptyString) a = false ->
  Js.splitAux sep cur a = [cur ++ a].
Proof.
  revert cur. induction a as [|c a IH]; intros cur H; simpl.
  - now rewrite string_app_nil_r.
  - apply includes_char_cons in H. destruct H as [Hc Ha]. rewrite Hc.
    rewrite IH by exact Ha. now rewrite string_app_assoc.
Qed.

Lemma splitAux_first (sep : ascii) (a b cur : string) :
  Js.includes (String sep EmptyString) a = false ->
  Js.splitAux sep cur (a ++ String sep b)
  = (cur ++ a) :: Js.splitAux sep EmptyString b.
Proof.
  revert cur. induction a as [|c a IH]; intros cur H; simpl.
  - rewrite Ascii.eqb_refl. now rewrite string_app_nil_r.
  - apply includes_char_cons in H. destruct H as [Hc Ha]. rewrite Hc.
    rewrite IH by exact Ha. now rewrite string_app_assoc.
Qed.

Lemma knownTrackerDomains1_no_bar (d : string) :
  In d Server1.knownTrackerDomains -> Js.includes "|" d = false.
Proof.
  intros H.
  assert (G : forallb (fun d => negb (Js.includes "|" d)) Server1.knownTrackerDomains
              = true) by (vm_compute; reflexivity).
  rewrite forallb_forall in G. apply G in H. now apply negb_true_iff in H.
Qed.

(** X21.  What server 1 records of a tracking request and how the report
    reads it back.  The listener records a request whose URL contains a
    known tracker domain as the string [domain|url], with the first such
    domain of the list, and records nothing for any other request.  When
    the URL contains no ['|'], the key of the record is the whole string
    and the report row has the domain as provider and the whole URL as
    url.  When the URL contains a ['|'], key and url stop at the first
    ['|'] of the URL: two requests whose URLs differ only after it share
    one key. *)
Theorem tracker_record_fields (reqUrl : string) (trackers : set string) :
  match List.find (fun d => Js.includes d reqUrl) Server1.knownTrackerDomains with
  | None => Server1.requestListener trackers reqUrl = trackers
  | Some d =>
      let item := d ++ "|" ++ reqUrl in
      In item (Server1.requestListener trackers reqUrl)
      /\ Js.includes d reqUrl = true
      /\ (Js.includes "|" reqUrl = false ->
          Server1.trackerKey item = item
          /\ forall analysis states,
               let row := Server1.enrichedTracker analysis
                            {| Server1.states := states; Server1.data := item |} in
               Server1.ti_provider row = d /\ Server1.ti_url row = Some reqUrl)
      /\ (forall a b, reqUrl = a ++ "|" ++ b -> Js.includes "|" a = false ->
          Server1.trackerKey item = d ++ "|" ++ a
          /\ forall analysis states,
               let row := Server1.enrichedTracker analysis
                            {| Server1.states := states; Server1.data := item |} in
               Server1.ti_provider row = d /\ Server1.ti_url row = Some a)
  end.
Proof.
  unfold Server1.requestListener.
  destruct (List.find _ Server1.knownTrackerDomains) as [d|] eqn:Ef; [|reflexivity].
  apply find_some in Ef. destruct Ef as [Hd Hinc].
  pose proof (knownTrackerDomains1_no_bar Hd) as Hbar.
  cbv zeta. split; [apply set_add_intro2; reflexivity|]. split; [exact Hinc|].
  split.
  - intros Hu.
    assert (Hs : Js.split "|" (d ++ "|" ++ reqUrl) = [d; reqUrl]).
    { unfold Js.split. change ("|" ++ reqUrl) with (String "|" reqUrl).
      rewrite splitAux_first by exact Hbar. simpl.
      now rewrite splitAux_no_sep by exact Hu. }
    split.
    + unfold Server1.trackerKey. rewrite Hs. reflexivity.
    + intros analysis states. unfold Server1.enrichedTracker.
      cbn [Server1.ti_provider Server1.ti_url Server1.data].
      rewrite Hs. split; reflexivity.
  - intros a b -> Ha.
    assert (Hs : exists rest, Js.split "|" (d ++ "|" ++ a ++ "|" ++ b) = d :: a :: rest).
    { unfold Js.split. change ("|" ++ a ++ "|" ++ b) with (String "|" (a ++ String "|" b)).
      rewrite splitAux_first by exact Hbar. simpl.
      rewrite splitAux_first by exact Ha. eexists. reflexivity. }
    destruct Hs as [rest Hs]. split.
    + unfold Server1.trackerKey. rewrite Hs. reflexivity.
    + intros analysis states. unfold Server1.enrichedTracker.
      cbn [Server1.ti_provider Server1.ti_url Server1.data].
      rewrite Hs. split; reflexivity.
Qed.

Lemma tracker_record_fields_witness :
  Server1.trackerKey ("google-analytics.com|https://www.google-analytics.com/collect?t=a|b")
  = "google-analytics.com|https://www.google-analytics.com/collect?t=a"
  /\ Server1.trackerKey
       ("google-analytics.com|https://www.google-analytics.com/collect?t=a|c")
     = "google-analytics.com|https://www.google-analytics.com/collect?t=a".
Proof.
  pose proof (tracker_record_fields "https://www.google-analytics.com/collect?t=a|b" [])
    as H1.
  pose proof (tracker_record_fields "https://www.google-analytics.com/collect?t=a|c" [])
    as H2.
  cbv beta iota zeta delta [List.find Server1.knownTrackerDomains] in H1, H2.
  change (Js.includes "google-analytics.com"
            "https://www.google-analytics.com/collect?t=a|b") with true in H1.
  change (Js.includes "google-analytics.com"
            "https://www.google-analytics.com/collect?t=a|c") with true in H2.
  cbv iota in H1, H2.
  destruct H1 as [_ [_ [_ H1]]]. destruct H2 as [_ [_ [_ H2]]].
  split.
  - exact (proj1 (H1 "https://www.google-analytics.com/collect?t=a" "b"
                     eq_refl eq_refl)).
  - exact (proj1 (H2 "https://www.google-analytics.com/collect?t=a" "c"
                     eq_refl eq_refl)).
Defined.

(* ================================================================= *)
(** * The prioritised frontier of server 2 *)

Lemma insertItem_sorted (x : Server2.QueueItem) (l : list Server2.QueueItem) :
  StronglySorted (fun a b => Server2.priority a <= Server2.priority b) l ->
  StronglySorted (fun a b => Server2.priority a <= Server2.priority b)
                 (Server2.insertItem x l).
Proof.
  induction l as [|y l IH]; intros H; simpl.
  - constructor; [constructor|constructor].
  - inversion H as [|? ? Hs Hall]; subst.
    destruct (Nat.leb (Server2.priority x) (Server2.priority y)) eqn:E.
    + apply Nat.leb_le in E. constructor; [exact H|].
      constructor; [exact E|].
      eapply Forall_impl; [|exact Hall]. intros z Hz. simpl in *. lia.
    + apply Nat.leb_gt in E. constructor; [now apply IH|].
      eapply Permutation_Forall; [symmetry; apply insertItem_perm|].
      constructor; [lia|exact Hall].
Qed.

Lemma insertItem_filter (x : Server2.QueueItem) (l : list Server2.QueueItem) (p : nat) :
  List.filter (fun q => Nat.eqb (Server2.priority q) p) (Server2.insertItem x l)
  = List.filter (fun q => Nat.eqb (Server2.priority q) p) (x :: l).
Proof.
  induction l as [|y l IH]; [reflexivity|].
  cbn [Server2.insertItem].
  destruct (Nat.leb (Server2.priority x) (Server2.priority y)) eqn:E; [reflexivity|].
  apply Nat.leb_gt in E.
  cbn [List.filter] in *. rewrite IH.
  destruct (Nat.eqb (Server2.priority x) p) eqn:Ex;
    destruct (Nat.eqb (Server2.priority y) p) eqn:Ey; try reflexivity.
  apply Nat.eqb_eq in Ex, Ey. lia.
Qed.

Lemma sortByPriority_sorted (l : list Server2.QueueItem) :
  StronglySorted (fun a b => Server2.priority a <= Server2.priority b)
                 (Server2.sortByPriority l).
Proof.
  induction l as [|x l IH]; simpl; [constructor|]. now apply insertItem_sorted.
Qed.

Lemma sortByPriority_filter (l : list Server2.QueueItem) (p : nat) :
  List.filter (fun q => Nat.eqb (Server2.priority q) p) (Server2.sortByPriority l)
  = List.filter (fun q => Nat.eqb (Server2.priority q) p) l.
Proof.
  induction l as [|x l IH]; [reflexivity|].
  cbn [Server2.sortByPriority fold_right].
  fold (Server2.sortByPriority l). rewrite insertItem_filter.
  cbn [List.filter]. now rewrite IH.
Qed.

Lemma filter_head_split (A : Type) (f : A -> bool) (l : list A) (x : A) (t : list A) :
  List.filter f l = x :: t ->
  exists l1 l2, l = (l1 ++ x :: l2)%list /\ forall y, In y l1 -> f y = false.
Proof.
  induction l as [|a l IH]; simpl; [discriminate|].
  destruct (f a) eqn:E.
  - intros H. injection H as <- _. exists [], l. split; [reflexivity|intros y []].
  - intros H. destruct (IH H) as [l1 [l2 [-> Hl]]].
    exists (a :: l1), l2. split; [reflexivity|].
    intros y [<-|Hy]; [exact E|now apply Hl].
Qed.

(** X22.  The frontier of server 2 is a stable priority queue.  Sorting
    it rearranges the same entries, in ascending priority, entries of
    equal priority keeping their order.  So the entry the loop takes next
    has the least priority value of the frontier, and of the entries with
    that value it is the one that was enqueued first: every entry enqueued
    before it has a strictly greater priority value. *)
Theorem frontier_priority_order (queue : list Server2.QueueItem) :
  Permutation (Server2.sortByPriority queue) queue
  /\ StronglySorted (fun a b => Server2.priority a <= Server2.priority b)
                    (Server2.sortByPriority queue)
  /\ (forall p,
        List.filter (fun q => Nat.eqb (Server2.priority q) p)
                    (Server2.sortByPriority queue)
        = List.filter (fun q => Nat.eqb (Server2.priority q) p) queue)
  /\ (forall currentItem rest,
        Server2.sortByPriority queue = currentItem :: rest ->
        (forall q, In q queue -> Server2.priority currentItem <= Server2.priority q)
        /\ exists before after,
             queue = (before ++ currentItem :: after)%list
             /\ forall q, In q before ->
                          Server2.priority currentItem < Server2.priority q).
Proof.
  split; [apply sortByPriority_perm|].
  split; [apply sortByPriority_sorted|].
  split; [intros p; apply sortByPriority_filter|].
  intros currentItem rest E.
  pose proof (sortByPriority_sorted queue) as Hs. rewrite E in Hs.
  inversion Hs as [|? ? _ Hall]; subst.
  assert (Hmin : forall q, In q queue ->
                   Server2.priority currentItem <= Server2.priority q).
  { intros q Hq.
    apply (Permutation_in _ (Permutation_sym (sortByPriority_perm queue))) in Hq.
    rewrite E in Hq. destruct Hq as [<-|Hq]; [lia|].
    rewrite Forall_forall in Hall. now apply Hall. }
  split; [exact Hmin|].
  pose proof (sortByPriority_filter queue (Server2.priority currentItem)) as Hf.
  rewrite E in Hf. cbn [List.filter] in Hf. rewrite Nat.eqb_refl in Hf.
  symmetry in Hf. apply filter_head_split in Hf.
  destruct Hf as [before [after [Hq Hb]]].
  exists before, after. split; [exact Hq|].
  intros q Hin. pose proof (Hb q Hin) as Hne. apply Nat.eqb_neq in Hne.
  assert (Server2.priority currentItem <= Server2.priority q).
  { apply Hmin. rewrite Hq. apply in_or_app. now left. }
  lia.
Qed.

Lemma frontier_priority_order_witness :
  let queue := [ {| Server2.q_url := "https://www.example.com/blog";
                    Server2.priority := 2 |};
                 {| Server2.q_url := "https://www.example.com/privacy";
                    Server2.priority := 1 |};
                 {| Server2.q_url := "https://www.example.com/terms";
                    Server2.priority := 1 |} ] in
  let currentItem := {| Server2.q_url := "https://www.example.com/privacy";
                        Server2.priority := 1 |} in
  (forall q, In q queue -> Server2.priority currentItem <= Server2.priority q)
  /\ exists before after,
       queue = (before ++ currentItem :: after)%list
       /\ forall q, In q before -> Server2.priority currentItem < Server2.priority q.
Proof.
  cbv zeta.
  eapply (proj2 (proj2 (proj2 (frontier_priority_order _)))).
  reflexivity.
Defined.

(* ================================================================= *)
(** * The cleaning of the classifier's answer *)

Lemma trimStart_app (a b : string) (c : ascii) :
  Js.isSpace c = false ->
  Js.trimStart (a ++ String c b) = Js.trimStart a ++ String c b.
Proof.
  intros Hc. induction a as [|x a IH]; simpl.
  - now rewrite Hc.
  - destruct (Js.isSpace x); [exact IH|reflexivity].
Qed.

Lemma trimEnd_app (a b : string) (c : ascii) :
  Js.isSpace c = false ->
  Js.trimEnd (a ++ String c b) = a ++ String c (Js.trimEnd b).
Proof.
  intros Hc. induction a as [|x a IH]; simpl.
  - destruct (Js.trimEnd b); [now rewrite Hc|reflexivity].
  - rewrite IH. destruct a; reflexivity.
Qed.

Lemma indexOf_trimStart (c : ascii) (s : string) :
  Js.indexOf c s = None -> Js.indexOf c (Js.trimStart s) = None.
Proof.
  induction s as [|x s IH]; simpl; [reflexivity|].
  destruct (Ascii.eqb x c) eqn:E; [discriminate|].
  destruct (Js.indexOf c s) eqn:Ei; [discriminate|]. intros _.
  destruct (Js.isSpace x); [now apply IH|].
  simpl. now rewrite E, Ei.
Qed.

Lemma lastIndexOf_trimEnd (c : ascii) (s : string) :
  Js.lastIndexOf c s = None -> Js.lastIndexOf c (Js.trimEnd s) = None.
Proof.
  induction s as [|x s IH]; simpl; [reflexivity|].
  destruct (Js.lastIndexOf c s) eqn:El; [discriminate|].
  destruct (Ascii.eqb x c) eqn:E; [discriminate|]. intros _.
  specialize (IH eq_refl).
  destruct (Js.trimEnd s) as [|y t] eqn:Et.
  - destruct (Js.isSpace x); [reflexivity|]. simpl. now rewrite E.
  - cbn [Js.lastIndexOf] in *. rewrite IH. now rewrite E.
Qed.

Lemma indexOf_app (c : ascii) (a b : string) :
  Js.indexOf c a = None ->
  Js.indexOf c (a ++ String c b) = Some (String.length a).
Proof.
  induction a as [|x a IH]; simpl.
  - now rewrite Ascii.eqb_refl.
  - destruct (Ascii.eqb x c); [discriminate|].
    destruct (Js.indexOf c a); [discriminate|]. intros _. now rewrite IH.
Qed.

Lemma lastIndexOf_app (c : ascii) (a b : string) :
  Js.lastIndexOf c b = None ->
  Js.lastIndexOf c (a ++ String c b) = Some (String.length a).
Proof.
  intros Hb. induction a as [|x a IH]; simpl.
  - now rewrite Hb, Ascii.eqb_refl.
  - now rewrite IH.
Qed.

Lemma substring_app_mid (p x q : string) :
  String.substring (String.length p) (String.length x) (p ++ x ++ q) = x.
Proof.
  induction p as [|c p IH]; simpl; [|exact IH].
  induction x as [|c x IH]; simpl; [now destruct q|now rewrite IH].
Qed.

Lemma jsonPart_array (pre mid post : string) :
  Js.indexOf "[" pre = None -> Js.lastIndexOf "]" post = None ->
  Server1.jsonPart (pre ++ "[" ++ mid ++ "]" ++ post)
  = Returned ("[" ++ mid ++ "]").
Proof.
  intros Hpre Hpost. unfold Server1.jsonPart, Js.trim.
  set (pre' := Js.trimStart pre). set (post' := Js.trimEnd post).
  assert (Hassoc : forall q, pre' ++ String "[" (mid ++ String "]" q)
                             = (pre' ++ String "[" mid) ++ String "]" q).
  { intros q. rewrite string_app_assoc. reflexivity. }
  assert (Htrim : Js.trimEnd (Js.trimStart (pre ++ "[" ++ mid ++ "]" ++ post))
                  = pre' ++ String "[" (mid ++ String "]" post')).
  { change ("[" ++ mid ++ "]" ++ post) with (String "[" (mid ++ String "]" post)).
    rewrite trimStart_app by reflexivity. fold pre'.
    rewrite Hassoc, trimEnd_app by reflexivity. fold post'. now rewrite Hassoc. }
  rewrite Htrim.
  assert (Hi : Js.indexOf "[" (pre' ++ String "[" (mid ++ String "]" post'))
               = Some (String.length pre')).
  { apply indexOf_app. apply indexOf_trimStart. exact Hpre. }
  assert (Hl : Js.lastIndexOf "]" (pre' ++ String "[" (mid ++ String "]" post'))
               = Some (String.length pre' + S (String.length mid))).
  { rewrite Hassoc, lastIndexOf_app by (apply lastIndexOf_trimEnd; exact Hpost).
    rewrite string_length_app. reflexivity. }
  rewrite Hi, Hl.
  replace (Nat.leb (String.length pre' + S (String.length mid)) (String.length pre'))
    with false by (symmetry; apply Nat.leb_gt; lia).
  unfold Js.substring.
  replace (Nat.min (String.length pre') (String.length pre' + S (String.length mid) + 1))
    with (String.length pre') by lia.
  replace (Nat.max (String.length pre') (String.length pre' + S (String.length mid) + 1)
           - String.length pre')
    with (String.length ("[" ++ mid ++ "]"))
    by (simpl; rewrite string_length_app; simpl; lia).
  replace (pre' ++ String "[" (mid ++ String "]" post'))
    with (pre' ++ ("[" ++ mid ++ "]") ++ post')
    by (simpl; now rewrite string_app_assoc).
  now rewrite substring_app_mid.
Qed.

Lemma jsonPart_no_array (resultText : string) :
  Js.indexOf "[" resultText = None \/ Js.lastIndexOf "]" resultText = None ->
  Server1.jsonPart resultText = Threw "No valid JSON array found in AI response".
Proof.
  unfold Server1.jsonPart, Js.trim. intros [H|H].
  - apply indexOf_trimStart in H.
    assert (G : Js.indexOf "[" (Js.trimEnd (Js.trimStart resultText)) = None).
    { revert H. generalize (Js.trimStart resultText). clear.
      induction s as [|x s IH]; simpl; [reflexivity|].
      destruct (Ascii.eqb x "[") eqn:E; [discriminate|].
      destruct (Js.indexOf "[" s) eqn:Ei; [discriminate|]. intros _.
      specialize (IH eq_refl).
      destruct (Js.trimEnd s) as [|y t] eqn:Et.
      - destruct (Js.isSpace x); [reflexivity|]. simpl. now rewrite E.
      - cbn [Js.indexOf] in *. rewrite E.
        destruct (Ascii.eqb y "["); [discriminate|].
        destruct (Js.indexOf "[" t); [discriminate|reflexivity]. }
    now rewrite G.
  - assert (G : Js.lastIndexOf "]" (Js.trimEnd (Js.trimStart resultText)) = None).
    { apply lastIndexOf_trimEnd. revert H. clear.
      induction resultText as [|x s IH]; simpl; [reflexivity|].
      destruct (Js.lastIndexOf "]" s) eqn:El; [discriminate|].
      destruct (Ascii.eqb x "]") eqn:E; [discriminate|]. intros _.
      destruct (Js.isSpace x); [now apply IH|].
      simpl. now rewrite El, E. }
    rewrite G. now destruct (Js.indexOf _ _).
Qed.

(** X23.  The cleaning of the classifier's answer in server 1.  Text
    before the first ['['] and after the last [']'] of the answer is
    dropped: for an answer that consists of some text without ['['], an
    array, and some text without [']'], the part handed to [JSON.parse] is
    exactly the array, so the attempt returns what parsing the array
    returns.  An answer without ['['] or without [']'] makes the attempt
    throw "No valid JSON array found in AI response" before anything is
    parsed. *)
Theorem answer_cleaning generate parse (batchNum attempt : nat)
    (items : list Server1.PromptItem) (pre mid post resultText : string) :
  (Js.indexOf "[" pre = None -> Js.lastIndexOf "]" post = None ->
   Server1.jsonPart (pre ++ "[" ++ mid ++ "]" ++ post) = Returned ("[" ++ mid ++ "]")
   /\ (generate batchNum attempt items
       = Returned (Some (pre ++ "[" ++ mid ++ "]" ++ post)) ->
       Server1.attemptOnce generate parse batchNum attempt items
       = match parse ("[" ++ mid ++ "]") with
         | Threw e => Threw e
         | Returned None => Threw "Response is not an array"
         | Returned (Some parsedResult) => Returned parsedResult
         end))
  /\ (Js.indexOf "[" resultText = None \/ Js.lastIndexOf "]" resultText = None ->
      Server1.jsonPart resultText = Threw "No valid JSON array found in AI response"
      /\ (resultText <> EmptyString ->
          generate batchNum attempt items = Returned (Some resultText) ->
          Server1.attemptOnce generate parse batchNum attempt items
          = Threw "No valid JSON array found in AI response")).
Proof.
  split.
  - intros Hpre Hpost. pose proof (@jsonPart_array pre mid post Hpre Hpost) as Hj.
    split; [exact Hj|]. intros Hg. unfold Server1.attemptOnce. rewrite Hg.
    destruct (pre ++ "[" ++ mid ++ "]" ++ post) as [|c s] eqn:E.
    + destruct pre; discriminate.
    + rewrite Hj. reflexivity.
  - intros H. pose proof (@jsonPart_no_array resultText H) as Hj.
    split; [exact Hj|]. intros Hne Hg. unfold Server1.attemptOnce. rewrite Hg.
    destruct resultText as [|c s]; [congruence|]. now rewrite Hj.
Qed.

Lemma answer_cleaning_witness :
  Server1.jsonPart ("Here is the JSON you asked for: " ++ "["
                    ++ "{ key: 1 }, { key: 2 }" ++ "]" ++ " Let me know!")
  = Returned ("[" ++ "{ key: 1 }, { key: 2 }" ++ "]")
  /\ Server1.jsonPart "I cannot help with that."
     = Threw "No valid JSON array found in AI response".
Proof.
  split.
  - apply (proj1 (@answer_cleaning (fun _ _ _ => Returned None)
                    (fun _ => Returned None) 0 0 []
                    "Here is the JSON you asked for: " "{ key: 1 }, { key: 2 }"
                    " Let me know!" "I cannot help with that."));
      reflexivity.
  - apply (proj2 (@answer_cleaning (fun _ _ _ => Returned None)
                    (fun _ => Returned None) 0 0 []
                    "Here is the JSON you asked for: " "{ key: 1 }, { key: 2 }"
                    " Let me know!" "I cannot help with that.")).
    left. reflexivity.
Defined.

(* ================================================================= *)
(** * The numbers of the expiry text *)





(* ================================================================= *)
(** * First party, and the same-site check of the streaming variant *)

Lemma stripWww_www (host : string) :
  Js.startsWith "www." host = true -> host = "www." ++ stripWww host.
Proof.
  intros H. unfold stripWww. rewrite H. unfold Js.startsWith in H.
  apply prefix_iff in H. destruct H as [q ->].
  replace (String.length ("www." ++ q) - 4) with (String.length q) by (simpl; lia).
  change ("www." ++ q
          = "www." ++ String.substring (String.length "www.") (String.length q)
                        ("www." ++ q)).
  now rewrite substring_app_r.
Qed.

(** X25.  Which cookies are first party.  The party of a cookie is
    [First] exactly when its domain, with a leading dot added if it has
    none, is some text followed by a dot and the scanned hostname without
    its leading [www.]; the match starts at a dot, so [.notexample.com] is
    third party on [example.com].  Hence a cookie set on any subdomain of
    that hostname is first party, and so is a host-only cookie of the
    scanned host itself, with or without [www.]. *)
Theorem first_party_domains (host : string) (c : Cookie) :
  (cookieParty host c = First <->
   exists p, dotted (domain c) = p ++ "." ++ stripWww host)
  /\ (forall sub, domain c = sub ++ "." ++ stripWww host -> cookieParty host c = First)
  /\ (Js.startsWith "." (stripWww host) = false ->
      domain c = host \/ domain c = stripWww host -> cookieParty host c = First).
Proof.
  assert (Hiff : cookieParty host c = First <->
                 exists p, dotted (domain c) = p ++ "." ++ stripWww host).
  { unfold cookieParty. fold (dotted (domain c)).
    destruct (Js.endsWith ("." ++ stripWww host) (dotted (domain c))) eqn:E.
    - apply endsWith_iff in E. split; [intros _; exact E|reflexivity].
    - split; [discriminate|]. intros H. apply endsWith_iff in H. congruence. }
  split; [exact Hiff|]. split.
  - intros sub Hd. apply Hiff. unfold dotted. rewrite Hd.
    destruct (Js.startsWith "." (sub ++ "." ++ stripWww host)).
    + now exists sub.
    + exists ("." ++ sub). now rewrite string_app_assoc.
  - intros Hdot Hd. apply Hiff. unfold dotted.
    destruct (Js.startsWith "www." host) eqn:Ew.
    + pose proof (stripWww_www host Ew) as Hw.
      destruct Hd as [Hd|Hd]; rewrite Hd.
      * replace (Js.startsWith "." host) with false by (now rewrite Hw).
        exists ".www". rewrite Hw at 1. reflexivity.
      * rewrite Hdot. now exists EmptyString.
    + assert (Hs : stripWww host = host) by (unfold stripWww; now rewrite Ew).
      rewrite Hs in *. destruct Hd as [Hd|Hd]; rewrite Hd, Hdot; now exists EmptyString.
Qed.

Lemma first_party_domains_witness :
  cookieParty "www.example.com" (exampleCookie "sid" "www.example.com" 0 true) = First
  /\ cookieParty "www.example.com"
       (exampleCookie "cart" "shop.example.com" 0 true) = First
  /\ cookieParty "example.com" (exampleCookie "id" ".notexample.com" 0 true) = Third.
Proof.
  split; [|split].
  - apply (proj2 (proj2 (first_party_domains "www.example.com"
                           (exampleCookie "sid" "www.example.com" 0 true))));
      [reflexivity|now left].
  - apply (proj1 (proj2 (first_party_domains "www.example.com"
                           (exampleCookie "cart" "shop.example.com" 0 true))) "shop").
    reflexivity.
  - reflexivity.
Defined.


Lemma splitAux_not_nil (sep : ascii) (cur s : string) : Js.splitAux sep cur s <> [].
Proof.
  revert cur. induction s as [|c s IH]; intros cur; simpl; [discriminate|].
  destruct (Ascii.eqb c sep); [discriminate|apply IH].
Qed.

Lemma join_cons (sep x : string) (l : list string) :
  l <> [] -> Js.join sep (x :: l) = x ++ sep ++ Js.join sep l.
Proof. destruct l; [congruence|reflexivity]. Qed.

Lemma join_splitAux (sep : ascii) (s cur : string) :
  Js.join (String sep EmptyString) (Js.splitAux sep cur s) = cur ++ s.
Proof.
  revert cur. induction s as [|c s IH]; intros cur; simpl.
  - now rewrite string_app_nil_r.
  - destruct (Ascii.eqb c sep) eqn:E.
    + apply Ascii.eqb_eq in E. subst c.
      rewrite join_cons by apply splitAux_not_nil. now rewrite IH.
    + rewrite IH. now rewrite string_app_assoc.
Qed.

Lemma join_skipn_suffix (sep : string) (k : nat) (parts : list string) :
  exists p, Js.join sep parts = p ++ Js.join sep (skipn k parts).
Proof.
  revert parts. induction k as [|k IH]; intros parts; simpl.
  - now exists EmptyString.
  - destruct parts as [|x parts]; [now exists EmptyString|].
    destruct (IH parts) as [p Hp].
    destruct parts as [|y parts].
    + exists x. rewrite skipn_nil. simpl. now rewrite string_app_nil_r.
    + exists (x ++ sep ++ p). rewrite join_cons by discriminate.
      rewrite Hp. now rewrite !string_app_assoc.
Qed.

(** X26.  The same-site check of the streaming variant is a plain suffix
    test.  A dequeued URL passes exactly when its hostname ends with the
    last two labels of the root hostname.  So the root hostname passes,
    and so does every subdomain of those two labels; but the suffix need
    not start at a label boundary, and a hostname that merely ends with
    the same letters, such as [notexample.com] for [example.com], passes
    as well. *)
Theorem same_site_suffix_check (rootHostname : string) :
  (forall pageHostname,
     Server3.skipped rootHostname pageHostname = false <->
     exists p, pageHostname = p ++ Server3.mainDomain rootHostname)
  /\ Server3.skipped rootHostname rootHostname = false
  /\ (forall p, Server3.skipped rootHostname (p ++ Server3.mainDomain rootHostname)
                = false).
Proof.
  assert (Hiff : forall pageHostname,
     Server3.skipped rootHostname pageHostname = false <->
     exists p, pageHostname = p ++ Server3.mainDomain rootHostname).
  { intros h. unfold Server3.skipped. rewrite negb_false_iff. apply endsWith_iff. }
  split; [exact Hiff|]. split.
  - apply Hiff. unfold Server3.mainDomain.
    destruct (join_skipn_suffix "." (List.length (Js.split "." rootHostname) - 2)
                (Js.split "." rootHostname)) as [p Hp].
    exists p. rewrite <- Hp. unfold Js.split. now rewrite join_splitAux.
  - intros p. apply Hiff. now exists p.
Qed.

(* ================================================================= *)
(** * The end of the crawl *)

Lemma crawl1_more hostnameOf browse maxPages root (fuel more : nat) (s : Server1.Crawl) :
  Server1.step hostnameOf browse maxPages root
    (Server1.crawl hostnameOf browse maxPages root fuel s) = None ->
  Server1.crawl hostnameOf browse maxPages root (fuel + more) s
  = Server1.crawl hostnameOf browse maxPages root fuel s.
Proof.
  revert s. induction fuel as [|fuel IH]; intros s H; simpl in *.
  - destruct more; [reflexivity|]. simpl. now rewrite H.
  - destruct (Server1.step hostnameOf browse maxPages root s) as [s'|] eqn:E;
      [now apply IH|reflexivity].
Qed.

Lemma crawl2_more parseUrl browse maxPages root (fuel more : nat) (s : Server2.Crawl) :
  Server2.step parseUrl browse maxPages root
    (Server2.crawl parseUrl browse maxPages root fuel s) = None ->
  Server2.crawl parseUrl browse maxPages root (fuel + more) s
  = Server2.crawl parseUrl browse maxPages root fuel s.
Proof.
  revert s. induction fuel as [|fuel IH]; intros s H; simpl in *.
  - destruct more; [reflexivity|]. simpl. now rewrite H.
  - destruct (Server2.step parseUrl browse maxPages root s) as [s'|] eqn:E;
      [now apply IH|reflexivity].
Qed.

(** X27.  Both crawl loops end.  From any state, whatever the browser
    does and however many links the pages hold, some number of iterations
    brings the loop to a state in which its condition is false; running
    it for longer changes nothing, so the crawl has one final state and the
    report is built from it. *)
Theorem crawl_loops_end :
  (forall hostnameOf browse maxPages root (s : Server1.Crawl),
     exists fuel,
       Server1.step hostnameOf browse maxPages root
         (Server1.crawl hostnameOf browse maxPages root fuel s) = None
       /\ forall more,
            Server1.crawl hostnameOf browse maxPages root (fuel + more) s
            = Server1.crawl hostnameOf browse maxPages root fuel s)
  /\
  (forall parseUrl browse maxPages root (s : Server2.Crawl),
     exists fuel,
       Server2.step parseUrl browse maxPages root
         (Server2.crawl parseUrl browse maxPages root fuel s) = None
       /\ forall more,
            Server2.crawl parseUrl browse maxPages root (fuel + more) s
            = Server2.crawl parseUrl browse maxPages root fuel s).
Proof.
  split.
  - intros hostnameOf browse maxPages root s.
    destruct (crawl1_terminates hostnameOf browse maxPages root s) as [fuel H].
    exists fuel. split; [exact H|]. intros more. now apply crawl1_more.
  - intros parseUrl browse maxPages root s.
    destruct (crawl2_terminates parseUrl browse maxPages root s) as [fuel H].
    exists fuel. split; [exact H|]. intros more. now apply crawl2_more.
Qed.

(* ================================================================= *)
(** * The three stages are taken on the entry page only *)

Lemma hd_set_add_first (u : string) (visited : set string) :
  List.length (set_add string_dec u visited) = 1 ->
  hd_error (set_add string_dec u visited) = Some u.
Proof.
  destruct visited as [|a [|b visited]]; simpl.
  - reflexivity.
  - destruct (string_dec u a) as [->|Hne]; [reflexivity|discriminate].
  - destruct (string_dec u a); [discriminate|].
    destruct (string_dec u b); [discriminate|].
    simpl. destruct (set_add string_dec u visited); discriminate.
Qed.

Lemma hd_set_add_later (u entryPage : string) (visited : set string) :
  hd_error visited = Some entryPage ->
  hd_error (set_add string_dec u visited) = Some entryPage.
Proof.
  destruct visited as [|a visited]; simpl; [discriminate|].
  intros H. injection H as ->. now destruct (string_dec u entryPage).
Qed.

Lemma processItems2_stages (A : Type) (keyOf : A -> string) (visited : set string)
    map items state page :
  state = PostAcceptance \/ hd_error visited = Some page ->
  entriesSatisfy (fun _ e => onEntryPage visited e) map ->
  entriesSatisfy (fun _ (e : Server2.Entry A) => onEntryPage visited e)
                 (Server2.processItems keyOf map items state page).
Proof.
  intros Hst Hm. rewrite processItems2_mergeAll.
  apply mergeAll_entries; [| |exact Hm].
  - intros k e He st Hin. simpl in Hin. apply set_add_elim in Hin.
    destruct Hin as [->|Hin].
    + destruct Hst as [->|Hp]; [now left|].
      right. exists page. split; [exact Hp|]. simpl. apply set_add_intro2. reflexivity.
    + destruct (He st Hin) as [->|[u0 [Hu0 Hin0]]]; [now left|].
      right. exists u0. split; [exact Hu0|]. simpl. now apply set_add_intro1.
  - intros x _ st Hin. simpl in Hin. destruct Hin as [<-|[]].
    destruct Hst as [->|Hp]; [now left|].
    right. exists page. split; [exact Hp|]. simpl. now left.
Qed.

Lemma stagesInvariant2_visit (s : Server2.Crawl) (u : string) :
  stagesInvariant2 s ->
  entriesSatisfy (fun _ e => onEntryPage (set_add string_dec u (Server2.visitedUrls s)) e)
                 (Server2.allCookieMap s)
  /\ entriesSatisfy
       (fun _ e => onEntryPage (set_add string_dec u (Server2.visitedUrls s)) e)
       (Server2.allNetworkRequestMap s)
  /\ entriesSatisfy
       (fun _ e => onEntryPage (set_add string_dec u (Server2.visitedUrls s)) e)
       (Server2.allLocalStorageMap s).
Proof.
  intros [H1 [H2 H3]].
  split; [|split];
    (eapply entriesSatisfy_impl; [|eassumption]);
    intros k e He st Hin;
    (destruct (He st Hin) as [->|[u0 [Hu0 Hin0]]]; [now left|]);
    right; exists u0; (split; [now apply hd_set_add_later|exact Hin0]).
Qed.

Lemma visitPage2_stages parseUrl root (run : Server2.PageRun) (u : string)
    (s : Server2.Crawl) :
  stagesInvariant2 s ->
  stagesInvariant2 (snd (Eff.tryCatch (Server2.visitPage parseUrl root run u)
                           (fun _ => Eff.ret tt) s)).
Proof.
  intros Hs.
  destruct (stagesInvariant2_visit u Hs) as [H1 [H2 H3]].
  unfold Server2.visitPage, Server2.observe, Eff.tryCatch, Eff.bind, Eff.await,
    Eff.modify, Eff.read, Eff.ret.
  simpl. destruct (Server2.gotoResult run); simpl; [|exact Hs].
  destruct (Nat.eqb (List.length (set_add string_dec u (Server2.visitedUrls s))) 1)
    eqn:E1; simpl.
  - apply Nat.eqb_eq in E1. apply hd_set_add_first in E1.
    visit_cases.
    all: try match goal with
             | |- context [Server2.pushLinks ?l ?st] =>
                 destruct (pushLinks2_maps l st) as [Hc [Hr [Hl Hv]]];
                 unfold stagesInvariant2; rewrite Hc, Hr, Hl, Hv; simpl
             end.
    all: unfold stagesInvariant2; simpl.
    all: unfold Server2.processLocalStorage;
         repeat match goal with
                | |- _ /\ _ => split
                | |- entriesSatisfy _ (fold_left _ _ _) =>
                    apply (@processItems2_stages _ storageKey); [right; exact E1|]
                | |- entriesSatisfy _ (Server2.processItems _ _ _ _ _) =>
                    apply processItems2_stages; [right; exact E1|]
                end; assumption.
  - visit_cases.
    all: try match goal with
             | |- context [Server2.pushLinks ?l ?st] =>
                 destruct (pushLinks2_maps l st) as [Hc [Hr [Hl Hv]]];
                 unfold stagesInvariant2; rewrite Hc, Hr, Hl, Hv; simpl
             end.
    all: unfold stagesInvariant2; simpl.
    all: unfold Server2.processLocalStorage;
         repeat match goal with
                | |- _ /\ _ => split
                | |- entriesSatisfy _ (fold_left _ _ _) =>
                    apply (@processItems2_stages _ storageKey); [left; reflexivity|]
                | |- entriesSatisfy _ (Server2.processItems _ _ _ _ _) =>
                    apply processItems2_stages; [left; reflexivity|]
                end; assumption.
Qed.

Lemma step2_stages parseUrl browse maxPages root s s' :
  Server2.step parseUrl browse maxPages root s = Some s' ->
  stagesInvariant2 s -> stagesInvariant2 s'.
Proof.
  intros Hstep Hs. unfold Server2.step in Hstep.
  destruct (Nat.ltb _ _); [|discriminate].
  destruct (Server2.sortByPriority (Server2.urlsToVisit s)) as [|item rest];
    [discriminate|].
  simpl in Hstep.
  destruct (set_mem string_dec (Server2.q_url item) (Server2.visitedUrls s));
    [injection Hstep as <-; exact Hs|].
  destruct (parseUrl (Server2.q_url item)) as [pu|]; [|injection Hstep as <-; exact Hs].
  destruct (negb (String.eqb (Server2.u_hostname pu) root));
    [injection Hstep as <-; exact Hs|].
  injection Hstep as <-. apply visitPage2_stages. exact Hs.
Qed.

Lemma crawl2_stages parseUrl browse maxPages root fuel s :
  stagesInvariant2 s ->
  stagesInvariant2 (Server2.crawl parseUrl browse maxPages root fuel s).
Proof.
  revert s. induction fuel as [|fuel IH]; intros s Hs; simpl; [exact Hs|].
  destruct (Server2.step parseUrl browse maxPages root s) as [s'|] eqn:E; [|exact Hs].
  apply IH. eapply step2_stages; eassumption.
Qed.

(** X28.  The three-stage analysis is made on the entry page only.  In a
    crawl of server 2 from the start state, whatever the browser does,
    every cookie, network request and storage item that carries the state
    pre-consent or post-rejection was seen on the first page visited: a
    state of an entry is post-acceptance, or the entry lists the first
    visited page among its pages.  An item that appears only on later
    pages is known in the state post-acceptance alone. *)
Theorem entry_page_stages parseUrl browse maxPages root fuel url_ :
  stagesInvariant2
    (Server2.crawl parseUrl browse maxPages root fuel (Server2.start url_))
  /\ forall k e st,
       In (k, e) (Server2.allCookieMap
                    (Server2.crawl parseUrl browse maxPages root fuel
                                   (Server2.start url_))) ->
       In st (Server2.states e) ->
       st = PostAcceptance
       \/ exists entryPage,
            hd_error (Server2.visitedUrls
                        (Server2.crawl parseUrl browse maxPages root fuel
                                       (Server2.start url_))) = Some entryPage
            /\ In entryPage (Server2.pageUrls e).
Proof.
  assert (H : stagesInvariant2
                (Server2.crawl parseUrl browse maxPages root fuel (Server2.start url_))).
  { apply crawl2_stages. unfold stagesInvariant2, entriesSatisfy. simpl.
    split; [|split]; (split; [apply NoDup_nil|intros k v []]). }
  split; [exact H|].
  intros k e st Hin Hst. destruct H as [[_ Hc] _]. exact (Hc k e Hin st Hst).
Qed.

Lemma entry_page_stages_witness :
  PreConsent = PostAcceptance
  \/ exists entryPage,
       hd_error (Server2.visitedUrls
                   (Server2.crawl cookieSiteUrl cookiePage2 3 "www.example.com" 5
                      (Server2.start "https://www.example.com/"))) = Some entryPage
       /\ In entryPage
             (Server2.pageUrls
                {| Server2.states := [PreConsent; PostRejection; PostAcceptance];
                   Server2.data := gaCookie;
                   Server2.pageUrls := ["https://www.example.com/"] |}).
Proof.
  apply (proj2 (@entry_page_stages cookieSiteUrl cookiePage2 3 "www.example.com" 5
                  "https://www.example.com/") "_ga|.example.com|/").
  - vm_compute. left. reflexivity.
  - left. reflexivity.
Defined.

(* ================================================================= *)
(** * Server 1 contains a failed batch: an instance *)

